(** * Tutorial notebooks [cta_sensitivity] and [detect]

    The two notebooks under [docs/tutorials] define no function of their
    own: every cell is a sequence of calls into numpy, astropy, regions,
    matplotlib and gammapy, none of which is part of the sources at hand.

    - Modules [Nb], [Cta], [Detect]: every code cell as a program of a
      small monad whose only effect is "have the Python runtime perform one
      operation on library objects".  Runtime values stay abstract and the
      libraries are a runtime passed to [run].  Two cells of detect stand
      under IPython's [%%time], which catches what its body raises: detect
      is a script of such programs, run by [run_script], in which an
      exception raised in a timed body ends the cell and not the notebook.
    - Modules [Np], [CtaData], [DetectData]: array contents.  [Np] is
      numpy's arithmetic on shaped arrays.  [CtaData] gives the operations
      of cell 6 of cta_sensitivity (the containment correction) a runtime
      [python] over a store of array buffers, next to the same cell
      written as a state-passing function; [DetectData] does the safe mask
      of detect.  What gammapy computes stays a parameter.
    - Module [Audit]: what can be read off the list of operations of a
      notebook. *)

From Stdlib Require Import ZArith QArith Ascii String.
From stdpp Require Import base option list strings gmap.

Local Open Scope string_scope.
Local Open Scope list_scope.

(** ** Layer 1: notebooks as programs over runtime operations *)

Module Nb.

#[local] Set Warnings "-register-all".

(** Arithmetic operators that the notebooks' cells may spell out. *)
Inductive binop := Add | Sub | Mult | Div.

Inductive cmpop := Eq | NotEq | Lt | Gt.

(** An argument as written at a call site: a literal of the source text, a
    value held in a variable ([AVal]), or a list / tuple display of those.
    [val] is the type of runtime values; programs never look inside one. *)
Inductive arg (val : Type) :=
| AStr (s : string)
| AInt (z : Z)
| AFloat (q : Q)
| ABool (b : bool)
| AVal (v : val)
| AList (l : list (arg val))
| ATuple (l : list (arg val)).

Arguments AStr {val} s.
Arguments AInt {val} z.
Arguments AFloat {val} q.
Arguments ABool {val} b.
Arguments AVal {val} v.
Arguments AList {val} l.
Arguments ATuple {val} l.

Inductive fpart (val : Type) :=
| FText (s : string)
| FVal (v : val).

Arguments FText {val} s.
Arguments FVal {val} v.

(** One operation of the Python runtime.  Each returns a runtime value (the
    value is [None] for statements) or raises. *)
Inductive event (val : Type) :=
| Magic (line : string)
    (* IPython magic: [%matplotlib inline], [%%time] *)
| Import (module : string) (alias : string)
    (* [import module as alias] *)
| ImportFrom (module : string) (names : list string)
    (* [from module import n1, n2] *)
| Load (name : string)
    (* attribute of an imported module: [u.deg] *)
| Call (f : string) (args : list (arg val)) (kwargs : list (string * arg val))
    (* [f(args, kw=...)], [f] a function, class or class method reached
       through an imported name *)
| Method (recv : val) (m : string) (args : list (arg val))
         (kwargs : list (string * arg val))
    (* [recv.m(args, kw=...)] *)
| GetAttr (recv : val) (a : string)           (* [recv.a] *)
| SetAttr (recv : val) (a : string) (v : arg val)   (* [recv.a = v] *)
| GetItem (recv : val) (key : arg val)        (* [recv[key]] *)
| BinOp (op : binop) (l r : arg val)          (* [l op r] *)
| AugOp (op : binop) (target : val) (r : arg val)   (* [target op= r] *)
| Compare (op : cmpop) (l r : arg val)        (* [l == r] *)
| FString (parts : list (fpart val))          (* [f"...{v}..."] *)
| UnpackItem (v : val) (n i : nat)
    (* target number [i] of [t0, ..., t(n-1) = v] *)
| Display (v : val).
    (* the value of a cell's last expression, shown by Jupyter *)

Arguments Magic {val} line.
Arguments Import {val} module alias.
Arguments ImportFrom {val} module names.
Arguments Load {val} name.
Arguments Call {val} f args kwargs.
Arguments Method {val} recv m args kwargs.
Arguments GetAttr {val} recv a.
Arguments SetAttr {val} recv a v.
Arguments GetItem {val} recv key.
Arguments BinOp {val} op l r.
Arguments AugOp {val} op target r.
Arguments Compare {val} op l r.
Arguments FString {val} parts.
Arguments UnpackItem {val} v n i.
Arguments Display {val} v.

(** Programs: a finite tree of operations. *)
Inductive prog (val R : Type) :=
| Ret (r : R)
| Vis (e : event val) (k : val -> prog val R).

Arguments Ret {val R} r.
Arguments Vis {val R} e k.

Fixpoint bind {val A B} (p : prog val A) (f : A -> prog val B) : prog val B :=
  match p with
  | Ret a => f a
  | Vis e k => Vis e (fun v => bind (k v) f)
  end.

Definition op {val} (e : event val) : prog val val := Vis e Ret.

Declare Scope nb_scope.
Delimit Scope nb_scope with nb.
Notation "x <- p ;; q" := (bind p (fun x => q))
  (at level 100, p at next level, right associativity) : nb_scope.
Notation "p ;; q" := (bind p (fun _ => q))
  (at level 100, right associativity) : nb_scope.

(** *** Renaming the values inside an operation *)

Fixpoint amap {A B} (f : A -> B) (a : arg A) : arg B :=
  match a with
  | AStr s => AStr s
  | AInt z => AInt z
  | AFloat q => AFloat q
  | ABool b => ABool b
  | AVal v => AVal (f v)
  | AList l => AList (map (amap f) l)
  | ATuple l => ATuple (map (amap f) l)
  end.

Definition kwmap {A B} (f : A -> B) (kw : string * arg A) : string * arg B :=
  (kw.1, amap f kw.2).

Definition fmap_part {A B} (f : A -> B) (p : fpart A) : fpart B :=
  match p with
  | FText s => FText s
  | FVal v => FVal (f v)
  end.

Definition emap {A B} (f : A -> B) (e : event A) : event B :=
  match e with
  | Magic l => Magic l
  | Import m b => Import m b
  | ImportFrom m b => ImportFrom m b
  | Load n => Load n
  | Call g a kw => Call g (map (amap f) a) (map (kwmap f) kw)
  | Method r m a kw => Method (f r) m (map (amap f) a) (map (kwmap f) kw)
  | GetAttr r a => GetAttr (f r) a
  | SetAttr r a v => SetAttr (f r) a (amap f v)
  | GetItem r k => GetItem (f r) (amap f k)
  | BinOp o l r => BinOp o (amap f l) (amap f r)
  | AugOp o t r => AugOp o (f t) (amap f r)
  | Compare o l r => Compare o (amap f l) (amap f r)
  | FString ps => FString (map (fmap_part f) ps)
  | UnpackItem v n i => UnpackItem (f v) n i
  | Display v => Display (f v)
  end.

(** The label of an operation: the operation with every runtime value
    blanked out.  What remains is what the source text fixes. *)
Definition label {val} (e : event val) : event unit := emap (fun _ => tt) e.

(** *** Listing a program

    [listing p n]: the operations of [p] when operation number [i] (counted
    from [n]) hands back the number [i] as its value.  In the listing an
    argument [AVal i] or a receiver [i] therefore reads "the result of
    operation [i]". *)
Fixpoint listing {R} (p : prog nat R) (n : nat) : list (event nat) :=
  match p with
  | Ret _ => []
  | Vis e k => e :: listing (k n) (S n)
  end.

(** [flows env p ls]: with [env] the values handed back so far, and
    whatever values the runtime hands back from here on, [p] issues exactly
    the operations [ls], each applied to the values that [ls] names by
    number, and then returns. *)
Inductive flows {val R} : list val -> prog val R -> list (event nat) -> Prop :=
| flows_ret env r : flows env (Ret r) []
| flows_vis env e e' k ls :
    emap Some e = emap (fun i => env !! i) e' ->
    (forall v, flows (env ++ [v]) (k v) ls) ->
    flows env (Vis e k) (e' :: ls).

(** *** Running a program against a runtime *)

Section Semantics.
Context {val world exn : Type}.

(** What one operation, or a whole program, does to the world: it returns,
    it raises, or it never comes back. *)
Inductive outcome (A : Type) :=
| Returns (a : A) (w : world)
| Raises (x : exn) (w : world)
| Hangs.

Arguments Returns {A} a w.
Arguments Raises {A} x w.
Arguments Hangs {A}.

(** A deterministic runtime: Python together with the imported libraries. *)
Definition runtime := event val -> world -> outcome val.

Fixpoint run {R} (h : runtime) (p : prog val R) (w : world) : outcome R :=
  match p with
  | Ret r => Returns r w
  | Vis e k =>
      match h e w with
      | Returns v w' => run h (k v) w'
      | Raises x w' => Raises x w'
      | Hangs => Hangs
      end
  end.

(** The operations issued during [run], each with the world it met. *)
Fixpoint trace {R} (h : runtime) (p : prog val R) (w : world)
  : list (event val * world) :=
  match p with
  | Ret _ => []
  | Vis e k =>
      (e, w) :: match h e w with
                | Returns v w' => trace h (k v) w'
                | _ => []
                end
  end.

(** A runtime that need not be deterministic: a relation between an
    operation, the world before, and an outcome. *)
Definition runtime_rel := event val -> world -> outcome val -> Prop.

Inductive exec (L : runtime_rel) {R} : prog val R -> world -> outcome R -> Prop :=
| exec_ret r w : exec L (Ret r) w (Returns r w)
| exec_returns e k w v w' o :
    L e w (Returns v w') -> exec L (k v) w' o -> exec L (Vis e k) w o
| exec_raises e k w x w' :
    L e w (Raises x w') -> exec L (Vis e k) w (Raises x w')
| exec_hangs e k w :
    L e w Hangs -> exec L (Vis e k) w Hangs.

(** Two outcomes agree on [files]: both return the same value, or both
    raise the same exception, leaving worlds with the same [files]; or both
    hang. *)
Definition agree {F A} (files : world -> F) (o1 o2 : outcome A) : Prop :=
  match o1, o2 with
  | Returns a1 w1, Returns a2 w2 => a1 = a2 /\ files w1 = files w2
  | Raises x1 w1, Raises x2 w2 => x1 = x2 /\ files w1 = files w2
  | Hangs, Hangs => True
  | _, _ => False
  end.

(** Every operation is a function of its arguments and of the part
    [files] of the world. *)
Definition deterministic_in {F} (files : world -> F) (L : runtime_rel) : Prop :=
  forall e w1 w2 o1 o2,
    files w1 = files w2 -> L e w1 o1 -> L e w2 o2 -> agree files o1 o2.

(** A deterministic runtime seen as a relation. *)
Definition graph (h : runtime) : runtime_rel := fun e w o => h e w = o.

(** One operation at a time: the first operation meets the world [w], and
    each later one meets exactly the world the one before it returned. *)
Fixpoint chained (h : runtime) (w : world) (tr : list (event val * world))
  : Prop :=
  match tr with
  | [] => True
  | (e, we) :: tr' =>
      we = w /\
      match h e w with
      | Returns _ w' => chained h w' tr'
      | _ => tr' = []
      end
  end.

(** The operation returned when issued in that world. *)
Definition returned (h : runtime) (ev : event val * world) : Prop :=
  exists v w', h ev.1 ev.2 = Returns v w'.

(** The values handed back during [run], in order: number [i] is the
    result of operation number [i]. *)
Fixpoint results {R} (h : runtime) (p : prog val R) (w : world) : list val :=
  match p with
  | Ret _ => []
  | Vis e k =>
      match h e w with
      | Returns v w' => v :: results h (k v) w'
      | _ => []
      end
  end.

(** [g] finds every value that [f] finds. *)
Definition extends (f g : nat -> option val) : Prop :=
  forall j v, f j = Some v -> g j = Some v.

(** Operation number [i] of a run, if the run got that far. *)
Definition op_at {R} (h : runtime) (p : prog val R) (w : world) (i : nat)
  : option (event val) :=
  fst <$> trace h p w !! i.

End Semantics.

Arguments outcome : clear implicits.
Arguments runtime : clear implicits.
Arguments runtime_rel : clear implicits.
Arguments Returns {world exn A} a w.
Arguments Raises {world exn A} x w.
Arguments Hangs {world exn A}.

(** The value a program returns when operation number [i] (counted from
    [n]) hands back the number [i]. *)
Fixpoint numbered {R} (p : prog nat R) (n : nat) : R :=
  match p with
  | Ret r => r
  | Vis e k => numbered (k n) (S n)
  end.

(** *** Notebooks with cells under [%%time]

    IPython's [%%time] runs the body of its cell under [try] / [except]:
    when a statement of the body raises, the magic shows the traceback
    and returns, the cell ends as if nothing had happened, and the next
    cell runs, with the names the body had bound so far.  A script is a
    sequence of straight-line segments; a [Timed] segment is a stretch of
    such a body, [rescue] is what runs when it raises. *)
Inductive script (val R : Type) :=
| Done (r : R)
| Plain (p : prog val val) (k : val -> script val R)
| Timed (body : prog val val) (k : val -> script val R)
        (rescue : script val R).

Arguments Done {val R} r.
Arguments Plain {val R} p k.
Arguments Timed {val R} body k rescue.

(** The script when nothing raises. *)
Fixpoint main_line {val R} (s : script val R) : prog val R :=
  match s with
  | Done r => Ret r
  | Plain p k => bind p (fun v => main_line (k v))
  | Timed p k _ => bind p (fun v => main_line (k v))
  end.

(** Which operations of the listing stand in a timed segment. *)
Fixpoint timed_ops {R} (s : script nat R) (n : nat) : list bool :=
  match s with
  | Done _ => []
  | Plain p k =>
      replicate (length (listing p n)) false
      ++ timed_ops (k (numbered p n)) (n + length (listing p n))
  | Timed p k _ =>
      replicate (length (listing p n)) true
      ++ timed_ops (k (numbered p n)) (n + length (listing p n))
  end.

Section Scripts.
Context {val world exn : Type}.
Local Abbreviation runtime := (runtime val world exn).
Local Abbreviation outcome := (outcome world exn).

Fixpoint run_script {R} (h : runtime) (s : script val R) (w : world)
  : outcome R :=
  match s with
  | Done r => Returns r w
  | Plain p k =>
      match run h p w with
      | Returns v w' => run_script h (k v) w'
      | Raises x w' => Raises x w'
      | Hangs => Hangs
      end
  | Timed p k r =>
      match run h p w with
      | Returns v w' => run_script h (k v) w'
      | Raises _ w' => run_script h r w'
      | Hangs => Hangs
      end
  end.

(** The operations issued during [run_script], each with the world it
    met. *)
Fixpoint trace_script {R} (h : runtime) (s : script val R) (w : world)
  : list (event val * world) :=
  match s with
  | Done _ => []
  | Plain p k =>
      trace h p w ++
      match run h p w with
      | Returns v w' => trace_script h (k v) w'
      | _ => []
      end
  | Timed p k r =>
      trace h p w ++
      match run h p w with
      | Returns v w' => trace_script h (k v) w'
      | Raises _ w' => trace_script h r w'
      | Hangs => []
      end
  end.

(** For each operation issued, whether it stood in a timed segment. *)
Fixpoint timed_script {R} (h : runtime) (s : script val R) (w : world)
  : list bool :=
  match s with
  | Done _ => []
  | Plain p k =>
      replicate (length (trace h p w)) false ++
      match run h p w with
      | Returns v w' => timed_script h (k v) w'
      | _ => []
      end
  | Timed p k r =>
      replicate (length (trace h p w)) true ++
      match run h p w with
      | Returns v w' => timed_script h (k v) w'
      | Raises _ w' => timed_script h r w'
      | Hangs => []
      end
  end.

(** Where a run goes on after the first exception that was caught. *)
Fixpoint resume {R} (h : runtime) (s : script val R) (w : world)
  : option (script val R * world) :=
  match s with
  | Done _ => None
  | Plain p k =>
      match run h p w with
      | Returns v w' => resume h (k v) w'
      | _ => None
      end
  | Timed p k r =>
      match run h p w with
      | Returns v w' => resume h (k v) w'
      | Raises _ w' => Some (r, w')
      | Hangs => None
      end
  end.

(** Operation number [i] of a run, and the value it handed back. *)
Definition op_in (tr : list (event val * world)) (i : nat)
  : option (event val) :=
  fst <$> tr !! i.

Definition value_in (h : runtime) (tr : list (event val * world)) (i : nat)
  : option val :=
  ev ← tr !! i;
  match h ev.1 ev.2 with
  | Returns v _ => Some v
  | _ => None
  end.

(** The same against a runtime that is a relation. *)
Inductive exec_script (L : runtime_rel val world exn) {R}
  : script val R -> world -> outcome R -> Prop :=
| exec_done r w : exec_script L (Done r) w (Returns r w)
| exec_plain_returns p k w v w' o :
    exec L p w (Returns v w') -> exec_script L (k v) w' o ->
    exec_script L (Plain p k) w o
| exec_plain_raises p k w x w' :
    exec L p w (Raises x w') -> exec_script L (Plain p k) w (Raises x w')
| exec_plain_hangs p k w :
    exec L p w Hangs -> exec_script L (Plain p k) w Hangs
| exec_timed_returns p k r w v w' o :
    exec L p w (Returns v w') -> exec_script L (k v) w' o ->
    exec_script L (Timed p k r) w o
| exec_timed_raises p k r w x w' o :
    exec L p w (Raises x w') -> exec_script L r w' o ->
    exec_script L (Timed p k r) w o
| exec_timed_hangs p k r w :
    exec L p w Hangs -> exec_script L (Timed p k r) w Hangs.

(** One operation at a time, also past an exception that was caught: each
    operation meets the world the one before it left, whether that one
    returned or raised, and none is issued after one that hung. *)
Fixpoint sequenced (h : runtime) (w : world) (tr : list (event val * world))
  : Prop :=
  match tr with
  | [] => True
  | (e, we) :: tr' =>
      we = w /\
      match h e w with
      | Returns _ w' => sequenced h w' tr'
      | Raises _ w' => sequenced h w' tr'
      | Hangs => tr' = []
      end
  end.

(** The claim "every exception an operation raises is the outcome of the
    run" on a trace and an outcome. *)
Definition propagates {R} (h : runtime) (tr : list (event val * world))
    (o : outcome R) : Prop :=
  forall e we x w',
    (e, we) ∈ tr -> h e we = Raises x w' -> o = Raises x w'.

End Scripts.

(** What a program issues, values blanked out. *)
Inductive labelled {val R} : prog val R -> list (event unit) -> Prop :=
| labelled_ret r : labelled (Ret r) []
| labelled_vis e k ll :
    (forall v, labelled (k v) ll) -> labelled (Vis e k) (label e :: ll).

(** Marking every label of a segment as timed or not. *)
Definition marked (b : bool) (ll : list (event unit))
  : list (event unit * bool) :=
  (fun l => (l, b)) <$> ll.

(** [covers s lm]: every run of [s] issues operations whose labels and
    marks are taken from [lm] in order, each entry used at most once. *)
Inductive covers {val R} : script val R -> list (event unit * bool) -> Prop :=
| covers_done r lm : covers (Done r) lm
| covers_plain p k l1 lm :
    labelled p l1 -> (forall v, covers (k v) lm) ->
    covers (Plain p k) (marked false l1 ++ lm)
| covers_timed p k r l1 lm :
    labelled p l1 -> (forall v, covers (k v) lm) -> covers r lm ->
    covers (Timed p k r) (marked true l1 ++ lm)
| covers_skip s l0 lm : covers s lm -> covers s (l0 ++ lm).

(** [shaped s lm]: as long as nothing raises, [s] issues exactly the
    operations [lm], label by label, each in a timed segment exactly when
    [lm] marks it so. *)
Inductive shaped {val R} : script val R -> list (event unit * bool) -> Prop :=
| shaped_done r : shaped (Done r) []
| shaped_plain p k l1 lm :
    labelled p l1 -> (forall v, shaped (k v) lm) ->
    shaped (Plain p k) (marked false l1 ++ lm)
| shaped_timed p k r l1 lm :
    labelled p l1 -> (forall v, shaped (k v) lm) ->
    shaped (Timed p k r) (marked true l1 ++ lm).

(** [resumes s]: whatever raises in a timed segment of [s], the run goes
    on with at least one more operation. *)
Inductive begins {val R} : script val R -> Prop :=
| begins_plain e k k' : begins (Plain (Vis e k) k')
| begins_timed e k k' r : begins (Timed (Vis e k) k' r).

Inductive resumes {val R} : script val R -> Prop :=
| resumes_done r : resumes (Done r)
| resumes_plain p k : (forall v, resumes (k v)) -> resumes (Plain p k)
| resumes_timed p k r :
    (forall v, resumes (k v)) -> begins r -> resumes r ->
    resumes (Timed p k r).

End Nb.

(** ** Notebook [docs/tutorials/cta_sensitivity.ipynb] *)

Module Cta.
Import Nb.

Section Cells.
Context {val : Type}.
Local Open Scope nb_scope.
Local Abbreviation prog := (Nb.prog val).

(** Cell 1 (lines 39-41). *)
Definition cell_setup : prog unit :=
  op (Magic "%matplotlib inline") ;;
  op (Import "matplotlib.pyplot" "plt") ;;
  op (Import "numpy" "np") ;;
  Ret tt.

(** Cell 2 (lines 50-59). *)
Definition cell_imports : prog unit :=
  op (Import "astropy.units" "u") ;;
  op (ImportFrom "astropy.coordinates" ["Angle"; "SkyCoord"]) ;;
  op (ImportFrom "regions" ["CircleSkyRegion"]) ;;
  op (ImportFrom "gammapy.irf" ["load_cta_irfs"]) ;;
  op (ImportFrom "gammapy.makers" ["SpectrumDatasetMaker"]) ;;
  op (ImportFrom "gammapy.data" ["Observation"]) ;;
  op (ImportFrom "gammapy.estimators" ["SensitivityEstimator"]) ;;
  op (ImportFrom "gammapy.datasets" ["SpectrumDataset"; "SpectrumDatasetOnOff"]) ;;
  op (ImportFrom "gammapy.maps" ["MapAxis"]) ;;
  Ret tt.

(** The names bound by cell 3 (lines 77-85). *)
Record region_vars := {
  center : val;
  region : val;
  e_reco : val;
  e_true : val;
  empty_dataset : val
}.

Definition cell_region : prog region_vars :=
  (* center = SkyCoord("0 deg", "0.5 deg") *)
  center <- op (Call "SkyCoord" [AStr "0 deg"; AStr "0.5 deg"] []) ;;
  (* region = CircleSkyRegion(center=center, radius=0.1 * u.deg) *)
  deg <- op (Load "u.deg") ;;
  radius <- op (BinOp Mult (AFloat 0.1) (AVal deg)) ;;
  region <- op (Call "CircleSkyRegion" []
                  [("center", AVal center); ("radius", AVal radius)]) ;;
  (* e_reco = MapAxis.from_energy_bounds("0.03 TeV", "30 TeV", nbin=20) *)
  e_reco <- op (Call "MapAxis.from_energy_bounds"
                  [AStr "0.03 TeV"; AStr "30 TeV"] [("nbin", AInt 20)]) ;;
  (* e_true = MapAxis.from_energy_bounds("0.01 TeV", "100 TeV", nbin=100) *)
  e_true <- op (Call "MapAxis.from_energy_bounds"
                  [AStr "0.01 TeV"; AStr "100 TeV"] [("nbin", AInt 100)]) ;;
  (* empty_dataset = SpectrumDataset.create(
         e_reco=e_reco, e_true=e_true, region=region) *)
  empty_dataset <- op (Call "SpectrumDataset.create" []
                         [("e_reco", AVal e_reco); ("e_true", AVal e_true);
                          ("region", AVal region)]) ;;
  Ret {| center := center; region := region; e_reco := e_reco;
         e_true := e_true; empty_dataset := empty_dataset |}.

(** Cell 4 (lines 103-108); returns [obs]. *)
Definition cell_irfs : prog val :=
  irfs <- op (Call "load_cta_irfs"
    [AStr "$GAMMAPY_DATA/cta-1dc/caldb/data/cta/1dc/bcf/South_z20_50h/irf_file.fits"]
    []) ;;
  pointing <- op (Call "SkyCoord" [AStr "0 deg"; AStr "0 deg"] []) ;;
  obs <- op (Call "Observation.create" []
               [("pointing", AVal pointing); ("irfs", AVal irfs);
                ("livetime", AStr "5 h")]) ;;
  Ret obs.

(** Cell 5 (lines 117-120); returns [dataset]. *)
Definition cell_maker (empty_dataset obs : val) : prog val :=
  spectrum_maker <- op (Call "SpectrumDatasetMaker" []
      [("selection", AList [AStr "aeff"; AStr "edisp"; AStr "background"])]) ;;
  dataset <- op (Method spectrum_maker "run" [AVal empty_dataset; AVal obs] []) ;;
  Ret dataset.

(** Cell 6 (lines 136-146), the containment correction; returns [on_radii],
    which the last cell plots. *)
Definition containment : Q := 0.68.

Definition cell_containment (dataset obs e_reco region : val) : prog val :=
  (* dataset.aeff.data.data *= containment *)
  aeff <- op (GetAttr dataset "aeff") ;;
  aeff_data <- op (GetAttr aeff "data") ;;
  arr <- op (GetAttr aeff_data "data") ;;
  arr' <- op (AugOp Mult arr (AFloat containment)) ;;
  op (SetAttr aeff_data "data" (AVal arr')) ;;
  (* on_radii = obs.psf.containment_radius(
         energy=e_reco.center, theta=0.5 * u.deg, fraction=containment)[0] *)
  psf <- op (GetAttr obs "psf") ;;
  energy <- op (GetAttr e_reco "center") ;;
  deg <- op (Load "u.deg") ;;
  theta <- op (BinOp Mult (AFloat 0.5) (AVal deg)) ;;
  radii <- op (Method psf "containment_radius" []
                 [("energy", AVal energy); ("theta", AVal theta);
                  ("fraction", AFloat containment)]) ;;
  on_radii <- op (GetItem radii (AInt 0)) ;;
  (* factor = (1 - np.cos(on_radii)) / (1 - np.cos(region.radius)) *)
  cos_on <- op (Call "np.cos" [AVal on_radii] []) ;;
  num <- op (BinOp Sub (AInt 1) (AVal cos_on)) ;;
  radius <- op (GetAttr region "radius") ;;
  cos_reg <- op (Call "np.cos" [AVal radius] []) ;;
  den <- op (BinOp Sub (AInt 1) (AVal cos_reg)) ;;
  factor <- op (BinOp Div (AVal num) (AVal den)) ;;
  (* dataset.background.data *= factor.value.reshape((-1, 1, 1)) *)
  background <- op (GetAttr dataset "background") ;;
  bdata <- op (GetAttr background "data") ;;
  fvalue <- op (GetAttr factor "value") ;;
  fcol <- op (Method fvalue "reshape" [ATuple [AInt (-1); AInt 1; AInt 1]] []) ;;
  bdata' <- op (AugOp Mult bdata (AVal fcol)) ;;
  op (SetAttr background "data" (AVal bdata')) ;;
  Ret on_radii.

(** Cell 7 (lines 162-164); returns [dataset_on_off]. *)
Definition cell_on_off (dataset : val) : prog val :=
  op (Call "SpectrumDatasetOnOff.from_spectrum_dataset" []
        [("dataset", AVal dataset); ("acceptance", AInt 1);
         ("acceptance_off", AInt 5)]).

(** Cell 8 (lines 183-184); returns [sensitivity_table]. *)
Definition cell_sensitivity (dataset_on_off : val) : prog val :=
  sensitivity_estimator <- op (Call "SensitivityEstimator" []
                                 [("gamma_min", AInt 5); ("sigma", AInt 3)]) ;;
  op (Method sensitivity_estimator "run" [AVal dataset_on_off] []).

(** Cell 9 (lines 203-204): the table is the cell's value. *)
Definition cell_show (sensitivity_table : val) : prog unit :=
  op (Display sensitivity_table) ;;
  Ret tt.

(** Cell 10 (lines 213-214) holds two comment lines and no statement. *)
Definition cell_save (sensitivity_table : val) : prog unit :=
  (* # sensitivity_table.write('sensitivity.ecsv', format='ascii.ecsv') *)
  Ret tt.

(** The statement that line 214 would be without its leading [#]. *)
Definition commented_write (sensitivity_table : val) : event val :=
  Method sensitivity_table "write" [AStr "sensitivity.ecsv"]
         [("format", AStr "ascii.ecsv")].

(** Cell 11 (lines 223-243). *)
Definition cell_plot_sensitivity (sensitivity_table : val) : prog unit :=
  let t := sensitivity_table in
  (* is_s = t["criterion"] == "significance" *)
  crit <- op (GetItem t (AStr "criterion")) ;;
  is_s <- op (Compare Eq (AVal crit) (AStr "significance")) ;;
  (* plt.plot(t["energy"][is_s], t["e2dnde"][is_s], "s-", ...) *)
  en <- op (GetItem t (AStr "energy")) ;;
  x <- op (GetItem en (AVal is_s)) ;;
  fl <- op (GetItem t (AStr "e2dnde")) ;;
  y <- op (GetItem fl (AVal is_s)) ;;
  op (Call "plt.plot" [AVal x; AVal y; AStr "s-"]
        [("color", AStr "red"); ("label", AStr "significance")]) ;;
  (* is_g = t["criterion"] == "gamma" *)
  crit <- op (GetItem t (AStr "criterion")) ;;
  is_g <- op (Compare Eq (AVal crit) (AStr "gamma")) ;;
  (* plt.plot(t["energy"][is_g], t["e2dnde"][is_g], "*-", ...) *)
  en <- op (GetItem t (AStr "energy")) ;;
  x <- op (GetItem en (AVal is_g)) ;;
  fl <- op (GetItem t (AStr "e2dnde")) ;;
  y <- op (GetItem fl (AVal is_g)) ;;
  op (Call "plt.plot" [AVal x; AVal y; AStr "*-"]
        [("color", AStr "blue"); ("label", AStr "gamma")]) ;;
  op (Call "plt.loglog" [] []) ;;
  (* plt.xlabel(f"Energy ({t['energy'].unit})") *)
  en <- op (GetItem t (AStr "energy")) ;;
  un <- op (GetAttr en "unit") ;;
  s <- op (FString [FText "Energy ("; FVal un; FText ")"]) ;;
  op (Call "plt.xlabel" [AVal s] []) ;;
  (* plt.ylabel(f"Sensitivity ({t['e2dnde'].unit})") *)
  fl <- op (GetItem t (AStr "e2dnde")) ;;
  un <- op (GetAttr fl "unit") ;;
  s <- op (FString [FText "Sensitivity ("; FVal un; FText ")"]) ;;
  op (Call "plt.ylabel" [AVal s] []) ;;
  (* plt.legend(); *)
  op (Call "plt.legend" [] []) ;;
  Ret tt.

(** Cell 12 (lines 259-274). *)
Definition cell_plot_background (sensitivity_table on_radii : val) : prog unit :=
  let t := sensitivity_table in
  (* fig, ax1 = plt.subplots() *)
  sub <- op (Call "plt.subplots" [] []) ;;
  fig <- op (UnpackItem sub 2 0) ;;
  ax1 <- op (UnpackItem sub 2 1) ;;
  (* ax1.plot(t["energy"], t["background"], "o-", ...) *)
  en <- op (GetItem t (AStr "energy")) ;;
  bk <- op (GetItem t (AStr "background")) ;;
  op (Method ax1 "plot" [AVal en; AVal bk; AStr "o-"]
        [("color", AStr "black"); ("label", AStr "blackground")]) ;;
  op (Method ax1 "loglog" [] []) ;;
  (* ax1.set_xlabel(f"Energy ({t['energy'].unit})") *)
  en <- op (GetItem t (AStr "energy")) ;;
  un <- op (GetAttr en "unit") ;;
  s <- op (FString [FText "Energy ("; FVal un; FText ")"]) ;;
  op (Method ax1 "set_xlabel" [AVal s] []) ;;
  op (Method ax1 "set_ylabel" [AStr "Expected number of bkg counts"] []) ;;
  (* ax2 = ax1.twinx() *)
  ax2 <- op (Method ax1 "twinx" [] []) ;;
  (* ax2.set_ylabel(f"ON region radius ({on_radii.unit})", color="red") *)
  un <- op (GetAttr on_radii "unit") ;;
  s <- op (FString [FText "ON region radius ("; FVal un; FText ")"]) ;;
  op (Method ax2 "set_ylabel" [AVal s] [("color", AStr "red")]) ;;
  (* ax2.semilogy(t["energy"], on_radii, color="red", label="PSF68") *)
  en <- op (GetItem t (AStr "energy")) ;;
  op (Method ax2 "semilogy" [AVal en; AVal on_radii]
        [("color", AStr "red"); ("label", AStr "PSF68")]) ;;
  op (Method ax2 "tick_params" []
        [("axis", AStr "y"); ("labelcolor", AStr "red")]) ;;
  (* ax2.set_ylim(0.01, 0.5) *)
  lim <- op (Method ax2 "set_ylim" [AFloat 0.01; AFloat 0.5] []) ;;
  op (Display lim) ;;
  Ret tt.

(** The notebook: its code cells in order.  The result is the sensitivity
    table. *)
Definition notebook : prog val :=
  cell_setup ;;
  cell_imports ;;
  g <- cell_region ;;
  obs <- cell_irfs ;;
  dataset <- cell_maker (empty_dataset g) obs ;;
  on_radii <- cell_containment dataset obs (e_reco g) (region g) ;;
  dataset_on_off <- cell_on_off dataset ;;
  sensitivity_table <- cell_sensitivity dataset_on_off ;;
  cell_show sensitivity_table ;;
  cell_save sensitivity_table ;;
  cell_plot_sensitivity sensitivity_table ;;
  cell_plot_background sensitivity_table on_radii ;;
  Ret sensitivity_table.

End Cells.
End Cta.

(** ** Notebook [docs/tutorials/detect.ipynb] *)

Module Detect.
Import Nb.

Section Cells.
Context {val : Type}.
Local Open Scope nb_scope.
Local Abbreviation prog := (Nb.prog val).
Local Abbreviation script := (Nb.script val).

(** Cell 1 (lines 52-71). *)
Definition cell_setup : prog unit :=
  op (Magic "%matplotlib inline") ;;
  op (Import "matplotlib.pyplot" "plt") ;;
  op (Import "matplotlib.cm" "cm") ;;
  op (ImportFrom "gammapy.maps" ["Map"]) ;;
  op (ImportFrom "gammapy.estimators" ["ASmoothMapEstimator"; "TSMapEstimator"]) ;;
  op (ImportFrom "gammapy.estimators.utils" ["find_peaks"]) ;;
  op (ImportFrom "gammapy.datasets" ["MapDataset"]) ;;
  op (ImportFrom "gammapy.modeling.models"
        ["BackgroundModel"; "SkyModel"; "PowerLawSpectralModel";
         "PointSpatialModel"]) ;;
  op (ImportFrom "gammapy.irf" ["PSFMap"; "EnergyDependentTablePSF"]) ;;
  op (ImportFrom "astropy.coordinates" ["SkyCoord"]) ;;
  op (Import "astropy.units" "u") ;;
  op (Import "numpy" "np") ;;
  Ret tt.

(** Cell 2 (lines 89-118); returns [dataset]. *)
Definition cell_read : prog val :=
  counts <- op (Call "Map.read"
    [AStr "$GAMMAPY_DATA/fermi-3fhl-gc/fermi-3fhl-gc-counts-cube.fits.gz"] []) ;;
  background <- op (Call "Map.read"
    [AStr "$GAMMAPY_DATA/fermi-3fhl-gc/fermi-3fhl-gc-background-cube.fits.gz"] []) ;;
  (* background = BackgroundModel(background, datasets_names=["fermi-3fhl-gc"]) *)
  background <- op (Call "BackgroundModel" [AVal background]
                      [("datasets_names", AList [AStr "fermi-3fhl-gc"])]) ;;
  exposure <- op (Call "Map.read"
    [AStr "$GAMMAPY_DATA/fermi-3fhl-gc/fermi-3fhl-gc-exposure-cube.fits.gz"] []) ;;
  (* exposure.unit = "cm2s" *)
  op (SetAttr exposure "unit" (AStr "cm2s")) ;;
  (* mask_safe = counts.copy(data=np.ones_like(counts.data).astype("bool")) *)
  cdata <- op (GetAttr counts "data") ;;
  ones <- op (Call "np.ones_like" [AVal cdata] []) ;;
  trues <- op (Method ones "astype" [AStr "bool"] []) ;;
  mask_safe <- op (Method counts "copy" [] [("data", AVal trues)]) ;;
  psf <- op (Call "EnergyDependentTablePSF.read"
    [AStr "$GAMMAPY_DATA/fermi-3fhl-gc/fermi-3fhl-gc-psf-cube.fits.gz"] []) ;;
  psfmap <- op (Call "PSFMap.from_energy_dependent_table_psf" [AVal psf] []) ;;
  dataset <- op (Call "MapDataset" []
                   [("counts", AVal counts);
                    ("models", AList [AVal background]);
                    ("exposure", AVal exposure);
                    ("psf", AVal psfmap);
                    ("mask_safe", AVal mask_safe);
                    ("name", AStr "fermi-3fhl-gc")]) ;;
  (* dataset = dataset.to_image() *)
  op (Method dataset "to_image" [] []).

(** How the notebook ends when no operation of an untimed cell raises:
    with the list of source candidates, or with Python's [NameError] for a
    name that no cell has bound. *)
Inductive ending :=
| Sources (sources : val)
| NameError (name : string).

(** Cell 3 (lines 138-144) stands under [%%time].  Lines 139-141, up to
    the binding of [images]. *)
Definition smooth_run (dataset : val) : prog val :=
  (* scales = u.Quantity(np.arange(0.05, 1, 0.05), unit="deg") *)
  steps <- op (Call "np.arange" [AFloat 0.05; AInt 1; AFloat 0.05] []) ;;
  scales <- op (Call "u.Quantity" [AVal steps] [("unit", AStr "deg")]) ;;
  smooth <- op (Call "ASmoothMapEstimator" []
                  [("threshold", AInt 3); ("scales", AVal scales)]) ;;
  (* images = smooth.run(dataset) *)
  op (Method smooth "run" [AVal dataset] []).

(** Lines 143-144; the value of the last expression is what the magic
    returns. *)
Definition smooth_plot (images : val) : prog val :=
  op (Call "plt.figure" [] [("figsize", ATuple [AInt 15; AInt 5])]) ;;
  (* images["counts"].plot(add_cbar=True, vmax=10) *)
  im <- op (GetItem images (AStr "counts")) ;;
  op (Method im "plot" [] [("add_cbar", ABool true); ("vmax", AInt 10)]).

(** Cell 3.  [rest] is the notebook from cell 4 on, given what [images] is
    bound to: when the body raises before line 141 has bound it, to
    nothing; when it raises later, or not at all, to the smoothed images.
    The value the magic returns is displayed only when the body came to its
    end. *)
Definition cell_smooth {R} (dataset : val) (rest : option val -> script R)
  : script R :=
  Plain (op (Magic "%%time")) (fun _ =>
  Timed (smooth_run dataset) (fun images =>
    Timed (smooth_plot images) (fun shown =>
      Plain (op (Display shown)) (fun _ => rest (Some images)))
      (rest (Some images)))
    (rest None)).

(** Cell 4 (lines 165-167); returns [model]. *)
Definition cell_model : prog val :=
  spatial_model <- op (Call "PointSpatialModel" [] []) ;;
  spectral_model <- op (Call "PowerLawSpectralModel" [] [("index", AInt 2)]) ;;
  op (Call "SkyModel" []
        [("spatial_model", AVal spatial_model);
         ("spectral_model", AVal spectral_model)]).

(** Cell 5 (lines 176-178) stands under [%%time]: lines 177-178. *)
Definition ts_run (model dataset : val) : prog val :=
  estimator <- op (Call "TSMapEstimator" [AVal model]
                     [("kernel_width", AStr "0.4 deg")]) ;;
  (* images = estimator.run(dataset) *)
  op (Method estimator "run" [AVal dataset] []).

(** Cell 5.  When its body raises, [images] stays bound to what it was
    bound to before the cell. *)
Definition cell_ts {R} (model dataset : val) (images : option val)
    (rest : option val -> script R) : script R :=
  Plain (op (Magic "%%time")) (fun _ =>
  Timed (ts_run model dataset) (fun images' => rest (Some images'))
    (rest images)).

(** Cells 6, 7 and 8 (lines 194-195, 204-205, 214-215); each ends in [;]. *)
Definition cell_plot_sqrt_ts (images : val) : prog unit :=
  op (Call "plt.figure" [] [("figsize", ATuple [AInt 15; AInt 5])]) ;;
  im <- op (GetItem images (AStr "sqrt_ts")) ;;
  op (Method im "plot" [] [("add_cbar", ABool true)]) ;;
  Ret tt.

Definition cell_plot_flux (images : val) : prog unit :=
  op (Call "plt.figure" [] [("figsize", ATuple [AInt 15; AInt 5])]) ;;
  im <- op (GetItem images (AStr "flux")) ;;
  op (Method im "plot" []
        [("add_cbar", ABool true); ("stretch", AStr "sqrt"); ("vmin", AInt 0)]) ;;
  Ret tt.

Definition cell_plot_niter (images : val) : prog unit :=
  op (Call "plt.figure" [] [("figsize", ATuple [AInt 15; AInt 5])]) ;;
  im <- op (GetItem images (AStr "niter")) ;;
  op (Method im "plot" [] [("add_cbar", ABool true)]) ;;
  Ret tt.

(** Cell 9 (lines 234-236); returns [sources]. *)
Definition cell_peaks (images : val) : prog val :=
  (* sources = find_peaks(images["sqrt_ts"], threshold=8, min_distance=1) *)
  im <- op (GetItem images (AStr "sqrt_ts")) ;;
  sources <- op (Call "find_peaks" [AVal im]
                   [("threshold", AInt 8); ("min_distance", AInt 1)]) ;;
  (* nsou = len(sources) *)
  nsou <- op (Call "len" [AVal sources] []) ;;
  op (Display sources) ;;
  Ret sources.

(** Cell 10 (lines 245-259). *)
Definition cell_plot_sources (images sources : val) : prog unit :=
  op (Call "plt.figure" [] [("figsize", ATuple [AInt 15; AInt 5])]) ;;
  (* _, ax, _ = images["sqrt_ts"].plot(add_cbar=True) *)
  im <- op (GetItem images (AStr "sqrt_ts")) ;;
  shown <- op (Method im "plot" [] [("add_cbar", ABool true)]) ;;
  op (UnpackItem shown 3 0) ;;
  ax <- op (UnpackItem shown 3 1) ;;
  op (UnpackItem shown 3 2) ;;
  (* ax.scatter(sources["ra"], sources["dec"],
                transform=plt.gca().get_transform("icrs"), ...); *)
  ra <- op (GetItem sources (AStr "ra")) ;;
  dec <- op (GetItem sources (AStr "dec")) ;;
  axes <- op (Call "plt.gca" [] []) ;;
  tr <- op (Method axes "get_transform" [AStr "icrs"] []) ;;
  op (Method ax "scatter" [AVal ra; AVal dec]
        [("transform", AVal tr); ("color", AStr "none");
         ("edgecolor", AStr "w"); ("marker", AStr "o");
         ("s", AInt 600); ("lw", AFloat 1.5)]) ;;
  Ret tt.

(** Cells 6 to 10 (lines 194-259) with [images] bound; returns
    [sources]. *)
Definition cells_inspect (images : val) : prog val :=
  cell_plot_sqrt_ts images ;;
  cell_plot_flux images ;;
  cell_plot_niter images ;;
  sources <- cell_peaks images ;;
  cell_plot_sources images sources ;;
  Ret sources.

(** Cells 6 to 10.  When no cell has bound [images], the second statement
    of cell 6 (line 195) raises [NameError] after [plt.figure] has been
    called, and the notebook ends there. *)
Definition cells_after (images : option val) : script ending :=
  match images with
  | Some images =>
      Plain (cells_inspect images) (fun sources => Done (Sources sources))
  | None =>
      Plain (op (Call "plt.figure" [] [("figsize", ATuple [AInt 15; AInt 5])]))
        (fun _ => Done (NameError "images"))
  end.

(** Cell 11 (line 290) is empty. *)
Definition notebook : script ending :=
  Plain (cell_setup ;; cell_read) (fun dataset =>
  cell_smooth dataset (fun images =>
  Plain cell_model (fun model =>
  cell_ts model dataset images cells_after))).

End Cells.
End Detect.

(** ** Layer 2: the cells that touch array contents *)

(** *** numpy arrays

    An array is a shape and its elements in row-major order.  The
    operations below are numpy's, restricted to what the two cells use. *)

Module Np.

Inductive exn :=
| IndexError
| ValueError
| UnitTypeError
| LibraryError (name : string).

Record ndarray (A : Type) := NdArray { shape : list nat; flat : list A }.

Arguments NdArray {A} shape flat.
Arguments shape {A} _.
Arguments flat {A} _.

(** Number of elements of an array of shape [sh]. *)
Definition size (sh : list nat) : nat := foldr Nat.mul 1 sh.

Definition well_formed {A} (a : ndarray A) : Prop :=
  length (flat a) = size (shape a).

(** A 0-dimensional array. *)
Definition scalar {A} (x : A) : ndarray A := NdArray [] [x].

(** The multi-index of flat position [i] in shape [sh], and back. *)
Fixpoint unravel (sh : list nat) (i : nat) : list nat :=
  match sh with
  | [] => []
  | d :: sh' => (i / size sh') `mod` d :: unravel sh' i
  end.

Fixpoint ravel (sh idx : list nat) : nat :=
  match sh, idx with
  | _ :: sh', j :: idx' => j * size sh' + ravel sh' idx'
  | _, _ => 0
  end.

(** numpy's broadcasting rule on two shapes, aligned at their last axes. *)
Definition broadcast_dim (da db : nat) : option nat :=
  if decide (da = db) then Some da
  else if decide (db = 1) then Some da
  else if decide (da = 1) then Some db
  else None.

Fixpoint broadcast_rev (ra rb : list nat) : option (list nat) :=
  match ra, rb with
  | [], _ => Some rb
  | _, [] => Some ra
  | da :: ra', db :: rb' =>
      d ← broadcast_dim da db; r ← broadcast_rev ra' rb'; Some (d :: r)
  end.

Definition broadcast_shapes (sa sb : list nat) : option (list nat) :=
  reverse <$> broadcast_rev (reverse sa) (reverse sb).

(** Where flat position [i] of the broadcast result (shape [sh]) reads in
    an operand of shape [s]: axes of length 1 are pinned to index 0. *)
Definition pin (j d : nat) : nat := if decide (d = 1) then 0 else j.

Definition bcast_index (sh s : list nat) (i : nat) : nat :=
  ravel s (zip_with pin (drop (length sh - length s) (unravel sh i)) s).

(** [f(a, b)] elementwise with broadcasting: [a / b], [a * b]. *)
Definition broadcast2 {A B C} (f : A -> B -> C) (a : ndarray A) (b : ndarray B)
  : option (ndarray C) :=
  sh ← broadcast_shapes (shape a) (shape b);
  l ← mapM (fun i =>
              x ← flat a !! bcast_index sh (shape a) i;
              y ← flat b !! bcast_index sh (shape b) i;
              Some (f x y))
           (seq 0 (size sh));
  Some (NdArray sh l).

(** [a op= b]: the broadcast result must have the shape of [a]. *)
Definition inplace2 {A B} (f : A -> B -> A) (a : ndarray A) (b : ndarray B)
  : option (ndarray A) :=
  r ← broadcast2 f a b;
  if decide (shape r = shape a) then Some r else None.

(** [f(a)] elementwise, and [a op c] / [c op a] for a Python number [c]. *)
Definition map_array {A B} (f : A -> B) (a : ndarray A) : ndarray B :=
  NdArray (shape a) (f <$> flat a).

(** [a[0]]. *)
Definition getitem0 {A} (a : ndarray A) : option (ndarray A) :=
  match shape a with
  | [] => None
  | 0 :: _ => None
  | S _ :: sh => Some (NdArray sh (take (size sh) (flat a)))
  end.

(** [a.reshape((-1, 1, 1))]. *)
Definition reshape_m1_1_1 {A} (a : ndarray A) : ndarray A :=
  NdArray [length (flat a); 1; 1] (flat a).

(** [np.ones_like(a)]. *)
Definition ones_like {A} (one : A) (a : ndarray A) : ndarray A :=
  NdArray (shape a) (replicate (size (shape a)) one).

(** [a.astype("bool")]. *)
Definition astype_bool {A} (truthy : A -> bool) (a : ndarray A) : ndarray bool :=
  map_array truthy a.

End Np.

(** *** cta_sensitivity, cell 6 (lines 136-146) on array contents *)

Module CtaData.
Import Np.

(** Array buffers are shared by reference: an object holds the address of
    its buffer, the store holds the contents. *)
Abbreviation loc := positive.
Abbreviation store num := (gmap loc (ndarray num)).

Section Cell.

(** Python floats and the arithmetic numpy applies to them elementwise;
    [of_Q] reads a decimal literal, [of_Z] converts an int operand. *)
Context {num : Type}.
Context (fmul fsub fdiv : num -> num -> num) (of_Z : Z -> num) (of_Q : Q -> num).

(** astropy: the function [np.cos] applies to the values of a quantity of
    the given unit; [None] when the unit is not an angle. *)
Context (cos_in : string -> option (num -> num)).

Record quantity := Quantity { value : ndarray num; unit_ : string }.

(** [x * u.deg] for a float literal [x]. *)
Definition deg (x : Q) : quantity := Quantity (scalar (of_Q x)) "deg".

(** Objects of regions and gammapy, as far as the cell looks into them. *)
Context {SkyCoord MapAxis Observation PSF IRFs Maker : Type}.

(** Modelled from the spec: the sky region is a data structure of the
    external library; the notebook builds it from a centre and a radius and
    reads the radius back. *)
Record CircleSkyRegion := { center : SkyCoord; radius : quantity }.

(** Modelled from the spec: the spectral dataset is a data structure of the
    external library; kept of it are the buffers the cell can reach.
    [aeff]: the buffer behind [dataset.aeff.data.data]; [background]: the
    one behind [dataset.background.data]; [edisp]: the one of the energy
    dispersion. *)
Record SpectrumDataset := { aeff : loc; background : loc; edisp : loc }.

Context (axis_center : MapAxis -> quantity)      (* [axis.center] *)
        (obs_psf : Observation -> PSF)           (* [obs.psf] *)
        (containment_radius :                    (* [psf.containment_radius] *)
           store num -> PSF -> quantity -> quantity -> num -> exn + quantity).

(** The notebook's global names when cell 6 starts, and the three it adds. *)
Record namespace := {
  v_center : SkyCoord;
  v_region : CircleSkyRegion;
  v_e_reco : MapAxis;
  v_e_true : MapAxis;
  v_empty_dataset : SpectrumDataset;
  v_irfs : IRFs;
  v_pointing : SkyCoord;
  v_obs : Observation;
  v_spectrum_maker : Maker;
  v_dataset : SpectrumDataset;
  v_containment : option num;
  v_on_radii : option quantity;
  v_factor : option (ndarray num)
}.

(** Binding one of the cell's three names. *)
Definition bind_containment (x : num) (n : namespace) : namespace :=
  {| v_center := v_center n; v_region := v_region n; v_e_reco := v_e_reco n;
     v_e_true := v_e_true n; v_empty_dataset := v_empty_dataset n;
     v_irfs := v_irfs n; v_pointing := v_pointing n; v_obs := v_obs n;
     v_spectrum_maker := v_spectrum_maker n; v_dataset := v_dataset n;
     v_containment := Some x; v_on_radii := v_on_radii n;
     v_factor := v_factor n |}.

Definition bind_on_radii (x : quantity) (n : namespace) : namespace :=
  {| v_center := v_center n; v_region := v_region n; v_e_reco := v_e_reco n;
     v_e_true := v_e_true n; v_empty_dataset := v_empty_dataset n;
     v_irfs := v_irfs n; v_pointing := v_pointing n; v_obs := v_obs n;
     v_spectrum_maker := v_spectrum_maker n; v_dataset := v_dataset n;
     v_containment := v_containment n; v_on_radii := Some x;
     v_factor := v_factor n |}.

Definition bind_factor (x : ndarray num) (n : namespace) : namespace :=
  {| v_center := v_center n; v_region := v_region n; v_e_reco := v_e_reco n;
     v_e_true := v_e_true n; v_empty_dataset := v_empty_dataset n;
     v_irfs := v_irfs n; v_pointing := v_pointing n; v_obs := v_obs n;
     v_spectrum_maker := v_spectrum_maker n; v_dataset := v_dataset n;
     v_containment := v_containment n; v_on_radii := v_on_radii n;
     v_factor := Some x |}.

Record state := State { names : namespace; heap : store num }.

(** Statements: a state transformer that may raise; what was mutated
    before the exception stays mutated. *)
Definition M (A : Type) : Type := state -> (exn + A) * state.

Definition ret {A} (a : A) : M A := fun st => (inr a, st).

Definition raise {A} (x : exn) : M A := fun st => (inl x, st).

Definition bind {A B} (m : M A) (f : A -> M B) : M B :=
  fun st =>
    match m st with
    | (inr a, st') => f a st'
    | (inl x, st') => (inl x, st')
    end.

Notation "x <~ m ; k" := (bind m (fun x => k))
  (at level 100, m at next level, right associativity).
Notation "m ;; k" := (bind m (fun _ => k))
  (at level 100, right associativity).

Definition get_names : M namespace := fun st => (inr (names st), st).

Definition get_heap : M (store num) := fun st => (inr (heap st), st).

Definition set_names (f : namespace -> namespace) : M unit :=
  fun st => (inr tt, State (f (names st)) (heap st)).

Definition of_option {A} (x : exn) (o : option A) : M A :=
  match o with
  | Some a => ret a
  | None => raise x
  end.

Definition of_result {A} (r : exn + A) : M A :=
  match r with
  | inr a => ret a
  | inl x => raise x
  end.

(** [buf op= ...]: overwrite the buffer at [l] with [f] of its contents. *)
Definition update_buffer (l : loc) (f : ndarray num -> option (ndarray num))
  : M unit :=
  fun st =>
    match heap st !! l with
    | Some a =>
        match f a with
        | Some a' => (inr tt, State (names st) (<[l := a']> (heap st)))
        | None => (inl ValueError, st)
        end
    | None => (inl (LibraryError "no such buffer"), st)
    end.

(** [np.cos(q)]. *)
Definition np_cos (q : quantity) : M (ndarray num) :=
  match cos_in (unit_ q) with
  | Some c => ret (map_array c (value q))
  | None => raise UnitTypeError
  end.

(** [q[0]] on a quantity. *)
Definition quantity_getitem0 (q : quantity) : M quantity :=
  a <~ of_option IndexError (getitem0 (value q));
  ret (Quantity a (unit_ q)).

Definition containment : Q := 0.68.

Definition cell_containment : M unit :=
  g <~ get_names;
  (* containment = 0.68 *)
  let containment := of_Q containment in
  set_names (bind_containment containment) ;;
  (* dataset.aeff.data.data *= containment *)
  update_buffer (aeff (v_dataset g))
    (fun a => Some (map_array (fun x => fmul x containment) a)) ;;
  (* on_radii = obs.psf.containment_radius(
         energy=e_reco.center, theta=0.5 * u.deg, fraction=containment)[0] *)
  h <~ get_heap;
  radii <~ of_result (containment_radius h (obs_psf (v_obs g))
                        (axis_center (v_e_reco g)) (deg 0.5) containment);
  on_radii <~ quantity_getitem0 radii;
  set_names (bind_on_radii on_radii) ;;
  (* factor = (1 - np.cos(on_radii)) / (1 - np.cos(region.radius)) *)
  cos_on <~ np_cos on_radii;
  let num := map_array (fun x => fsub (of_Z 1) x) cos_on in
  cos_reg <~ np_cos (radius (v_region g));
  let den := map_array (fun x => fsub (of_Z 1) x) cos_reg in
  factor <~ of_option ValueError (broadcast2 fdiv num den);
  set_names (bind_factor factor) ;;
  (* dataset.background.data *= factor.value.reshape((-1, 1, 1)) *)
  update_buffer (background (v_dataset g))
    (fun b => inplace2 fmul b (reshape_m1_1_1 factor)).

(** *** The runtime of cell 6

    The values the operations of cell 6 pass around, and what each
    operation of [Cta.cell_containment] does on them: attribute paths walk
    the dataset down to its buffers, in-place products write the store,
    everything else builds fresh arrays.  Any other operation is outside
    this runtime and raises. *)
Inductive pyvalue :=
| VNone
| VDataset (d : SpectrumDataset)       (* [dataset] *)
| VAeff (d : SpectrumDataset)          (* [dataset.aeff] *)
| VAeffData (d : SpectrumDataset)      (* [dataset.aeff.data] *)
| VBackground (d : SpectrumDataset)    (* [dataset.background] *)
| VBuffer (l : loc)                    (* an array of the store *)
| VObservation (o : Observation)
| VPSF (p : PSF)
| VAxis (a : MapAxis)
| VRegion (r : CircleSkyRegion)
| VUnit (u : string)
| VQuantity (q : quantity)             (* a fresh quantity *)
| VArray (a : ndarray num).            (* a fresh array *)

Definition unsupported : exn := LibraryError "unsupported operation".

Definition get_attr (v : pyvalue) (a : string) : option pyvalue :=
  match v with
  | VDataset d =>
      if String.eqb a "aeff" then Some (VAeff d)
      else if String.eqb a "background" then Some (VBackground d)
      else None
  | VAeff d => if String.eqb a "data" then Some (VAeffData d) else None
  | VAeffData d => if String.eqb a "data" then Some (VBuffer (aeff d)) else None
  | VBackground d =>
      if String.eqb a "data" then Some (VBuffer (background d)) else None
  | VObservation o => if String.eqb a "psf" then Some (VPSF (obs_psf o)) else None
  | VAxis x =>
      if String.eqb a "center" then Some (VQuantity (axis_center x)) else None
  | VRegion r => if String.eqb a "radius" then Some (VQuantity (radius r)) else None
  | VArray x => if String.eqb a "value" then Some (VArray x) else None
  | _ => None
  end.

(** Attribute [a] of [v] is the buffer at [l]. *)
Definition holds (v : pyvalue) (a : string) (l : loc) : bool :=
  match get_attr v a with
  | Some (VBuffer l') => Pos.eqb l' l
  | _ => false
  end.

(** [buf op= ...] on the store. *)
Definition write_buffer (l : loc) (f : ndarray num -> option (ndarray num))
    (h : store num) : Nb.outcome (store num) exn pyvalue :=
  match h !! l with
  | Some a =>
      match f a with
      | Some a' => Nb.Returns (VBuffer l) (<[l := a']> h)
      | None => Nb.Raises ValueError h
      end
  | None => Nb.Raises (LibraryError "no such buffer") h
  end.

Definition python : Nb.runtime pyvalue (store num) exn :=
  fun e h =>
    match e with
    | Nb.GetAttr v a =>
        match get_attr v a with
        | Some v' => Nb.Returns v' h
        | None => Nb.Raises unsupported h
        end
    | Nb.SetAttr v a (Nb.AVal (VBuffer l)) =>
        (* the object is handed back the array it holds *)
        if holds v a l then Nb.Returns VNone h
        else Nb.Raises unsupported h
    | Nb.Load name =>
        if String.eqb name "u.deg" then Nb.Returns (VUnit "deg") h
        else Nb.Raises unsupported h
    | Nb.BinOp Nb.Mult (Nb.AFloat x) (Nb.AVal (VUnit u)) =>
        Nb.Returns (VQuantity (Quantity (scalar (of_Q x)) u)) h
    | Nb.BinOp Nb.Sub (Nb.AInt z) (Nb.AVal (VArray a)) =>
        Nb.Returns (VArray (map_array (fun x => fsub (of_Z z) x) a)) h
    | Nb.BinOp Nb.Div (Nb.AVal (VArray a)) (Nb.AVal (VArray b)) =>
        match broadcast2 fdiv a b with
        | Some c => Nb.Returns (VArray c) h
        | None => Nb.Raises ValueError h
        end
    | Nb.AugOp Nb.Mult (VBuffer l) (Nb.AFloat c) =>
        write_buffer l
          (fun a => Some (map_array (fun x => fmul x (of_Q c)) a)) h
    | Nb.AugOp Nb.Mult (VBuffer l) (Nb.AVal (VArray b)) =>
        write_buffer l (fun a => inplace2 fmul a b) h
    | Nb.Method (VPSF p) m []
        [(k1, Nb.AVal (VQuantity energy)); (k2, Nb.AVal (VQuantity theta));
         (k3, Nb.AFloat fraction)] =>
        if String.eqb m "containment_radius" && String.eqb k1 "energy"
           && String.eqb k2 "theta" && String.eqb k3 "fraction" then
          match containment_radius h p energy theta (of_Q fraction) with
          | inr q => Nb.Returns (VQuantity q) h
          | inl x => Nb.Raises x h
          end
        else Nb.Raises unsupported h
    | Nb.Method (VArray a) m [Nb.ATuple [Nb.AInt (-1); Nb.AInt 1; Nb.AInt 1]] [] =>
        if String.eqb m "reshape" then Nb.Returns (VArray (reshape_m1_1_1 a)) h
        else Nb.Raises unsupported h
    | Nb.GetItem (VQuantity q) (Nb.AInt 0) =>
        match getitem0 (value q) with
        | Some a => Nb.Returns (VQuantity (Quantity a (unit_ q))) h
        | None => Nb.Raises IndexError h
        end
    | Nb.Call f [Nb.AVal (VQuantity q)] [] =>
        if String.eqb f "np.cos" then
          match cos_in (unit_ q) with
          | Some c => Nb.Returns (VArray (map_array c (value q))) h
          | None => Nb.Raises UnitTypeError h
          end
        else Nb.Raises unsupported h
    | _ => Nb.Raises unsupported h
    end.

(** Cell 6 of the notebook on the objects bound to its four free names. *)
Definition cell6 (n : namespace) : Nb.prog pyvalue pyvalue :=
  Cta.cell_containment (VDataset (v_dataset n)) (VObservation (v_obs n))
    (VAxis (v_e_reco n)) (VRegion (v_region n)).

(** How the state-passing cell ends, read as an outcome of [cell6]: the
    notebook's cell hands back [on_radii]. *)
Definition as_outcome (r : (exn + unit) * state)
  : Nb.outcome (store num) exn pyvalue :=
  match r with
  | (inr _, st') =>
      match v_on_radii (names st') with
      | Some q => Nb.Returns (VQuantity q) (heap st')
      | None => Nb.Raises unsupported (heap st')
      end
  | (inl x, st') => Nb.Raises x (heap st')
  end.

(** The names bound before the cell are bound to the same objects in [n']
    as in [n]. *)
Definition same_bindings (n n' : namespace) : Prop :=
  v_center n' = v_center n /\
  v_region n' = v_region n /\
  v_e_reco n' = v_e_reco n /\
  v_e_true n' = v_e_true n /\
  v_empty_dataset n' = v_empty_dataset n /\
  v_irfs n' = v_irfs n /\
  v_pointing n' = v_pointing n /\
  v_obs n' = v_obs n /\
  v_spectrum_maker n' = v_spectrum_maker n /\
  v_dataset n' = v_dataset n.

(** Between [st] and [st'] no earlier name was rebound and no buffer other
    than [la] and [lb] was written. *)
Definition only_wrote (la lb : loc) (st st' : state) : Prop :=
  same_bindings (names st) (names st') /\
  forall l, l <> la -> l <> lb -> heap st' !! l = heap st !! l.

(** However [m] ends, it has written at most the buffers [la] and [lb]. *)
Definition writes_within {A} (la lb : loc) (m : M A) : Prop :=
  forall st o st', m st = (o, st') -> only_wrote la lb st st'.

End Cell.
End CtaData.

(** *** detect, cell 2 (lines 89-118) on array contents *)

Module DetectData.
Import Np.

Section Cell.

Context {num : Type}.
(** The float 1 and Python's truth value of a float. *)
Context (one : num) (truthy : num -> bool).

(** The data of a map: a float cube as read from a file, or a boolean one. *)
Inductive data :=
| Floats (a : ndarray num)
| Bools (a : ndarray bool).

Definition data_shape (d : data) : list nat :=
  match d with
  | Floats a => shape a
  | Bools a => shape a
  end.

(** [np.ones_like(d)] keeps shape and element type. *)
Definition np_ones_like (d : data) : data :=
  match d with
  | Floats a => Floats (ones_like one a)
  | Bools a => Bools (ones_like true a)
  end.

(** [d.astype("bool")]. *)
Definition astype (d : data) : data :=
  match d with
  | Floats a => Bools (astype_bool truthy a)
  | Bools a => Bools a
  end.

(** gammapy objects and the calls the cell makes on them. *)
Context {Map Model TablePSF PSFMap Dataset : Type}.
Context (Map_read : string -> exn + Map)
        (BackgroundModel : Map -> list string -> exn + Model)
        (set_unit : Map -> string -> exn + Map)    (* [m.unit = s] *)
        (map_data : Map -> data)                   (* [m.data] *)
        (Map_copy : Map -> data -> exn + Map)      (* [m.copy(data=d)] *)
        (EnergyDependentTablePSF_read : string -> exn + TablePSF)
        (from_energy_dependent_table_psf : TablePSF -> exn + PSFMap).

(** The keyword arguments of the [MapDataset(...)] call. *)
Record MapDataset_kwargs := {
  counts : Map;
  models : list Model;
  exposure : Map;
  psf : PSFMap;
  mask_safe : Map;
  name : string
}.

Context (MapDataset : MapDataset_kwargs -> exn + Dataset)
        (to_image : Dataset -> exn + Dataset).

Definition bind {A B} (r : exn + A) (f : A -> exn + B) : exn + B :=
  match r with
  | inr a => f a
  | inl x => inl x
  end.

Notation "x <~ m ; k" := (bind m (fun x => k))
  (at level 100, m at next level, right associativity).

(** [counts.copy(data=np.ones_like(counts.data).astype("bool"))] *)
Definition make_mask_safe (counts : Map) : exn + Map :=
  Map_copy counts (astype (np_ones_like (map_data counts))).

(** The cell up to the point where [MapDataset] is called. *)
Definition cell_read_kwargs : exn + MapDataset_kwargs :=
  counts <~ Map_read
    "$GAMMAPY_DATA/fermi-3fhl-gc/fermi-3fhl-gc-counts-cube.fits.gz";
  background <~ Map_read
    "$GAMMAPY_DATA/fermi-3fhl-gc/fermi-3fhl-gc-background-cube.fits.gz";
  background <~ BackgroundModel background ["fermi-3fhl-gc"];
  exposure <~ Map_read
    "$GAMMAPY_DATA/fermi-3fhl-gc/fermi-3fhl-gc-exposure-cube.fits.gz";
  exposure <~ set_unit exposure "cm2s";
  mask_safe <~ make_mask_safe counts;
  psf <~ EnergyDependentTablePSF_read
    "$GAMMAPY_DATA/fermi-3fhl-gc/fermi-3fhl-gc-psf-cube.fits.gz";
  psfmap <~ from_energy_dependent_table_psf psf;
  inr {| counts := counts; models := [background]; exposure := exposure;
         psf := psfmap; mask_safe := mask_safe; name := "fermi-3fhl-gc" |}.

Definition cell_read : exn + Dataset :=
  kwargs <~ cell_read_kwargs;
  dataset <~ MapDataset kwargs;
  to_image dataset.


End Cell.
End DetectData.

(** ** Reading the listings *)

Module Audit.
Import Nb.

(** *** Strings *)

Definition ends_with (suffix s : string) : bool :=
  let n := String.length s in
  let m := String.length suffix in
  (m <=? n)%nat && String.eqb (String.substring (n - m) m s) suffix.

Definition starts_with (prefix s : string) : bool := String.prefix prefix s.

Fixpoint contains (sub s : string) : bool :=
  String.prefix sub s ||
  match s with
  | EmptyString => false
  | String _ s' => contains sub s'
  end.

(** The part of a dotted name before the first dot, and after the last. *)
Fixpoint root (s : string) : string :=
  match s with
  | EmptyString => EmptyString
  | String c s' => if Ascii.eqb c "."%char then EmptyString else String c (root s')
  end.

Fixpoint basename_from (acc s : string) : string :=
  match s with
  | EmptyString => acc
  | String c s' =>
      if Ascii.eqb c "."%char then basename_from s' s' else basename_from acc s'
  end.

Definition basename (s : string) : string := basename_from s s.

Definition mem (s : string) (l : list string) : bool := existsb (String.eqb s) l.

(** *** Kinds of operations *)

(** Arithmetic spelled out in a cell: [l op r] and [target op= r]. *)
Definition is_arith {A} (e : event A) : bool :=
  match e with
  | BinOp _ _ _ | AugOp _ _ _ => true
  | _ => false
  end.

(** The name called, for calls of functions, classes and methods. *)
Definition callee {A} (e : event A) : option string :=
  match e with
  | Call f _ _ => Some f
  | Method _ m _ _ => Some m
  | _ => None
  end.

(** String literals among the arguments of a call. *)
Fixpoint arg_strings {A} (a : arg A) : list string :=
  match a with
  | AStr s => [s]
  | AList l | ATuple l => concat (map arg_strings l)
  | _ => []
  end.

Definition string_args {A} (e : event A) : list string :=
  match e with
  | Call _ a kw | Method _ _ a kw =>
      concat (map arg_strings a) ++ concat (map (fun p => arg_strings p.2) kw)
  | _ => []
  end.

Definition keyword_names {A} (e : event A) : list string :=
  match e with
  | Call _ _ kw | Method _ _ _ kw => map fst kw
  | _ => []
  end.

(** *** Files *)

Definition is_path (s : string) : bool :=
  contains "/" s || ends_with ".fits" s || ends_with ".gz" s
  || ends_with ".ecsv" s || ends_with ".csv" s.

Definition is_fits_path (s : string) : bool :=
  ends_with ".fits" s || ends_with ".fits.gz" s.

(** Calls that read a file: [X.read(path)] and [load_...(path)]. *)
Definition is_reader {A} (e : event A) : bool :=
  match callee e with
  | Some f => String.eqb (basename f) "read" || starts_with "load_" (basename f)
  | None => false
  end.

(** Calls that write a file. *)
Definition writer_names : list string :=
  ["write"; "writeto"; "save"; "savefig"; "savetxt"; "dump"; "to_csv"; "open"].

Definition is_writer {A} (e : event A) : bool :=
  match callee e with
  | Some f => mem (basename f) writer_names
  | None => false
  end.

(** An operation that touches the file system: a reader, a writer, or any
    call handed a path. *)
Definition touches_files {A} (e : event A) : bool :=
  is_reader e || is_writer e || existsb is_path (string_args e).

(** *** Stages *)

(** The two listings. *)
Definition cta_ops : list (event nat) := listing Cta.notebook 0.

Definition detect_ops : list (event nat) :=
  listing (main_line Detect.notebook) 0.

(** For each operation of detect's listing, whether it stands in the body
    of a cell under [%%time]; and the listing's labels with these marks. *)
Definition detect_timed : list bool := timed_ops Detect.notebook 0.

Definition detect_marked : list (event unit * bool) :=
  zip (label <$> detect_ops) detect_timed.

(** Names bound by [from module import ...]. *)
Definition imported_from {A} (module : string) (l : list (event A))
  : list string :=
  concat (omap (fun e =>
                  match e with
                  | ImportFrom m b =>
                      if String.eqb m module then Some b else None
                  | _ => None
                  end) l).

(** The classes of datasets, makers and estimators that the notebooks
    import from gammapy. *)
Definition dataset_classes : list string :=
  imported_from "gammapy.datasets" (cta_ops ++ detect_ops).

Definition maker_classes : list string :=
  imported_from "gammapy.makers" (cta_ops ++ detect_ops).

Definition estimator_classes : list string :=
  imported_from "gammapy.estimators" (cta_ops ++ detect_ops).

(** A call through one of [classes]: [C(...)] or [C.f(...)]. *)
Definition is_call_of {A} (classes : list string) (e : event A) : bool :=
  match e with
  | Call f _ _ => mem (root f) classes
  | _ => false
  end.

(** Creation of an estimator object. *)
Definition is_estimator {A} (e : event A) : bool :=
  is_call_of estimator_classes e.

(** [recv.m(...)] where [recv] is the result of a call of class [cls]. *)
Definition is_method_of (l : list (event nat)) (cls_ok : string -> bool)
    (m : string) (e : event nat) : bool :=
  match e with
  | Method r m' _ _ =>
      String.eqb m' m &&
      match l !! r with
      | Some (Call c _ _) => cls_ok c
      | _ => false
      end
  | _ => false
  end.

(** [recv.a.m(...)] where [recv] is the result of a call of class [cls]. *)
Definition is_method_of_attr (l : list (event nat)) (cls a m : string)
    (e : event nat) : bool :=
  match e with
  | Method r m' _ _ =>
      String.eqb m' m &&
      match l !! r with
      | Some (GetAttr o a') =>
          String.eqb a' a &&
          match l !! o with
          | Some (Call c _ _) => String.eqb c cls
          | _ => false
          end
      | _ => false
      end
  | _ => false
  end.

(** A run of an estimator object. *)
Definition is_estimator_run (l : list (event nat)) (e : event nat) : bool :=
  is_method_of l (fun c => mem (root c) estimator_classes) "run" e.

(** An operation that yields a dataset object: a call through a dataset
    class, or a method of a dataset or of a maker. *)
Definition is_dataset_step (l : list (event nat)) (e : event nat) : bool :=
  match e with
  | Call _ _ _ => is_call_of dataset_classes e
  | Method r _ _ _ =>
      match l !! r with
      | Some e' => is_call_of (dataset_classes ++ maker_classes) e'
      | None => false
      end
  | _ => false
  end.

(** Looking at a result: the value a cell displays, a call into
    [matplotlib.pyplot], or a method of a figure, axes or map that draws. *)
Definition plot_methods : list string :=
  ["plot"; "scatter"; "semilogy"; "loglog"; "set_xlabel"; "set_ylabel";
   "set_ylim"; "tick_params"; "twinx"].

Definition is_inspect {A} (e : event A) : bool :=
  match e with
  | Display _ => true
  | Call f _ _ => String.eqb (root f) "plt"
  | Method _ m _ _ => mem m plot_methods
  | _ => false
  end.

(** Positions of the operations of a listing that satisfy [P]. *)
Definition positions {A} (P : A -> bool) (l : list A) : list nat :=
  fst <$> filter (fun p => P p.2 = true) (imap pair l).

(** The claim "each of the four stages is a single call" on a listing. *)
Definition single_call_stages (l : list (event nat)) : Prop :=
  length (filter (fun e => is_reader e = true) l) = 1 /\
  length (filter (fun e => is_dataset_step l e = true) l) = 1 /\
  1 <= length (filter (fun e => is_estimator e = true) l) <= 2 /\
  length (filter (fun e => is_estimator_run l e = true) l)
  = length (filter (fun e => is_estimator e = true) l).

(** The claim "the cells compute no number themselves" on a listing. *)
Definition no_arithmetic (l : list (event nat)) : Prop :=
  Forall (fun e => is_arith e = false) l.

(** *** Modules *)

Definition imports {A} (l : list (event A)) : list string :=
  omap (fun e =>
          match e with
          | Import m _ | ImportFrom m _ => Some m
          | _ => None
          end) l.

Definition imported_names {A} (l : list (event A)) : list string :=
  concat (omap (fun e =>
                  match e with
                  | Import _ b => Some [b]
                  | ImportFrom _ b => Some b
                  | _ => None
                  end) l).

(** Python modules that start threads, processes or tasks. *)
Definition concurrency_modules : list string :=
  ["threading"; "_thread"; "multiprocessing"; "concurrent"; "asyncio";
   "subprocess"; "queue"; "sched"; "signal"; "joblib"; "dask"; "ray"].

(** Names callable without an import. *)
Definition builtins : list string := ["len"].

(** Every function, class or module attribute a listing names is reached
    through a name its imports bind, or is a builtin. *)
Definition names_bound (l : list (event nat)) : bool :=
  forallb (fun e =>
             match e with
             | Call f _ _ | Load f =>
                 mem (root f) (imported_names l) || mem f builtins
             | _ => true
             end) l.

(** The names an operation binds by importing. *)
Definition binds {A} (e : event A) : list string :=
  match e with
  | Import _ b => [b]
  | ImportFrom _ b => b
  | _ => []
  end.

(** The global name an operation looks up: the function, class or module
    attribute it calls or loads. *)
Definition name_used {A} (e : event A) : option string :=
  match e with
  | Call f _ _ | Load f => Some f
  | _ => None
  end.

(** Every name a listing looks up is a builtin or starts with a name that
    an import earlier in the listing binds. *)
Definition imported_first (l : list (event nat)) : bool :=
  forallb (fun p =>
             match name_used p.2 with
             | Some f =>
                 mem f builtins
                 || existsb (fun e0 => mem (root f) (binds e0)) (take p.1 l)
             | None => true
             end) (imap pair l).

End Audit.

(** ** Small runtimes and libraries to run the models on *)

Module Example.
Import Nb.

(** A runtime whose values carry no information and whose exceptions are
    class names.  Its world is the number of operations performed so far
    and the list of files written so far.  Every operation returns, except
    calls of [missing], which raise. *)
Definition world : Type := nat * list string.

Definition start : world := (0, []).

Definition tick (e : event unit) (w : world) : world :=
  (S w.1, if Audit.is_writer e then w.2 ++ Audit.string_args e else w.2).

Definition failing (missing : string) : runtime unit world string :=
  fun e w =>
    match Audit.callee e with
    | Some f =>
        if String.eqb f missing then Raises "FileNotFoundError" w
        else Returns tt (tick e w)
    | None => Returns tt (tick e w)
    end.

(** Calls of [broken] raise [x] and leave the world as it was; every
    other operation returns. *)
Definition raising (broken x : string) : runtime unit world string :=
  fun e w =>
    match Audit.callee e with
    | Some f =>
        if String.eqb f broken then Raises x w
        else Returns tt (tick e w)
    | None => Returns tt (tick e w)
    end.

(** Nothing is missing. *)
Definition fine : runtime unit world string :=
  fun e w => Returns tt (tick e w).

(** A runtime that tells objects apart: its world is the number of
    operations performed so far, and every operation returns that number
    as a fresh object. *)
Definition counting : runtime nat nat string :=
  fun _ n => Returns n (S n).

(** [counting], except that calls of [broken] raise; the exception counts
    as an operation performed. *)
Definition counting_but (broken : string) : runtime nat nat string :=
  fun e n =>
    match Audit.callee e with
    | Some f =>
        if String.eqb f broken then Raises "ValueError" (S n)
        else Returns n (S n)
    | None => Returns n (S n)
    end.

(** Floats as rationals; the cosine of an angle in degrees, to second
    order. *)
Definition cos_deg (x : Q) : Q := (1 - x * x * (3 # 19698))%Q.

Definition cos_in (u : string) : option (Q -> Q) :=
  if String.eqb u "deg" then Some cos_deg else None.

Definition Q_of_Z (z : Z) : Q := inject_Z z.

(** An energy axis is its list of bin centres in TeV; the other objects
    carry nothing. *)
Definition axis_center (centres : list Q) : @CtaData.quantity Q :=
  CtaData.Quantity (Np.NdArray [length centres] centres) "TeV".

(** A PSF whose 68% radius is 0.2 deg below 1 TeV and 0.1 deg above, at
    every offset asked for. *)
Definition containment_radius (_ : CtaData.store Q) (_ : unit)
    (energy theta : @CtaData.quantity Q) (_ : Q)
  : Np.exn + @CtaData.quantity Q :=
  let row :=
    (fun e => if Qle_bool e 1 then 0.2%Q else 0.1%Q)
      <$> Np.flat (CtaData.value energy) in
  inr (CtaData.Quantity
         (Np.NdArray [length (Np.flat (CtaData.value theta)); length row]
            (concat (replicate (length (Np.flat (CtaData.value theta))) row)))
         "deg").

Definition a_dataset : CtaData.SpectrumDataset :=
  {| CtaData.aeff := 1%positive; CtaData.background := 2%positive;
     CtaData.edisp := 3%positive |}.

Definition an_empty_dataset : CtaData.SpectrumDataset :=
  {| CtaData.aeff := 4%positive; CtaData.background := 5%positive;
     CtaData.edisp := 6%positive |}.

(** Two reconstructed-energy bins, three true-energy bins. *)
Definition a_namespace
  : @CtaData.namespace Q unit (list Q) unit unit unit :=
  {| CtaData.v_center := tt;
     CtaData.v_region :=
       {| CtaData.center := tt; CtaData.radius := CtaData.deg id 0.1 |};
     CtaData.v_e_reco := [0.5; 5]%Q;
     CtaData.v_e_true := [0.1; 1; 10]%Q;
     CtaData.v_empty_dataset := an_empty_dataset;
     CtaData.v_irfs := tt;
     CtaData.v_pointing := tt;
     CtaData.v_obs := tt;
     CtaData.v_spectrum_maker := tt;
     CtaData.v_dataset := a_dataset;
     CtaData.v_containment := None;
     CtaData.v_on_radii := None;
     CtaData.v_factor := None |}.

Definition a_store : CtaData.store Q :=
  {[ 1%positive := Np.NdArray [3] [100; 200; 300]%Q;
     2%positive := Np.NdArray [2; 1; 1] [10; 20]%Q;
     3%positive := Np.NdArray [2; 3] [1; 0; 0; 0; 1; 0]%Q ]}.

Definition a_state : CtaData.state := CtaData.State a_namespace a_store.

(** The same objects with a background cube of three reconstructed-energy
    bins, one more than the axis [e_reco] has. *)
Definition a_longer_store : CtaData.store Q :=
  {[ 1%positive := Np.NdArray [3] [100; 200; 300]%Q;
     2%positive := Np.NdArray [3; 1; 1] [10; 20; 30]%Q;
     3%positive := Np.NdArray [2; 3] [1; 0; 0; 0; 1; 0]%Q ]}.

Definition a_longer_state : CtaData.state :=
  CtaData.State a_namespace a_longer_store.

(** The same objects with an axis [e_reco] of a single bin. *)
Definition a_coarse_namespace
  : @CtaData.namespace Q unit (list Q) unit unit unit :=
  {| CtaData.v_center := tt;
     CtaData.v_region :=
       {| CtaData.center := tt; CtaData.radius := CtaData.deg id 0.1 |};
     CtaData.v_e_reco := [0.5]%Q;
     CtaData.v_e_true := [0.1; 1; 10]%Q;
     CtaData.v_empty_dataset := an_empty_dataset;
     CtaData.v_irfs := tt;
     CtaData.v_pointing := tt;
     CtaData.v_obs := tt;
     CtaData.v_spectrum_maker := tt;
     CtaData.v_dataset := a_dataset;
     CtaData.v_containment := None;
     CtaData.v_on_radii := None;
     CtaData.v_factor := None |}.

Definition a_coarse_state : CtaData.state :=
  CtaData.State a_coarse_namespace a_store.

Definition run_cell
  : CtaData.M (num := Q) (SkyCoord := unit) (MapAxis := list Q)
      (Observation := unit) (IRFs := unit) (Maker := unit) unit :=
  CtaData.cell_containment Qmult Qminus Qdiv Q_of_Z id cos_in
    axis_center (fun _ : unit => tt) containment_radius.

Definition python
  : Nb.runtime (CtaData.pyvalue (num := Q) (SkyCoord := unit)
                  (MapAxis := list Q) (Observation := unit) (PSF := unit))
      (CtaData.store Q) Np.exn :=
  CtaData.python Qmult Qminus Qdiv Q_of_Z id cos_in
    axis_center (fun _ : unit => tt) containment_radius.

(** A map is its data; a counts cube of 2 x 2 x 1 pixels. *)
Definition a_map : @DetectData.data Q :=
  DetectData.Floats (Np.NdArray [2; 2; 1] [0; 3; 1; 0]%Q).

Definition Map_read (path : string) : Np.exn + @DetectData.data Q :=
  inr a_map.

Definition Map_copy (m d : @DetectData.data Q) : Np.exn + @DetectData.data Q :=
  if decide (DetectData.data_shape d = DetectData.data_shape m)
  then inr d else inl Np.ValueError.

Definition truthy (x : Q) : bool := negb (Qeq_bool x 0).



End Example.

(** * Facts *)

(** ** Programs in general *)

Section MapFacts.
Import Nb.

Lemma amap_compose {A B C} (f : A -> B) (g : B -> C) :
  forall a : arg A, amap g (amap f a) = amap (fun x => g (f x)) a.
Proof.
  fix IH 1. intros [s|z|q|b|v|l|l]; cbn; try reflexivity.
  - f_equal. induction l as [|a l IHl]; cbn; [reflexivity|].
    rewrite IH, IHl. reflexivity.
  - f_equal. induction l as [|a l IHl]; cbn; [reflexivity|].
    rewrite IH, IHl. reflexivity.
Qed.

Lemma emap_compose {A B C} (f : A -> B) (g : B -> C) (e : event A) :
  emap g (emap f e) = emap (fun x => g (f x)) e.
Proof.
  assert (Hargs : forall l : list (arg A),
             map (amap g) (map (amap f) l) = map (amap (fun x => g (f x))) l).
  { induction l as [|a l IHl]; cbn; [reflexivity|].
    rewrite amap_compose, IHl. reflexivity. }
  assert (Hkw : forall l : list (string * arg A),
             map (kwmap g) (map (kwmap f) l) = map (kwmap (fun x => g (f x))) l).
  { induction l as [|[n a] l IHl]; cbn; [reflexivity|].
    rewrite IHl. unfold kwmap at 1 2 3. cbn. rewrite amap_compose. reflexivity. }
  destruct e; cbn; rewrite ?Hargs, ?Hkw, ?amap_compose; try reflexivity.
  f_equal. induction parts as [|[s|v] l IHl]; cbn; [reflexivity| |];
    rewrite IHl; reflexivity.
Qed.

(** Operations that agree once their values are looked up carry the same
    label. *)
Lemma label_of_lookup {val} (env : list val) (e : event val) (e' : event nat) :
  emap Some e = emap (fun i => env !! i) e' -> label e = label e'.
Proof.
  intros H. unfold label.
  transitivity (emap (fun _ : option val => tt) (emap Some e)).
  - rewrite emap_compose. reflexivity.
  - rewrite H, emap_compose. reflexivity.
Qed.

End MapFacts.

Section RunFacts.
Import Nb.
Context {val world exn : Type}.
Implicit Types (h : runtime val world exn) (w : world).

Lemma run_raises_iff {R} h (p : prog val R) w x w' :
  run h p w = Raises x w' <->
  exists pre e we, trace h p w = pre ++ [(e, we)] /\ h e we = Raises x w'.
Proof.
  revert w. induction p as [r|e k IH]; intros w; cbn.
  - split; [discriminate|]. intros (pre & e & we & H & _).
    destruct pre; discriminate.
  - destruct (h e w) as [v w1|x1 w1|] eqn:He.
    + rewrite IH. split.
      * intros (pre & e' & we & Ht & Hr).
        exists ((e, w) :: pre), e', we. rewrite Ht. auto.
      * intros (pre & e' & we & Ht & Hr).
        destruct pre as [|ev pre]; cbn in Ht.
        -- injection Ht as -> -> _. congruence.
        -- injection Ht as _ Ht. eauto.
    + split.
      * intros [= -> ->]. exists [], e, w. auto.
      * intros (pre & e' & we & Ht & Hr).
        destruct pre as [|ev [|? ?]]; try discriminate.
        injection Ht as -> ->. congruence.
    + split; [discriminate|].
      intros (pre & e' & we & Ht & Hr).
      destruct pre as [|ev [|? ?]]; try discriminate.
      injection Ht as -> ->. congruence.
Qed.

Lemma run_hangs_iff {R} h (p : prog val R) w :
  run h p w = Hangs <->
  exists pre e we, trace h p w = pre ++ [(e, we)] /\ h e we = Hangs.
Proof.
  revert w. induction p as [r|e k IH]; intros w; cbn.
  - split; [discriminate|]. intros (pre & e & we & H & _).
    destruct pre; discriminate.
  - destruct (h e w) as [v w1|x1 w1|] eqn:He.
    + rewrite IH. split.
      * intros (pre & e' & we & Ht & Hr).
        exists ((e, w) :: pre), e', we. rewrite Ht. auto.
      * intros (pre & e' & we & Ht & Hr).
        destruct pre as [|ev pre]; cbn in Ht.
        -- injection Ht as -> -> _. congruence.
        -- injection Ht as _ Ht. eauto.
    + split; [discriminate|].
      intros (pre & e' & we & Ht & Hr).
      destruct pre as [|ev [|? ?]]; try discriminate.
      injection Ht as -> ->. congruence.
    + split; [|reflexivity].
      intros _. exists [], e, w. auto.
Qed.

(** Every operation but the last one issued has returned. *)
Lemma trace_returned {R} h (p : prog val R) w pre ev :
  trace h p w = pre ++ [ev] -> Forall (returned h) pre.
Proof.
  revert w pre. induction p as [r|e k IH]; intros w pre; cbn.
  - destruct pre; discriminate.
  - destruct pre as [|ev' pre]; [constructor|].
    cbn. intros [= <- Ht]. destruct (h e w) as [v w1|x1 w1|] eqn:He.
    + constructor; [exists v, w1; exact He | eauto].
    + destruct pre; discriminate.
    + destruct pre; discriminate.
Qed.

Lemma trace_chained {R} h (p : prog val R) w : chained h w (trace h p w).
Proof.
  revert w. induction p as [r|e k IH]; intros w; cbn; [exact I|].
  split; [reflexivity|]. destruct (h e w); auto.
Qed.

(** A program that follows a listing issues a prefix of it, label by
    label, and the whole of it when it returns. *)
Lemma flows_trace_labels {R} env (p : prog val R) ls h w :
  flows env p ls ->
  label <$> (fst <$> trace h p w)
  = take (length (trace h p w)) (label <$> ls).
Proof.
  intros Hf. revert w. induction Hf as [env r|env e e' k ls He Hk IH];
    intros w; cbn; [reflexivity|].
  rewrite (label_of_lookup _ _ _ He). f_equal.
  destruct (h e w) as [v w1|x1 w1|]; [apply IH| |]; cbn; now rewrite take_0.
Qed.

Lemma flows_trace_length {R} env (p : prog val R) ls h w :
  flows env p ls -> length (trace h p w) <= length ls.
Proof.
  intros Hf. revert w. induction Hf as [env r|env e e' k ls He Hk IH];
    intros w; cbn; [lia|].
  destruct (h e w) as [v w1|x1 w1|]; cbn; [|lia..].
  specialize (IH v w1). lia.
Qed.

Lemma flows_returns_length {R} env (p : prog val R) ls h w r w' :
  flows env p ls -> run h p w = Returns r w' ->
  length (trace h p w) = length ls.
Proof.
  intros Hf. revert w. induction Hf as [env a|env e e' k ls He Hk IH];
    intros w; cbn; [reflexivity|].
  destruct (h e w) as [v w1|x1 w1|]; [|discriminate..].
  intros Hr. f_equal. eauto.
Qed.

(** Each operation issued carries the label of an entry of the listing. *)
Lemma flows_trace_elem {R} env (p : prog val R) ls h w e we :
  flows env p ls -> (e, we) ∈ trace h p w ->
  exists e', e' ∈ ls /\ label e = label e'.
Proof.
  intros Hf. revert w. induction Hf as [env r|env e0 e' k ls He Hk IH];
    intros w; cbn.
  - intros H. inversion H.
  - intros H. apply elem_of_cons in H as [[= -> ->]|H].
    + exists e'. split; [left|]. eapply label_of_lookup, He.
    + destruct (h e0 w) as [v w1|x1 w1|]; [|inversion H..].
      destruct (IH v w1 H) as (e'' & Hin & Hl).
      exists e''. split; [right; exact Hin|exact Hl].
Qed.

(** A program stops only where an operation stops: if none of the
    operations it issues hangs, it returns or raises. *)
Lemma run_total {R} h (p : prog val R) w :
  (forall e we, (e, we) ∈ trace h p w -> h e we <> Hangs) ->
  run h p w <> Hangs.
Proof.
  intros Hall Hrun. apply run_hangs_iff in Hrun as (pre & e & we & Ht & Hh).
  apply (Hall e we); [|exact Hh].
  rewrite Ht. apply elem_of_app. right. left.
Qed.

(** No operation raises: the program returns. *)
Lemma run_returns {R} h (p : prog val R) w :
  Forall (returned h) (trace h p w) ->
  exists r w', run h p w = Returns r w'.
Proof.
  revert w. induction p as [r|e k IH]; intros w; cbn; [eauto|].
  intros H. apply Forall_cons in H as [(v & w1 & He) H]. cbn in He.
  rewrite He in *. eauto.
Qed.

(** Runs of a program from worlds with the same [files], against a runtime
    that is a function of arguments and [files], agree. *)
Lemma exec_agree {F R} (files : world -> F) (L : runtime_rel val world exn)
    (p : prog val R) w1 w2 o1 o2 :
  deterministic_in files L -> files w1 = files w2 ->
  exec L p w1 o1 -> exec L p w2 o2 -> agree files o1 o2.
Proof.
  intros HL Hw H1. revert w2 o2 Hw.
  induction H1 as [r w|e k w v w1 o HLe H1 IH|e k w x w1 HLe|e k w HLe];
    intros w2 o2 Hw H2; inversion H2; subst;
    try match goal with
      | Ha : L ?e _ _, Hb : L ?e _ _ |- _ =>
          pose proof (HL _ _ _ _ _ Hw Ha Hb) as Hag; cbn in Hag
      end;
    try done.
  - destruct Hag as [-> Hw']. eauto.
Qed.

Lemma exec_run {R} h (p : prog val R) w : exec (graph h) p w (run h p w).
Proof.
  revert w. induction p as [r|e k IH]; intros w; cbn; [constructor|].
  destruct (h e w) as [v w1|x1 w1|] eqn:He.
  - eapply exec_returns; [exact He|apply IH].
  - eapply exec_raises. exact He.
  - eapply exec_hangs. exact He.
Qed.

End RunFacts.


Section ProgramFacts.
Import Nb.
Context {val world exn : Type}.
Implicit Types (h : runtime val world exn) (w : world).

(** The listing of each notebook is what it does under every runtime. *)
(** Unfold one operation of a program and step over it. *)
Ltac flows_step :=
  first [ apply flows_ret
        | eapply flows_vis; [ reflexivity | intros ?; cbn ] ].

Lemma cta_flows : flows (@nil val) Cta.notebook (listing Cta.notebook 0).
Proof.
  vm_compute listing. cbv -[app lookup]. cbn.
  repeat flows_step.
Qed.

Lemma detect_flows :
  flows (@nil val) (main_line Detect.notebook)
    (listing (main_line Detect.notebook) 0).
Proof.
  vm_compute listing. cbv -[app lookup]. cbn.
  repeat flows_step.
Qed.

End ProgramFacts.

(** ** numpy arrays *)

Section NpFacts.
Import Np.

Lemma mapM_seq {C} (f : nat -> option C) (l : list C) :
  (forall i, i < length l -> f i = l !! i) ->
  mapM f (seq 0 (length l)) = Some l.
Proof.
  intros H. apply mapM_Some_2, Forall2_same_length_lookup_2.
  - by rewrite length_seq.
  - intros i x y Hx Hy. apply lookup_seq in Hx as [-> Hi].
    rewrite H by done. done.
Qed.

Lemma pin_mod j d : pin (j `mod` d) d = j `mod` d.
Proof.
  unfold pin. case_decide; [subst; by rewrite Nat.mod_1_r|done].
Qed.

Lemma zip_pin_unravel sh i : zip_with pin (unravel sh i) sh = unravel sh i.
Proof.
  induction sh as [|d sh IH]; cbn; [done|]. by rewrite pin_mod, IH.
Qed.

Lemma ravel_unravel sh i :
  size sh <> 0 -> ravel sh (unravel sh i) = i `mod` size sh.
Proof.
  induction sh as [|d sh IH]; intros H.
  - change (0 = i `mod` 1). by rewrite Nat.mod_1_r.
  - change (d * size sh <> 0) in H.
    change ((i / size sh) `mod` d * size sh + ravel sh (unravel sh i)
            = i `mod` (d * size sh)).
    apply Nat.neq_mul_0 in H as [Hd Hs].
    rewrite IH by done.
    rewrite (Nat.mul_comm d), Nat.Div0.mod_mul_r. lia.
Qed.

(** An operand that already has the result's shape is read in place. *)
Lemma bcast_index_self sh i : i < size sh -> bcast_index sh sh i = i.
Proof.
  intros Hi. unfold bcast_index.
  rewrite Nat.sub_diag, drop_0, zip_pin_unravel, ravel_unravel by lia.
  by apply Nat.mod_small.
Qed.

(** A 0-dimensional operand is read at its only element. *)
Lemma bcast_index_scalar sh i : bcast_index sh [] i = 0.
Proof. unfold bcast_index. by rewrite zip_with_nil_r. Qed.

(** A column [(n, 1, 1)] against a cube [(n, p, q)]: row [k] of the cube
    reads element [k] of the column. *)
Lemma bcast_index_column n p q k j :
  k < n -> j < p * q ->
  bcast_index [n; p; q] [n; 1; 1] (k * (p * q) + j) = k.
Proof.
  intros Hk Hj. unfold bcast_index. cbn.
  rewrite !Nat.mul_1_r, Nat.add_0_r.
  rewrite Nat.div_add_l by lia.
  rewrite (Nat.div_small j) by lia. rewrite Nat.add_0_r.
  rewrite Nat.mod_small by lia.
  unfold pin. case_decide; lia.
Qed.

Lemma broadcast2_Some {A B C} (f : A -> B -> C) a b sh l :
  broadcast_shapes (shape a) (shape b) = Some sh ->
  length l = size sh ->
  (forall i, i < size sh ->
     exists x y, flat a !! bcast_index sh (shape a) i = Some x /\
                 flat b !! bcast_index sh (shape b) i = Some y /\
                 l !! i = Some (f x y)) ->
  broadcast2 f a b = Some (NdArray sh l).
Proof.
  intros Hsh Hlen H. unfold broadcast2. rewrite Hsh. cbn.
  rewrite <- Hlen, mapM_seq; [done|].
  intros i Hi. destruct (H i) as (x & y & -> & -> & ->); [lia|done].
Qed.

(** [a / d] for a 1-dimensional [a] and a 0-dimensional [d]. *)
Lemma broadcast2_vector_scalar {A B C} (f : A -> B -> C) n l d :
  length l = n ->
  broadcast2 f (NdArray [n] l) (scalar d)
  = Some (NdArray [n] ((fun x => f x d) <$> l)).
Proof.
  intros Hl. apply broadcast2_Some.
  - done.
  - cbn. rewrite length_fmap. lia.
  - unfold scalar. cbn [shape flat size foldr]. intros i Hi.
    rewrite bcast_index_self by (cbn; lia).
    rewrite bcast_index_scalar.
    destruct (lookup_lt_is_Some_2 l i) as [x Hx]; [lia|].
    exists x, d. rewrite list_lookup_fmap, Hx. done.
Qed.

Lemma broadcast_shapes_column n p q :
  broadcast_shapes [n; p; q] [n; 1; 1] = Some [n; p; q].
Proof.
  unfold broadcast_shapes. cbn. unfold broadcast_dim.
  repeat case_decide; try done.
Qed.

(** [b *= col] for a cube [b] of shape [(n, p, q)] and a column [col] of
    shape [(n, 1, 1)]: the cube keeps its shape and row [k] is multiplied
    by element [k] of the column. *)
Lemma inplace2_column {A B} (f : A -> B -> A) n p q lb lc :
  length lb = n * (p * q) -> length lc = n ->
  exists l',
    inplace2 f (NdArray [n; p; q] lb) (NdArray [n; 1; 1] lc)
    = Some (NdArray [n; p; q] l') /\
    forall k j x y, k < n -> j < p * q ->
      lb !! (k * (p * q) + j) = Some x -> lc !! k = Some y ->
      l' !! (k * (p * q) + j) = Some (f x y).
Proof.
  intros Hlb Hlc.
  set (g := fun (i : nat) (x : A) =>
              match lc !! (i / (p * q)) with Some y => f x y | None => x end).
  assert (Hdecomp : forall i, i < n * (p * q) ->
            i = (i / (p * q)) * (p * q) + i `mod` (p * q) /\
            i / (p * q) < n /\ i `mod` (p * q) < p * q).
  { intros i Hi. assert (p * q <> 0) by lia.
    repeat split.
    - rewrite (Nat.div_mod_eq i (p * q)) at 1. lia.
    - apply Nat.Div0.div_lt_upper_bound. lia.
    - by apply Nat.mod_upper_bound. }
  exists (imap g lb). split.
  - unfold inplace2.
    rewrite (broadcast2_Some f _ _ [n; p; q] (imap g lb)).
    + cbn. by rewrite decide_True.
    + apply broadcast_shapes_column.
    + rewrite length_imap. cbn. lia.
    + cbn [shape flat size foldr]. intros i Hi. rewrite Nat.mul_1_r in Hi.
      rewrite bcast_index_self by (cbn; lia).
      destruct (Hdecomp i) as (Hi1 & Hi2 & Hi3); [lia|].
      rewrite (f_equal (bcast_index [n; p; q] [n; 1; 1]) Hi1).
      rewrite bcast_index_column by done.
      destruct (lookup_lt_is_Some_2 lb i) as [x Hx]; [lia|].
      destruct (lookup_lt_is_Some_2 lc (i / (p * q))) as [y Hy]; [lia|].
      exists x, y. rewrite list_lookup_imap, Hx. cbn. unfold g. by rewrite Hy.
  - intros k j x y Hk Hj Hx Hy.
    rewrite list_lookup_imap, Hx. cbn. unfold g.
    rewrite Nat.div_add_l by lia. rewrite (Nat.div_small j) by lia.
    by rewrite Nat.add_0_r, Hy.
Qed.

End NpFacts.

(** ** cta_sensitivity, cell 6 *)

Section CtaFacts.
Import Np CtaData.

Context {num : Type}.
Context (fmul fsub fdiv : num -> num -> num) (of_Z : Z -> num) (of_Q : Q -> num).
Context (cos_in : string -> option (num -> num)).
Context {SkyCoord MapAxis Observation PSF IRFs Maker : Type}.
Context (axis_center : MapAxis -> @quantity num)
        (obs_psf : Observation -> PSF)
        (containment_radius :
           store num -> PSF -> @quantity num -> @quantity num -> num ->
           exn + @quantity num).

Local Abbreviation state :=
  (@CtaData.state num SkyCoord MapAxis Observation IRFs Maker).
Local Abbreviation M :=
  (@CtaData.M num SkyCoord MapAxis Observation IRFs Maker).
Local Abbreviation namespace :=
  (@CtaData.namespace num SkyCoord MapAxis Observation IRFs Maker).
Local Abbreviation py :=
  (python fmul fsub fdiv of_Z of_Q cos_in axis_center obs_psf
     containment_radius).
Local Abbreviation cell :=
  (@cell_containment num fmul fsub fdiv of_Z of_Q cos_in
     SkyCoord MapAxis Observation PSF IRFs Maker
     axis_center obs_psf containment_radius).

Lemma bind_inr {A B} (m : M A) (f : A -> M B) (st st' : state) a :
  m st = (inr a, st') -> CtaData.bind m f st = f a st'.
Proof. unfold CtaData.bind. by intros ->. Qed.

Lemma update_buffer_inr l f (st : state) a a' :
  heap st !! l = Some a -> f a = Some a' ->
  update_buffer l f st = (inr tt, State (names st) (<[l := a']> (heap st))).
Proof. unfold update_buffer. by intros -> ->. Qed.

Lemma np_cos_inr (q : @quantity num) c (st : state) :
  cos_in (unit_ q) = Some c ->
  np_cos cos_in q st = (inr (map_array c (value q)), st).
Proof. unfold np_cos. by intros ->. Qed.

(** The state-passing cell is the notebook's cell 6 run on [python]: same
    exception or same [on_radii], same store. *)
Lemma cell6_refines (st : state) :
  Nb.run py (cell6 (names st)) (heap st) = as_outcome (cell st).
Proof.
  unfold cell6, Cta.cell_containment, cell_containment, as_outcome.
  unfold CtaData.bind, get_names, set_names, get_heap, update_buffer,
    quantity_getitem0, np_cos, of_result, of_option, CtaData.bind,
    CtaData.ret, CtaData.raise, deg, Cta.containment, CtaData.containment.
  cbn -[broadcast2 inplace2 getitem0 lookup insert map_array].
  unfold write_buffer.
  destruct (heap st !! aeff (v_dataset (names st))) as [A|]; [|reflexivity].
  cbn -[broadcast2 inplace2 getitem0 lookup insert map_array].
  rewrite Pos.eqb_refl.
  destruct (containment_radius _ _ _ _ _) as [x|radii]; [reflexivity|].
  cbn -[broadcast2 inplace2 getitem0 lookup insert map_array].
  destruct (getitem0 (value radii)) as [r|]; [|reflexivity].
  cbn -[broadcast2 inplace2 getitem0 lookup insert map_array].
  destruct (cos_in (unit_ radii)) as [c|]; [|reflexivity].
  cbn -[broadcast2 inplace2 getitem0 lookup insert map_array].
  destruct (cos_in (unit_ (radius (v_region (names st))))) as [c0|];
    [|reflexivity].
  cbn -[broadcast2 inplace2 getitem0 lookup insert map_array].
  destruct (broadcast2 _ _ _) as [factor|]; [|reflexivity].
  cbn -[broadcast2 inplace2 getitem0 lookup insert map_array].
  unfold write_buffer.
  destruct (_ !! background (v_dataset (names st))) as [B|]; [|reflexivity].
  destruct (inplace2 _ _ _) as [B'|]; [|reflexivity].
  cbn -[lookup insert]. rewrite Pos.eqb_refl. reflexivity.
Qed.

(** C3.  After cell 6 of cta_sensitivity has run, the buffer of the
    dataset's effective area holds 0.68 times each of its former values,
    and in the background cube every element of reconstructed-energy bin
    [k] holds its former value times
    [(1 - cos r_k) / (1 - cos (0.1 deg))], where [r_k] is element [k] of
    row 0 of what [obs.psf.containment_radius] returned for the bin centres
    of [e_reco] at offset 0.5 deg and fraction 0.68.  The cell does run to
    its end when the library call returns one radius per bin in an angular
    unit.  Stated of the state-passing cell and of the notebook's cell 6
    run on [python], which leave the same store. *)
Theorem containment_correction_scales (st : state) A B n p q radii r c c0 :
  let g := names st in
  let d := v_dataset g in
  let scaled := map_array (fun x => fmul x (of_Q 0.68)) A in
  heap st !! aeff d = Some A ->
  heap st !! background d = Some B ->
  aeff d <> background d ->
  shape B = [n; p; q] ->
  well_formed B ->
  radius (v_region g) = deg of_Q 0.1 ->
  containment_radius (<[aeff d := scaled]> (heap st)) (obs_psf (v_obs g))
    (axis_center (v_e_reco g)) (deg of_Q 0.5) (of_Q 0.68) = inr radii ->
  getitem0 (value radii) = Some r ->
  shape r = [n] ->
  well_formed r ->
  cos_in (unit_ radii) = Some c ->
  cos_in "deg" = Some c0 ->
  exists st' B',
    cell st = (inr tt, st') /\
    Nb.run py (cell6 g) (heap st)
    = Nb.Returns (VQuantity (Quantity r (unit_ radii))) (heap st') /\
    heap st' !! aeff d = Some scaled /\
    heap st' !! background d = Some B' /\
    shape B' = shape B /\
    forall k j x rk,
      k < n -> j < p * q ->
      flat B !! (k * (p * q) + j) = Some x ->
      flat r !! k = Some rk ->
      flat B' !! (k * (p * q) + j)
      = Some (fmul x (fdiv (fsub (of_Z 1) (c rk))
                           (fsub (of_Z 1) (c0 (of_Q 0.1))))).
Proof.
  intros g d scaled HA HB Hne HshB HwfB Hrad Hcr Hget Hshr Hwfr Hc Hc0.
  destruct B as [shB lB]. destruct r as [shr lr].
  unfold well_formed in *. cbn [shape flat] in *. subst shB shr.
  cbn [size foldr] in *.
  destruct (inplace2_column fmul n p q lB
              ((fun x => fdiv x (fsub (of_Z 1) (c0 (of_Q 0.1))))
                 <$> ((fun x => fsub (of_Z 1) x) <$> (c <$> lr))))
    as (l' & Hin & Hl').
  { lia. }
  { rewrite !length_fmap. lia. }
  eassert (Hrun : cell st = (inr tt, _)).
  { unfold cell_containment.
    erewrite bind_inr by reflexivity.
    erewrite bind_inr by reflexivity.
    erewrite bind_inr by (eapply update_buffer_inr; [exact HA|reflexivity]).
    erewrite bind_inr by reflexivity.
    cbn [heap names].
    erewrite bind_inr
      by (unfold CtaData.containment; fold g d scaled; rewrite Hcr; reflexivity).
    erewrite bind_inr
      by (unfold quantity_getitem0; erewrite bind_inr
            by (rewrite Hget; reflexivity); reflexivity).
    erewrite bind_inr by reflexivity.
    erewrite bind_inr by (apply np_cos_inr; exact Hc).
    fold g. rewrite Hrad.
    erewrite bind_inr by (apply np_cos_inr; exact Hc0).
    unfold deg, map_array. cbn [value shape flat scalar fmap list_fmap].
    change (NdArray [] [fsub (of_Z 1) (c0 (of_Q 0.1))])
      with (scalar (fsub (of_Z 1) (c0 (of_Q 0.1)))).
    rewrite broadcast2_vector_scalar by (rewrite !length_fmap; lia).
    erewrite bind_inr by reflexivity.
    erewrite bind_inr by reflexivity.
    unfold reshape_m1_1_1. cbn [flat names heap].
    rewrite !length_fmap.
    replace (length lr) with n by lia.
    erewrite update_buffer_inr; [reflexivity| |exact Hin].
    simpl. rewrite lookup_insert_ne by done. exact HB. }
  eexists _, (NdArray [n; p; q] l').
  split; [exact Hrun|]. split; [|split; [|split; [|split]]].
  - unfold g. rewrite cell6_refines, Hrun. reflexivity.
  - simpl. rewrite lookup_insert_ne by done. apply lookup_insert_eq.
  - simpl. apply lookup_insert_eq.
  - reflexivity.
  - cbn [flat]. intros k j x rk Hk Hj Hx Hrk.
    apply Hl'; [done..|].
    rewrite !list_lookup_fmap, Hrk. reflexivity.
Qed.

(** *** What the cell leaves alone *)

Lemma only_wrote_refl la lb (st : state) : only_wrote la lb st st.
Proof. by repeat split. Qed.

Lemma only_wrote_trans la lb (st1 st2 st3 : state) :
  only_wrote la lb st1 st2 -> only_wrote la lb st2 st3 ->
  only_wrote la lb st1 st3.
Proof.
  intros [Hn1 Hh1] [Hn2 Hh2]. split.
  - unfold same_bindings in *. intuition congruence.
  - intros l Ha Hb. rewrite Hh2, Hh1 by done. done.
Qed.

Lemma writes_within_bind {A B} la lb (m : M A) (f : A -> M B) :
  writes_within la lb m -> (forall a, writes_within la lb (f a)) ->
  writes_within la lb (CtaData.bind m f).
Proof.
  intros Hm Hf st o st'. unfold CtaData.bind.
  destruct (m st) as [[x|a] st1] eqn:Em.
  - intros [= <- <-]. eauto.
  - intros Ef. eapply only_wrote_trans; [eapply Hm|eapply Hf]; eauto.
Qed.

Lemma writes_within_pure {A} la lb (m : M A) :
  (forall st : state, (m st).2 = st) -> writes_within la lb m.
Proof.
  intros H st o st' Em. specialize (H st). rewrite Em in H. cbn in H.
  subst. apply only_wrote_refl.
Qed.

Lemma writes_within_set_names la lb (f : namespace -> namespace) :
  (forall n, same_bindings n (f n)) ->
  writes_within la lb (set_names f : M unit).
Proof.
  intros H st o st'. unfold set_names. intros [= <- <-]. split; cbn; auto.
Qed.

Lemma writes_within_update la lb l f :
  l = la \/ l = lb -> writes_within la lb (update_buffer l f : M unit).
Proof.
  intros Hl st o st'. unfold update_buffer.
  destruct (heap st !! l) as [a|]; [destruct (f a) as [a'|]|];
    intros [= <- <-]; try apply only_wrote_refl.
  split; cbn; [by repeat split|].
  intros l' Ha Hb. apply lookup_insert_ne. destruct Hl; congruence.
Qed.

Lemma writes_within_np_cos la lb q :
  writes_within la lb (np_cos cos_in q : M _).
Proof.
  apply writes_within_pure. intros st. unfold np_cos.
  by destruct (cos_in (unit_ q)).
Qed.

Lemma writes_within_of_option {A} la lb x (o : option A) :
  writes_within la lb (of_option x o : M A).
Proof. apply writes_within_pure. intros st. by destruct o. Qed.

Lemma writes_within_of_result {A} la lb (r : exn + A) :
  writes_within la lb (of_result r : M A).
Proof. apply writes_within_pure. intros st. by destruct r. Qed.

Lemma writes_within_getitem0 la lb q :
  writes_within la lb (quantity_getitem0 q : M _).
Proof.
  apply writes_within_bind; [apply writes_within_of_option|].
  intros a. by apply writes_within_pure.
Qed.

(** C8.  However cell 6 of cta_sensitivity ends, it has written no buffer
    other than the dataset's effective area and background, and every name
    bound by the earlier cells ([center], [region], [e_reco], [e_true],
    [empty_dataset], [irfs], [pointing], [obs], [spectrum_maker],
    [dataset]) is bound to the object it was bound to: the region keeps its
    radius, and the buffer of the dataset's energy dispersion, being
    neither of the two written, keeps its contents.  The notebook's cell 6
    run on [python] ends the same way with the same store. *)
Theorem containment_correction_frame (st st' : state) o :
  let d := v_dataset (names st) in
  cell st = (o, st') ->
  edisp d <> aeff d ->
  edisp d <> background d ->
  Nb.run py (cell6 (names st)) (heap st) = as_outcome (o, st') /\
  same_bindings (names st) (names st') /\
  radius (v_region (names st')) = radius (v_region (names st)) /\
  heap st' !! edisp d = heap st !! edisp d /\
  forall l, l <> aeff d -> l <> background d -> heap st' !! l = heap st !! l.
Proof.
  intros d Hrun He1 He2.
  assert (Hw : only_wrote (aeff d) (background d) st st').
  { revert Hrun. unfold cell_containment.
    unfold CtaData.bind at 1. unfold get_names at 1. fold d.
    match goal with
    | |- ?m st = _ -> _ =>
        cut (writes_within (aeff d) (background d) m);
        [intros Hw; apply Hw|]
    end.
    repeat (apply writes_within_bind; [|intros ?]);
      first [ apply writes_within_set_names; intros n; by repeat split
            | apply writes_within_update; auto
            | apply writes_within_of_result
            | apply writes_within_of_option
            | apply writes_within_getitem0
            | apply writes_within_np_cos
            | by apply writes_within_pure ]. }
  split; [by rewrite cell6_refines, Hrun|].
  destruct Hw as [Hn Hh]. split; [exact Hn|]. split; [|split].
  - destruct Hn as (_ & -> & _). reflexivity.
  - apply Hh; done.
  - exact Hh.
Qed.

End CtaFacts.

(** ** detect, cell 2 *)

Section DetectFacts.
Import Np DetectData.

Context {num : Type} (one : num) (truthy : num -> bool).
Context {Map Model TablePSF PSFMap : Type}.
Context (Map_read : string -> exn + Map)
        (BackgroundModel : Map -> list string -> exn + Model)
        (set_unit : Map -> string -> exn + Map)
        (map_data : Map -> @data num)
        (Map_copy : Map -> @data num -> exn + Map)
        (EnergyDependentTablePSF_read : string -> exn + TablePSF)
        (from_energy_dependent_table_psf : TablePSF -> exn + PSFMap).

Local Abbreviation make_mask :=
  (make_mask_safe one truthy map_data Map_copy).
Local Abbreviation kwargs :=
  (cell_read_kwargs one truthy Map_read BackgroundModel set_unit map_data
     Map_copy EnergyDependentTablePSF_read from_energy_dependent_table_psf).

Lemma ones_like_shape {A} (x : A) a : shape (ones_like x a) = shape a.
Proof. reflexivity. Qed.





End DetectFacts.

(** ** Reading the listings: what carries over to every run *)

Section AuditFacts.
Import Nb Audit.

Lemma arg_strings_amap {A B} (f : A -> B) :
  forall a : arg A, arg_strings (amap f a) = arg_strings a.
Proof.
  fix IH 1. intros [s|z|q|b|v|l|l]; cbn; try reflexivity.
  - induction l as [|a l IHl]; cbn; [reflexivity|]. by rewrite IH, IHl.
  - induction l as [|a l IHl]; cbn; [reflexivity|]. by rewrite IH, IHl.
Qed.

Lemma callee_emap {A B} (f : A -> B) e : callee (emap f e) = callee e.
Proof. by destruct e. Qed.

Lemma string_args_emap {A B} (f : A -> B) e :
  string_args (emap f e) = string_args e.
Proof.
  assert (Ha : forall l : list (arg A),
             concat (map arg_strings (map (amap f) l))
             = concat (map arg_strings l)).
  { induction l as [|a l IHl]; cbn; [done|].
    by rewrite arg_strings_amap, IHl. }
  assert (Hk : forall l : list (string * arg A),
             concat (map (fun p => arg_strings p.2) (map (kwmap f) l))
             = concat (map (fun p => arg_strings p.2) l)).
  { induction l as [|[n a] l IHl]; cbn; [done|].
    by rewrite arg_strings_amap, IHl. }
  destruct e; cbn; try done; by rewrite Ha, Hk.
Qed.

Lemma is_arith_emap {A B} (f : A -> B) e : is_arith (emap f e) = is_arith e.
Proof. by destruct e. Qed.

Lemma is_reader_emap {A B} (f : A -> B) e : is_reader (emap f e) = is_reader e.
Proof. unfold is_reader. by rewrite callee_emap. Qed.

Lemma is_writer_emap {A B} (f : A -> B) e : is_writer (emap f e) = is_writer e.
Proof. unfold is_writer. by rewrite callee_emap. Qed.

Lemma touches_files_emap {A B} (f : A -> B) e :
  touches_files (emap f e) = touches_files e.
Proof.
  unfold touches_files.
  by rewrite is_reader_emap, is_writer_emap, string_args_emap.
Qed.

Lemma is_estimator_emap {A B} (f : A -> B) e :
  is_estimator (emap f e) = is_estimator e.
Proof. by destruct e. Qed.

Context {val world exn : Type}.
Implicit Types (h : runtime val world exn) (w : world).

(** A test that only reads labels, and that gives [b] on every entry of
    the listing, gives [b] on every operation of every run. *)
Lemma listing_to_trace (P : forall A, event A -> bool) (b : bool)
    {R} env (p : prog val R) ls h w e we :
  (forall A B (f : A -> B) e, P B (emap f e) = P A e) ->
  flows env p ls ->
  Forall (fun e' => P nat e' = b) ls ->
  (e, we) ∈ trace h p w ->
  P val e = b.
Proof.
  intros Hinv Hf Hall Hin.
  destruct (flows_trace_elem _ _ _ _ _ _ _ Hf Hin) as (e' & Hin' & Hl).
  rewrite Forall_forall in Hall. rewrite <- (Hall e' Hin').
  rewrite <- (Hinv _ _ (fun _ => tt) e), <- (Hinv _ _ (fun _ => tt) e').
  unfold label in Hl. by rewrite Hl.
Qed.

(** If the operations of a run leave some part [files] of the world as it
    was, so does the run. *)
Lemma run_preserves {F R} (files : world -> F) h (p : prog val R) w r w' :
  (forall e we v w2, (e, we) ∈ trace h p w ->
     h e we = Returns v w2 -> files w2 = files we) ->
  run h p w = Returns r w' -> files w' = files w.
Proof.
  revert w. induction p as [a|e k IH]; intros w Hstep; cbn.
  - by intros [= _ ->].
  - cbn in Hstep. destruct (h e w) as [v w1|x1 w1|] eqn:He; [|done..].
    intros Hrun. rewrite (IH v w1); [| |exact Hrun].
    + eapply Hstep; [left|exact He].
    + intros e' we' v' w2 Hin. apply Hstep. by right.
Qed.

(** A prefix holds no more entries of a kind than the whole list. *)
Lemma filter_take_length {A} (P : A -> bool) n (l : list A) :
  length (filter (fun x => P x = true) (take n l))
  <= length (filter (fun x => P x = true) l).
Proof.
  revert n. induction l as [|x l IH]; intros n.
  - rewrite take_nil. lia.
  - destruct n as [|n]; [rewrite take_0, filter_nil; cbn [length]; lia|].
    change (take (S n) (x :: l)) with (x :: take n l).
    rewrite !filter_cons. specialize (IH n).
    case_decide; cbn [length]; lia.
Qed.

End AuditFacts.

(** ** Runs of a notebook with cells under [%%time] *)

Section ScriptFacts.
Import Nb.
Context {val world exn : Type}.
Implicit Types (h : runtime val world exn) (w : world).

Lemma run_bind {A B} h (p : prog val A) (f : A -> prog val B) w :
  run h (bind p f) w
  = match run h p w with
    | Returns a w' => run h (f a) w'
    | Raises x w' => Raises x w'
    | Hangs => Hangs
    end.
Proof.
  revert w. induction p as [r|e k IH]; intros w; cbn; [done|].
  destruct (h e w); auto.
Qed.

Lemma trace_bind {A B} h (p : prog val A) (f : A -> prog val B) w :
  trace h (bind p f) w
  = trace h p w ++ match run h p w with
                   | Returns a w' => trace h (f a) w'
                   | _ => []
                   end.
Proof.
  revert w. induction p as [r|e k IH]; intros w; cbn; [done|].
  f_equal. destruct (h e w); auto.
Qed.

(** A program that does not return has issued an operation, and the last
    one issued is the one that did not return. *)
Lemma run_raises_last {R} h (p : prog val R) w x w' :
  run h p w = Raises x w' ->
  exists pre e we, trace h p w = pre ++ [(e, we)] /\ h e we = Raises x w' /\
                   Forall (returned h) pre.
Proof.
  intros Hr. apply run_raises_iff in Hr as (pre & e & we & Ht & He).
  exists pre, e, we. repeat split; try done. eapply trace_returned, Ht.
Qed.

Lemma run_hangs_last {R} h (p : prog val R) w :
  run h p w = Hangs ->
  exists pre e we, trace h p w = pre ++ [(e, we)] /\ h e we = Hangs /\
                   Forall (returned h) pre.
Proof.
  intros Hr. apply run_hangs_iff in Hr as (pre & e & we & Ht & He).
  exists pre, e, we. repeat split; try done. eapply trace_returned, Ht.
Qed.

Lemma run_returns_all {R} h (p : prog val R) w r w' :
  run h p w = Returns r w' -> Forall (returned h) (trace h p w).
Proof.
  revert w. induction p as [a|e k IH]; intros w; cbn; [constructor|].
  destruct (h e w) as [v w1|x1 w1|] eqn:He; [|done..].
  intros Hr. constructor; [by exists v, w1|eauto].
Qed.

Lemma timed_script_length {R} h (s : script val R) w :
  length (timed_script h s w) = length (trace_script h s w).
Proof.
  revert w. induction s as [r|p k IH|p k IHk r IHr]; intros w; cbn; [done| |].
  - rewrite !length_app, length_replicate.
    destruct (run h p w); cbn; auto.
  - rewrite !length_app, length_replicate.
    destruct (run h p w); cbn; auto.
Qed.

(** *** The run up to its first exception *)

Lemma trace_script_lead {R} h (s : script val R) w :
  trace_script h s w
  = trace h (main_line s) w
    ++ match resume h s w with
       | Some (r, w') => trace_script h r w'
       | None => []
       end.
Proof.
  revert w. induction s as [r|p k IH|p k IHk r IHr]; intros w; cbn; [done| |].
  - rewrite trace_bind, <- app_assoc. f_equal.
    destruct (run h p w); cbn; auto.
  - rewrite trace_bind, <- app_assoc. f_equal.
    destruct (run h p w); cbn; auto.
Qed.

Lemma run_script_lead {R} h (s : script val R) w :
  run_script h s w
  = match resume h s w with
    | Some (r, w') => run_script h r w'
    | None => run h (main_line s) w
    end.
Proof.
  revert w. induction s as [r|p k IH|p k IHk r IHr]; intros w; cbn; [done| |].
  - rewrite run_bind. destruct (run h p w); cbn; auto.
  - rewrite run_bind. destruct (run h p w); cbn; auto.
Qed.

Lemma resume_raised {R} h (s : script val R) w r w' :
  resume h s w = Some (r, w') ->
  exists x, run h (main_line s) w = Raises x w'.
Proof.
  revert w. induction s as [a|p k IH|p k IHk r0 IHr]; intros w; cbn; [done| |].
  - rewrite run_bind. destruct (run h p w); cbn; [eauto|done..].
  - rewrite run_bind. destruct (run h p w); cbn; [eauto| |done].
    intros [= <- <-]. eauto.
Qed.

(** As long as every operation has returned, the run is the one of the
    main line. *)
Lemma lead_take {R} h (s : script val R) w n :
  Forall (returned h) (take n (trace_script h s w)) ->
  n < length (trace_script h s w) ->
  take (S n) (trace_script h s w) = take (S n) (trace h (main_line s) w).
Proof.
  intros Hret Hn. rewrite trace_script_lead in *.
  destruct (decide (n < length (trace h (main_line s) w))) as [Hlt|Hge].
  { rewrite take_app_le by lia. done. }
  exfalso.
  destruct (resume h s w) as [[r w']|] eqn:Hres.
  - destruct (resume_raised _ _ _ _ _ Hres) as [x Hx].
    destruct (run_raises_last _ _ _ _ _ Hx) as (pre & e & we & Ht & He & _).
    rewrite Ht in *. rewrite length_app in Hge. cbn in Hge.
    rewrite Forall_forall in Hret.
    destruct (Hret (e, we)) as (v & w2 & Hv).
    + apply list_elem_of_lookup. exists (length pre).
      rewrite lookup_take_lt by lia.
      rewrite <- !app_assoc. cbn. by rewrite list_lookup_middle.
    + cbn in Hv. congruence.
  - rewrite app_nil_r in Hn. lia.
Qed.

Lemma all_returned_lead {R} h (s : script val R) w :
  Forall (returned h) (trace_script h s w) ->
  trace_script h s w = trace h (main_line s) w /\
  run_script h s w = run h (main_line s) w.
Proof.
  intros Hret. rewrite run_script_lead. rewrite trace_script_lead in *.
  destruct (resume h s w) as [[r w']|] eqn:Hres; [|by rewrite app_nil_r].
  exfalso.
  destruct (resume_raised _ _ _ _ _ Hres) as [x Hx].
  destruct (run_raises_last _ _ _ _ _ Hx) as (pre & e & we & Ht & He & _).
  rewrite Ht in Hret. rewrite Forall_forall in Hret.
  destruct (Hret (e, we)) as (v & w2 & Hv).
  - rewrite <- !app_assoc. apply elem_of_app. right. left.
  - cbn in Hv. congruence.
Qed.

Lemma lead_prefix {R} h (s : script val R) w :
  trace h (main_line s) w `prefix_of` trace_script h s w.
Proof. rewrite trace_script_lead. by eexists. Qed.

(** *** How a run ends *)

(** Nothing is issued after an operation that hangs, or after one that
    raises outside a timed segment; such an operation decides the
    outcome. *)
Lemma script_ends {R} h (s : script val R) w i e we :
  trace_script h s w !! i = Some (e, we) ->
  (h e we = Hangs ->
   length (trace_script h s w) = S i /\ run_script h s w = Hangs) /\
  (forall x w', h e we = Raises x w' ->
     timed_script h s w !! i = Some false ->
     length (trace_script h s w) = S i /\ run_script h s w = Raises x w').
Proof.
  revert w i. induction s as [r|p k IH|p k IHk r IHr]; intros w i; cbn;
    [done| |].
  - destruct (decide (i < length (trace h p w))) as [Hlt|Hge].
    + rewrite lookup_app_l by done. intros Hi.
      rewrite lookup_app_l by (by rewrite length_replicate).
      destruct (run h p w) as [v w1|x1 w1|] eqn:Hr.
      * pose proof (run_returns_all _ _ _ _ _ Hr) as Hall.
        rewrite Forall_forall in Hall.
        destruct (Hall (e, we)) as (v' & w2 & Hv);
          [by eapply list_elem_of_lookup_2|]. cbn in Hv.
        split; [congruence|intros; congruence].
      * destruct (run_raises_last _ _ _ _ _ Hr)
          as (pre & e' & we' & Ht & He' & Hpre).
        rewrite app_nil_r, Ht in *. rewrite length_app in *. cbn in *.
        destruct (decide (i = length pre)) as [->|Hne].
        -- rewrite list_lookup_middle in Hi by done. injection Hi as <- <-.
           split; [congruence|]. intros x w' Hx _.
           split; [lia|congruence].
        -- rewrite lookup_app_l in Hi by lia.
           rewrite Forall_forall in Hpre.
           destruct (Hpre (e, we)) as (v' & w2 & Hv);
             [by eapply list_elem_of_lookup_2|]. cbn in Hv.
           split; [congruence|intros; congruence].
      * destruct (run_hangs_last _ _ _ Hr)
          as (pre & e' & we' & Ht & He' & Hpre).
        rewrite app_nil_r, Ht in *. rewrite length_app in *. cbn in *.
        destruct (decide (i = length pre)) as [->|Hne].
        -- rewrite list_lookup_middle in Hi by done. injection Hi as <- <-.
           split; [intros _; split; [lia|done]|intros; congruence].
        -- rewrite lookup_app_l in Hi by lia.
           rewrite Forall_forall in Hpre.
           destruct (Hpre (e, we)) as (v' & w2 & Hv);
             [by eapply list_elem_of_lookup_2|]. cbn in Hv.
           split; [congruence|intros; congruence].
    + rewrite lookup_app_r by lia.
      rewrite (lookup_app_r (replicate _ _)) by (rewrite length_replicate; lia).
      rewrite length_replicate, length_app.
      destruct (run h p w) as [v w1|x1 w1|] eqn:Hr; [|done..].
      intros Hi. destruct (IH v w1 _ Hi) as [H1 H2]. split.
      * intros Hh. destruct (H1 Hh). split; [lia|done].
      * intros x w' Hx Hm. destruct (H2 x w' Hx Hm). split; [lia|done].
  - destruct (decide (i < length (trace h p w))) as [Hlt|Hge].
    + rewrite lookup_app_l by done. intros Hi.
      rewrite lookup_app_l by (by rewrite length_replicate).
      rewrite lookup_replicate_2 by done.
      destruct (run h p w) as [v w1|x1 w1|] eqn:Hr.
      * pose proof (run_returns_all _ _ _ _ _ Hr) as Hall.
        rewrite Forall_forall in Hall.
        destruct (Hall (e, we)) as (v' & w2 & Hv);
          [by eapply list_elem_of_lookup_2|]. cbn in Hv.
        split; [congruence|intros; congruence].
      * destruct (run_raises_last _ _ _ _ _ Hr)
          as (pre & e' & we' & Ht & He' & Hpre).
        rewrite Ht in *. rewrite length_app in *. cbn in *.
        destruct (decide (i = length pre)) as [->|Hne].
        -- rewrite list_lookup_middle in Hi by done. injection Hi as <- <-.
           split; [congruence|]. intros x w' Hx [=].
        -- rewrite lookup_app_l in Hi by lia.
           rewrite Forall_forall in Hpre.
           destruct (Hpre (e, we)) as (v' & w2 & Hv);
             [by eapply list_elem_of_lookup_2|]. cbn in Hv.
           split; [congruence|intros; congruence].
      * destruct (run_hangs_last _ _ _ Hr)
          as (pre & e' & we' & Ht & He' & Hpre).
        rewrite app_nil_r, Ht in *. rewrite length_app in *. cbn in *.
        destruct (decide (i = length pre)) as [->|Hne].
        -- rewrite list_lookup_middle in Hi by done. injection Hi as <- <-.
           split; [intros _; split; [lia|done]|intros; congruence].
        -- rewrite lookup_app_l in Hi by lia.
           rewrite Forall_forall in Hpre.
           destruct (Hpre (e, we)) as (v' & w2 & Hv);
             [by eapply list_elem_of_lookup_2|]. cbn in Hv.
           split; [congruence|intros; congruence].
    + rewrite lookup_app_r by lia.
      rewrite (lookup_app_r (replicate _ _)) by (rewrite length_replicate; lia).
      rewrite length_replicate, length_app.
      destruct (run h p w) as [v w1|x1 w1|] eqn:Hr; [| |done].
      * intros Hi. destruct (IHk v w1 _ Hi) as [H1 H2]. split.
        -- intros Hh. destruct (H1 Hh). split; [lia|done].
        -- intros x w' Hx Hm. destruct (H2 x w' Hx Hm). split; [lia|done].
      * intros Hi. destruct (IHr w1 _ Hi) as [H1 H2]. split.
        -- intros Hh. destruct (H1 Hh). split; [lia|done].
        -- intros x w' Hx Hm. destruct (H2 x w' Hx Hm). split; [lia|done].
Qed.

Lemma script_raises {R} h (s : script val R) w x w' :
  run_script h s w = Raises x w' ->
  exists pre e we,
    trace_script h s w = pre ++ [(e, we)] /\ h e we = Raises x w' /\
    timed_script h s w !! length pre = Some false.
Proof.
  revert w. induction s as [r|p k IH|p k IHk r IHr]; intros w; cbn; [done| |].
  - destruct (run h p w) as [v w1|x1 w1|] eqn:Hr; [| |done].
    + intros H. destruct (IH v w1 H) as (pre & e & we & Ht & He & Hm).
      exists (trace h p w ++ pre), e, we. rewrite Ht, app_assoc.
      repeat split; try done.
      rewrite length_app, lookup_app_r by (rewrite length_replicate; lia).
      rewrite length_replicate. by replace (_ + _ - _) with (length pre) by lia.
    + intros [= -> ->].
      destruct (run_raises_last _ _ _ _ _ Hr) as (pre & e & we & Ht & He & _).
      exists pre, e, we. rewrite app_nil_r, Ht. repeat split; try done.
      rewrite lookup_app_l by (rewrite length_replicate, length_app; cbn; lia).
      apply lookup_replicate_2. rewrite length_app. cbn. lia.
  - destruct (run h p w) as [v w1|x1 w1|] eqn:Hr; [| |done].
    + intros H. destruct (IHk v w1 H) as (pre & e & we & Ht & He & Hm).
      exists (trace h p w ++ pre), e, we. rewrite Ht, app_assoc.
      repeat split; try done.
      rewrite length_app, lookup_app_r by (rewrite length_replicate; lia).
      rewrite length_replicate. by replace (_ + _ - _) with (length pre) by lia.
    + intros H. destruct (IHr w1 H) as (pre & e & we & Ht & He & Hm).
      exists (trace h p w ++ pre), e, we. rewrite Ht, app_assoc.
      repeat split; try done.
      rewrite length_app, lookup_app_r by (rewrite length_replicate; lia).
      rewrite length_replicate. by replace (_ + _ - _) with (length pre) by lia.
Qed.

Lemma script_hangs {R} h (s : script val R) w :
  run_script h s w = Hangs ->
  exists pre e we, trace_script h s w = pre ++ [(e, we)] /\ h e we = Hangs.
Proof.
  revert w. induction s as [r|p k IH|p k IHk r IHr]; intros w; cbn; [done| |].
  - destruct (run h p w) as [v w1|x1 w1|] eqn:Hr; [|done|].
    + intros H. destruct (IH v w1 H) as (pre & e & we & Ht & He).
      exists (trace h p w ++ pre), e, we. by rewrite Ht, app_assoc.
    + intros _. destruct (run_hangs_last _ _ _ Hr) as (pre & e & we & Ht & He & _).
      exists pre, e, we. by rewrite app_nil_r.
  - destruct (run h p w) as [v w1|x1 w1|] eqn:Hr.
    + intros H. destruct (IHk v w1 H) as (pre & e & we & Ht & He).
      exists (trace h p w ++ pre), e, we. by rewrite Ht, app_assoc.
    + intros H. destruct (IHr w1 H) as (pre & e & we & Ht & He).
      exists (trace h p w ++ pre), e, we. by rewrite Ht, app_assoc.
    + intros _. destruct (run_hangs_last _ _ _ Hr) as (pre & e & we & Ht & He & _).
      exists pre, e, we. by rewrite app_nil_r.
Qed.

(** A script stops only where an operation stops. *)
Lemma run_script_total {R} h (s : script val R) w :
  (forall e we, (e, we) ∈ trace_script h s w -> h e we <> Hangs) ->
  run_script h s w <> Hangs.
Proof.
  intros Hall Hrun. apply script_hangs in Hrun as (pre & e & we & Ht & Hh).
  apply (Hall e we); [|exact Hh].
  rewrite Ht. apply elem_of_app. right. left.
Qed.

(** Every operation that did not return and was not the last one issued
    raised in a timed segment. *)
Lemma script_caught {R} h (s : script val R) w i e we :
  trace_script h s w !! i = Some (e, we) ->
  S i < length (trace_script h s w) ->
  returned h (e, we) \/
  (exists x w', h e we = Raises x w') /\ timed_script h s w !! i = Some true.
Proof.
  intros Hi Hlen.
  destruct (script_ends h s w i e we Hi) as [Hh Hr].
  destruct (h e we) as [v w1|x w1|] eqn:He.
  - left. by exists v, w1.
  - right. split; [eauto|].
    assert (is_Some (timed_script h s w !! i)) as [b Hb].
    { apply lookup_lt_is_Some_2. rewrite timed_script_length.
      by eapply lookup_lt_Some. }
    destruct b; [done|]. destruct (Hr x w1 eq_refl Hb). lia.
  - destruct (Hh eq_refl). lia.
Qed.

Lemma sequenced_after {R} h (p : prog val R) w rest :
  match run h p w with
  | Returns _ w' | Raises _ w' => sequenced h w' rest
  | Hangs => rest = []
  end ->
  sequenced h w (trace h p w ++ rest).
Proof.
  revert w. induction p as [r|e k IH]; intros w; cbn; [done|].
  intros H. split; [reflexivity|].
  destruct (h e w) as [v w1|x w1|]; [by apply IH|done|done].
Qed.

(** Also past an exception that was caught, operations come one at a
    time. *)
Lemma trace_script_sequenced {R} h (s : script val R) w :
  sequenced h w (trace_script h s w).
Proof.
  revert w. induction s as [r|p k IH|p k IHk r IHr]; intros w; cbn;
    [exact I| |]; apply sequenced_after; destruct (run h p w); cbn; auto.
Qed.

(** *** What a script issues *)

Lemma labelled_trace {R} (p : prog val R) ll h w :
  labelled p ll ->
  label <$> (fst <$> trace h p w) = take (length (trace h p w)) ll.
Proof.
  intros Hl. revert w. induction Hl as [r|e k ll Hk IH]; intros w; cbn;
    [reflexivity|].
  f_equal. destruct (h e w) as [v w1|x1 w1|]; [apply IH| |]; cbn;
    by rewrite take_0.
Qed.

Lemma labelled_returns {R} (p : prog val R) ll h w r w' :
  labelled p ll -> run h p w = Returns r w' ->
  length (trace h p w) = length ll.
Proof.
  intros Hl. revert w. induction Hl as [a|e k ll Hk IH]; intros w; cbn;
    [reflexivity|].
  destruct (h e w) as [v w1|x1 w1|]; [|discriminate..].
  intros Hr. f_equal. eauto.
Qed.

Lemma labelled_length {R} (p : prog val R) ll h w :
  labelled p ll -> length (trace h p w) <= length ll.
Proof.
  intros Hl. revert w. induction Hl as [a|e k ll Hk IH]; intros w; cbn;
    [lia|].
  destruct (h e w) as [v w1|x1 w1|]; cbn; [|lia..].
  specialize (IH v w1). lia.
Qed.

Lemma zip_marked {A} (l : list A) (b : bool) n :
  length l = n -> zip l (replicate n b) = (fun x => (x, b)) <$> l.
Proof.
  intros <-. induction l as [|x l IH]; cbn; [done|]. by rewrite IH.
Qed.

Lemma zip_app_same {A B} (l1 l2 : list A) (k1 k2 : list B) :
  length l1 = length k1 -> zip (l1 ++ l2) (k1 ++ k2) = zip l1 k1 ++ zip l2 k2.
Proof. intros H. by apply zip_with_app. Qed.

Lemma segment_sublist {R} (p : prog val R) l1 b h w :
  labelled p l1 ->
  zip (label <$> (fst <$> trace h p w)) (replicate (length (trace h p w)) b)
  `sublist_of` marked b l1.
Proof.
  intros Hl. rewrite zip_marked by (by rewrite !length_fmap).
  rewrite (labelled_trace _ _ _ _ Hl).
  apply fmap_sublist, sublist_take.
Qed.

(** In every run, the operations issued are entries of the listing, in
    the order of the listing, with their marks. *)
Lemma covers_sublist {R} (s : script val R) lm h w :
  covers s lm ->
  zip (label <$> (fst <$> trace_script h s w)) (timed_script h s w)
  `sublist_of` lm.
Proof.
  intros Hc. revert w.
  induction Hc as [r lm|p k l1 lm Hl Hk IH|p k r l1 lm Hl Hk IHk Hr IHr
                  |s l0 lm Hs IH]; intros w; cbn.
  - apply sublist_nil_l.
  - rewrite !fmap_app, zip_app_same
      by (by rewrite !length_fmap, length_replicate).
    apply sublist_app; [by apply segment_sublist|].
    destruct (run h p w); cbn; [apply IH|apply sublist_nil_l..].
  - rewrite !fmap_app, zip_app_same
      by (by rewrite !length_fmap, length_replicate).
    apply sublist_app; [by apply segment_sublist|].
    destruct (run h p w); cbn; [apply IHk|apply IHr|apply sublist_nil_l].
  - by apply sublist_inserts_l.
Qed.

Lemma zip_fst_sublist {A B} (l : list A) (k : list B) lm :
  length l = length k -> zip l k `sublist_of` lm -> l `sublist_of` lm.*1.
Proof.
  intros Hlen Hs. apply (fmap_sublist fst) in Hs.
  by rewrite fst_zip in Hs by lia.
Qed.

Lemma covers_labels {R} (s : script val R) lm h w :
  covers s lm ->
  label <$> (fst <$> trace_script h s w) `sublist_of` lm.*1.
Proof.
  intros Hc. eapply zip_fst_sublist; [|by apply covers_sublist].
  by rewrite !length_fmap, timed_script_length.
Qed.

(** Up to the first exception, the marks of a run are those of the
    listing. *)
Lemma shaped_lead {R} (s : script val R) lm h w :
  shaped s lm ->
  take (length (trace h (main_line s) w)) (timed_script h s w)
  = take (length (trace h (main_line s) w)) lm.*2.
Proof.
  assert (Hm : forall b (l : list (event unit)),
             (marked b l).*2 = replicate (length l) b).
  { intros b l. unfold marked. induction l as [|x l IH]; cbn; [done|].
    by rewrite IH. }
  intros Hs. revert w.
  induction Hs as [r|p k l1 lm Hl Hk IH|p k r l1 lm Hl Hk IH]; intros w;
    cbn; [done| |].
  - rewrite trace_bind, length_app, fmap_app, Hm.
    destruct (run h p w) as [v w1|x w1|] eqn:Hr.
    + rewrite (labelled_returns _ _ _ _ _ _ Hl Hr).
      rewrite !take_app_add' by (by rewrite length_replicate).
      by rewrite IH.
    + cbn. rewrite Nat.add_0_r, app_nil_r.
      pose proof (labelled_length _ _ h w Hl).
      rewrite take_app_le by (rewrite length_replicate; lia).
      rewrite !take_replicate. f_equal. lia.
    + cbn. rewrite Nat.add_0_r, app_nil_r.
      pose proof (labelled_length _ _ h w Hl).
      rewrite take_app_le by (rewrite length_replicate; lia).
      rewrite !take_replicate. f_equal. lia.
  - rewrite trace_bind, length_app, fmap_app, Hm.
    destruct (run h p w) as [v w1|x w1|] eqn:Hr.
    + rewrite (labelled_returns _ _ _ _ _ _ Hl Hr).
      rewrite !take_app_add' by (by rewrite length_replicate).
      by rewrite IH.
    + cbn. rewrite Nat.add_0_r.
      pose proof (labelled_length _ _ h w Hl).
      rewrite !take_app_le by (rewrite length_replicate; lia).
      rewrite !take_replicate. f_equal. lia.
    + cbn. rewrite Nat.add_0_r, app_nil_r.
      pose proof (labelled_length _ _ h w Hl).
      rewrite take_app_le by (rewrite length_replicate; lia).
      rewrite !take_replicate. f_equal. lia.
Qed.

(** After an exception caught in a timed segment, the run goes on. *)
Lemma resumes_next {R} (s : script val R) h w i e we x w' :
  resumes s ->
  trace_script h s w !! i = Some (e, we) ->
  h e we = Raises x w' ->
  timed_script h s w !! i = Some true ->
  is_Some (trace_script h s w !! S i).
Proof.
  intros Hs. revert w i.
  induction Hs as [r|p k Hk IH|p k r Hk IHk Hb Hr IHr]; intros w i; cbn;
    [done| |].
  - destruct (decide (i < length (trace h p w))) as [Hlt|Hge].
    + intros _ _. rewrite lookup_app_l by (by rewrite length_replicate).
      by rewrite lookup_replicate_2.
    + rewrite lookup_app_r by lia.
      rewrite (lookup_app_r (replicate _ _)) by (rewrite length_replicate; lia).
      rewrite length_replicate.
      destruct (run h p w) as [v w1|x1 w1|]; [|done..].
      intros Hi Hx Hm. rewrite lookup_app_r by lia.
      replace (S i - _) with (S (i - length (trace h p w))) by lia. eauto.
  - destruct (decide (i < length (trace h p w))) as [Hlt|Hge].
    + rewrite lookup_app_l by done. intros Hi Hx _.
      destruct (run h p w) as [v w1|x1 w1|] eqn:Hrun.
      * pose proof (run_returns_all _ _ _ _ _ Hrun) as Hall.
        rewrite Forall_forall in Hall.
        destruct (Hall (e, we)) as (v' & w2 & Hv);
          [by eapply list_elem_of_lookup_2|]. cbn in Hv. congruence.
      * destruct (run_raises_last _ _ _ _ _ Hrun)
          as (pre & e' & we' & Ht & He' & Hpre).
        rewrite Ht in *. rewrite length_app in Hlt. cbn in Hlt.
        destruct (decide (i = length pre)) as [->|Hne].
        -- rewrite lookup_app_r by (rewrite length_app; cbn; lia).
           rewrite length_app. cbn.
           replace (S (length pre) - _) with 0 by lia.
           destruct Hb; cbn; eauto.
        -- rewrite lookup_app_l in Hi by lia.
           rewrite Forall_forall in Hpre.
           destruct (Hpre (e, we)) as (v' & w2 & Hv);
             [by eapply list_elem_of_lookup_2|]. cbn in Hv. congruence.
      * destruct (run_hangs_last _ _ _ Hrun)
          as (pre & e' & we' & Ht & He' & Hpre).
        rewrite Ht in *. rewrite length_app in Hlt. cbn in Hlt.
        destruct (decide (i = length pre)) as [->|Hne].
        -- rewrite list_lookup_middle in Hi by done. injection Hi as <- <-.
           congruence.
        -- rewrite lookup_app_l in Hi by lia.
           rewrite Forall_forall in Hpre.
           destruct (Hpre (e, we)) as (v' & w2 & Hv);
             [by eapply list_elem_of_lookup_2|]. cbn in Hv. congruence.
    + rewrite lookup_app_r by lia.
      rewrite (lookup_app_r (replicate _ _)) by (rewrite length_replicate; lia).
      rewrite length_replicate.
      destruct (run h p w) as [v w1|x1 w1|]; [| |done].
      * intros Hi Hx Hm. rewrite lookup_app_r by lia.
        replace (S i - _) with (S (i - length (trace h p w))) by lia. eauto.
      * intros Hi Hx Hm. rewrite lookup_app_r by lia.
        replace (S i - _) with (S (i - length (trace h p w))) by lia. eauto.
Qed.

(** *** Runs that agree, and what runs leave alone *)

Lemma exec_script_agree {F R} (files : world -> F)
    (L : runtime_rel val world exn) (s : script val R) w1 w2 o1 o2 :
  deterministic_in files L -> files w1 = files w2 ->
  exec_script L s w1 o1 -> exec_script L s w2 o2 -> agree files o1 o2.
Proof.
  intros HL Hw H1. revert w2 o2 Hw.
  induction H1; intros w2 o2 Hw H2; inversion H2; subst;
    try match goal with
      | Ha : exec L ?p _ _, Hb : exec L ?p _ _ |- _ =>
          pose proof (exec_agree files L p _ _ _ _ HL Hw Ha Hb) as Hag;
          cbn in Hag
      end;
    try done.
  - destruct Hag as [-> Hw']. eauto.
  - destruct Hag as [-> Hw']. eauto.
  - destruct Hag as [-> Hw']. eauto.
Qed.

Lemma exec_script_run {R} h (s : script val R) w :
  exec_script (graph h) s w (run_script h s w).
Proof.
  revert w. induction s as [r|p k IH|p k IHk r IHr]; intros w; cbn;
    [constructor| |].
  - pose proof (exec_run h p w) as Hp.
    destruct (run h p w) as [v w1|x1 w1|].
    + eapply exec_plain_returns; [exact Hp|apply IH].
    + by apply exec_plain_raises.
    + by apply exec_plain_hangs.
  - pose proof (exec_run h p w) as Hp.
    destruct (run h p w) as [v w1|x1 w1|].
    + eapply exec_timed_returns; [exact Hp|apply IHk].
    + eapply exec_timed_raises; [exact Hp|apply IHr].
    + by apply exec_timed_hangs.
Qed.

(** If the operations of a program leave [files] as it was, also when they
    raise, so does a program that raises. *)
Lemma run_preserves_raised {F R} (files : world -> F) h (p : prog val R)
    w x w' :
  (forall e we v w2, (e, we) ∈ trace h p w ->
     h e we = Returns v w2 -> files w2 = files we) ->
  (forall e we y w2, (e, we) ∈ trace h p w ->
     h e we = Raises y w2 -> files w2 = files we) ->
  run h p w = Raises x w' -> files w' = files w.
Proof.
  revert w. induction p as [a|e k IH]; intros w Hret Hrai; cbn; [done|].
  cbn in Hret, Hrai. destruct (h e w) as [v w1|x1 w1|] eqn:He; [| |done].
  - intros Hrun. rewrite (IH v w1); [| | |exact Hrun].
    + eapply Hret; [left|exact He].
    + intros e' we' v' w2 Hin. apply Hret. by right.
    + intros e' we' v' w2 Hin. apply Hrai. by right.
  - intros [= -> ->]. eapply Hrai; [left|exact He].
Qed.

Lemma run_script_preserves {F R} (files : world -> F) h (s : script val R)
    w r w' :
  (forall e we v w2, (e, we) ∈ trace_script h s w ->
     h e we = Returns v w2 -> files w2 = files we) ->
  (forall e we y w2, (e, we) ∈ trace_script h s w ->
     h e we = Raises y w2 -> files w2 = files we) ->
  run_script h s w = Returns r w' -> files w' = files w.
Proof.
  revert w. induction s as [a|p k IH|p k IHk r0 IHr]; intros w Hret Hrai;
    cbn in *.
  - by intros [= _ ->].
  - destruct (run h p w) as [v w1|x1 w1|] eqn:Hr; [|done..].
    intros Hrun. rewrite (IH v w1); [| | |exact Hrun].
    + eapply run_preserves; [|exact Hr].
      intros e we v' w2 Hin. apply Hret. apply elem_of_app. by left.
    + intros e we v' w2 Hin. apply Hret. apply elem_of_app. by right.
    + intros e we v' w2 Hin. apply Hrai. apply elem_of_app. by right.
  - destruct (run h p w) as [v w1|x1 w1|] eqn:Hr; [| |done].
    + intros Hrun. rewrite (IHk v w1); [| | |exact Hrun].
      * eapply run_preserves; [|exact Hr].
        intros e we v' w2 Hin. apply Hret. apply elem_of_app. by left.
      * intros e we v' w2 Hin. apply Hret. apply elem_of_app. by right.
      * intros e we v' w2 Hin. apply Hrai. apply elem_of_app. by right.
    + intros Hrun. rewrite (IHr w1); [| | |exact Hrun].
      * eapply run_preserves_raised; [| |exact Hr].
        -- intros e we v' w2 Hin. apply Hret. apply elem_of_app. by left.
        -- intros e we v' w2 Hin. apply Hrai. apply elem_of_app. by left.
      * intros e we v' w2 Hin. apply Hret. apply elem_of_app. by right.
      * intros e we v' w2 Hin. apply Hrai. apply elem_of_app. by right.
Qed.

(** After an exception the next operation, if there is one, meets the
    world the exception left. *)
Lemma sequenced_next h w tr i e we x w' ev :
  sequenced h w tr -> tr !! i = Some (e, we) -> h e we = Raises x w' ->
  tr !! S i = Some ev -> ev.2 = w'.
Proof.
  revert w i. induction tr as [|[e0 w0] tr IH]; intros w i Hs Hi He Hn; [done|].
  destruct Hs as [-> Hs]. destruct i as [|i].
  - injection Hi as -> ->. rewrite He in Hs.
    destruct tr as [|[e1 w1] tr]; [done|].
    injection Hn as <-. by destruct Hs as [-> _].
  - cbn in Hi, Hn. destruct (h e0 w) eqn:E.
    + by eapply IH.
    + by eapply IH.
    + by subst tr.
Qed.

(** The value an operation of a straight-line run handed back is its
    entry in [results]. *)
Lemma value_in_results {R} h (p : prog val R) w j :
  value_in h (trace h p w) j = results h p w !! j.
Proof.
  revert w j. induction p as [r|e k IH]; intros w j; [done|].
  unfold value_in. cbn [trace results]. destruct j as [|j]; cbn.
  - by destruct (h e w).
  - destruct (h e w) eqn:E; [apply IH|done..].
Qed.

(** Up to the first operation that does not return, a run is the run of
    the main line. *)
Lemma lead_lookup {R} h (s : script val R) w n i :
  Forall (returned h) (take n (trace_script h s w)) ->
  n < length (trace_script h s w) -> i <= n ->
  trace_script h s w !! i = trace h (main_line s) w !! i.
Proof.
  intros Hall Hn Hi. pose proof (lead_take h s w n Hall Hn) as Ht.
  rewrite <- (lookup_take_lt (trace_script h s w) (S n) i) by lia.
  rewrite Ht. apply lookup_take_lt. lia.
Qed.

Lemma lead_labels {R} h (s : script val R) ls w n :
  flows [] (main_line s) ls ->
  Forall (returned h) (take n (trace_script h s w)) ->
  label <$> (fst <$> take (S n) (trace_script h s w))
  = take (length (take (S n) (trace_script h s w))) (label <$> ls).
Proof.
  intros Hf Hall.
  destruct (decide (n < length (trace_script h s w))) as [Hn|Hn].
  - rewrite (lead_take h s w n Hall Hn).
    rewrite !fmap_take, (flows_trace_labels _ _ _ h w Hf), take_take.
    by rewrite length_take.
  - rewrite take_ge in Hall by lia. rewrite take_ge by lia.
    destruct (all_returned_lead h s w Hall) as [-> _].
    apply (flows_trace_labels _ _ _ h w Hf).
Qed.

(** In a stretch of the main line without timed operations every
    operation that is followed by another has returned. *)
Lemma plain_returned {R} (s : script val R) lm h w n :
  shaped s lm ->
  (forall i, i < n -> lm.*2 !! i = Some false) ->
  n < length (trace_script h s w) ->
  Forall (returned h) (take n (trace_script h s w)).
Proof.
  intros Hs. induction n as [|n IH]; intros Hm Hn; [by rewrite take_0|].
  assert (Hall : Forall (returned h) (take n (trace_script h s w))).
  { apply IH; [intros; apply Hm|]; lia. }
  destruct (lookup_lt_is_Some_2 (trace_script h s w) n ltac:(lia))
    as [[e we] He].
  rewrite (take_S_r _ _ _ He). apply Forall_app. split; [done|].
  apply Forall_singleton.
  pose proof (lead_take h s w n Hall ltac:(lia)) as Ht.
  assert (Hlen : S n <= length (trace h (main_line s) w)).
  { apply (f_equal length) in Ht. rewrite !length_take in Ht. lia. }
  assert (Hmark : timed_script h s w !! n = Some false).
  { rewrite <- (lookup_take_lt _ (length (trace h (main_line s) w))) by lia.
    rewrite (shaped_lead s lm h w Hs), lookup_take_lt by lia.
    apply Hm. lia. }
  destruct (script_ends h s w n e we He) as [Hh Hr].
  destruct (h e we) as [v w2|x w2|] eqn:E.
  - by exists v, w2.
  - destruct (Hr x w2 eq_refl Hmark). lia.
  - destruct (Hh eq_refl). lia.
Qed.

End ScriptFacts.

(** ** The shape of detect *)

Section DetectShape.
Import Nb Audit.
Context {val : Type}.

Ltac labelled_step :=
  first [ apply labelled_ret
        | apply labelled_vis; intros ? ].

(** Split the listing after the [n] operations of the segment at the
    head of the script. *)
Ltac covers_segment n :=
  lazymatch goal with
  | |- covers (Plain ?p ?k) ?lm =>
      let l1 := eval vm_compute in ((take n lm).*1) in
      let rest := eval vm_compute in (drop n lm) in
      change (covers (Plain p k) (marked false l1 ++ rest));
      apply covers_plain; [cbv -[label]; repeat labelled_step|intros ?]
  | |- covers (Timed ?p ?k ?r) ?lm =>
      let l1 := eval vm_compute in ((take n lm).*1) in
      let rest := eval vm_compute in (drop n lm) in
      change (covers (Timed p k r) (marked true l1 ++ rest));
      apply covers_timed; [cbv -[label]; repeat labelled_step|intros ?|]
  end.

Ltac covers_skip n :=
  lazymatch goal with
  | |- covers ?s ?lm =>
      let l0 := eval vm_compute in (take n lm) in
      let rest := eval vm_compute in (drop n lm) in
      change (covers s (l0 ++ rest)); apply covers_skip
  end.

Lemma cells_after_covers (images : option val) :
  covers (Detect.cells_after images) (drop 40 detect_marked).
Proof.
  destruct images as [images|]; unfold Detect.cells_after.
  - covers_segment 24. apply covers_done.
  - covers_segment 1. apply covers_done.
Qed.

Lemma cell_ts_covers (model dataset : val) (images : option val) :
  covers (Detect.cell_ts model dataset images Detect.cells_after)
    (drop 37 detect_marked).
Proof.
  unfold Detect.cell_ts.
  covers_segment 1. covers_segment 2.
  - apply cells_after_covers.
  - apply cells_after_covers.
Qed.

Lemma from_model_covers (dataset : val) (images : option val) :
  covers (Plain Detect.cell_model (fun model =>
            Detect.cell_ts model dataset images Detect.cells_after))
    (drop 34 detect_marked).
Proof. covers_segment 3. apply cell_ts_covers. Qed.

Lemma detect_covers : covers (@Detect.notebook val) detect_marked.
Proof.
  unfold Detect.notebook, Detect.cell_smooth.
  covers_segment 25. covers_segment 1. covers_segment 4.
  - covers_segment 3.
    + covers_segment 1. apply from_model_covers.
    + covers_skip 1. apply from_model_covers.
  - covers_skip 4. apply from_model_covers.
Qed.

Ltac shaped_segment n :=
  lazymatch goal with
  | |- shaped (Plain ?p ?k) ?lm =>
      let l1 := eval vm_compute in ((take n lm).*1) in
      let rest := eval vm_compute in (drop n lm) in
      change (shaped (Plain p k) (marked false l1 ++ rest));
      apply shaped_plain; [cbv -[label]; repeat labelled_step|intros ?]
  | |- shaped (Timed ?p ?k ?r) ?lm =>
      let l1 := eval vm_compute in ((take n lm).*1) in
      let rest := eval vm_compute in (drop n lm) in
      change (shaped (Timed p k r) (marked true l1 ++ rest));
      apply shaped_timed; [cbv -[label]; repeat labelled_step|intros ?]
  end.

Lemma detect_shaped : shaped (@Detect.notebook val) detect_marked.
Proof.
  unfold Detect.notebook, Detect.cell_smooth, Detect.cell_ts,
    Detect.cells_after.
  shaped_segment 25. shaped_segment 1. shaped_segment 4. shaped_segment 3.
  shaped_segment 1. shaped_segment 3. shaped_segment 1. shaped_segment 2.
  shaped_segment 24. apply shaped_done.
Qed.

Lemma cells_after_resumes (images : option val) :
  resumes (Detect.cells_after images).
Proof. destruct images; repeat constructor. Qed.

Lemma from_model_resumes (dataset : val) (images : option val) :
  resumes (Plain Detect.cell_model (fun model =>
             Detect.cell_ts model dataset images Detect.cells_after)).
Proof.
  constructor. intros model. constructor. intros _. constructor.
  - intros v. apply cells_after_resumes.
  - destruct images; constructor.
  - apply cells_after_resumes.
Qed.

Lemma detect_resumes : resumes (@Detect.notebook val).
Proof.
  constructor. intros dataset. constructor. intros _. constructor.
  - intros images. constructor.
    + intros shown. constructor. intros _. apply from_model_resumes.
    + constructor.
    + apply from_model_resumes.
  - constructor.
  - apply from_model_resumes.
Qed.

End DetectShape.

(** ** Audits over the runs of a script *)

Section ScriptAudit.
Import Nb Audit.
Context {val world exn : Type}.
Implicit Types (h : runtime val world exn) (w : world).

Lemma sublist_filter_mono {A} (P : A -> Prop) `{!forall x, Decision (P x)}
    (l1 l2 : list A) :
  l1 `sublist_of` l2 -> filter P l1 `sublist_of` filter P l2.
Proof.
  induction 1 as [|x l1 l2 Hs IH|x l1 l2 Hs IH].
  - done.
  - rewrite !filter_cons. case_decide; [by constructor|done].
  - rewrite filter_cons. case_decide; [by constructor|done].
Qed.

(** Each operation issued carries the label of an entry of the listing. *)
Lemma covers_elem {R} (s : script val R) (ls : list (event nat)) lm h w e we :
  covers s lm -> lm.*1 = label <$> ls ->
  (e, we) ∈ trace_script h s w ->
  exists e', e' ∈ ls /\ label e = label e'.
Proof.
  intros Hc Hlm Hin.
  assert (Hl : label e ∈ label <$> ls).
  { rewrite <- Hlm.
    eapply elem_of_sublist; [|exact (covers_labels s lm h w Hc)].
    apply list_elem_of_fmap. exists e. split; [done|].
    apply list_elem_of_fmap. by exists (e, we). }
  apply list_elem_of_fmap in Hl as (e' & Hl & Hin'). eauto.
Qed.

(** A test that only reads labels, and that gives [b] on every entry of
    the listing, gives [b] on every operation of every run. *)
Lemma listing_to_script (P : forall A, event A -> bool) (b : bool)
    {R} (s : script val R) ls lm h w e we :
  (forall A B (f : A -> B) e, P B (emap f e) = P A e) ->
  covers s lm -> lm.*1 = label <$> ls ->
  Forall (fun e' => P nat e' = b) ls ->
  (e, we) ∈ trace_script h s w ->
  P val e = b.
Proof.
  intros Hinv Hc Hlm Hall Hin.
  destruct (covers_elem _ _ _ _ _ _ _ Hc Hlm Hin) as (e' & Hin' & Hl).
  rewrite Forall_forall in Hall. rewrite <- (Hall e' Hin').
  rewrite <- (Hinv _ _ (fun _ => tt) e), <- (Hinv _ _ (fun _ => tt) e').
  unfold label in Hl. by rewrite Hl.
Qed.

End ScriptAudit.

(** ** The notebooks under every runtime *)

Section NotebookFacts.
Import Nb Audit.
Context {val world exn : Type}.
Implicit Types (h : runtime val world exn) (w : world).

Lemma cta_ops_flows : flows (@nil val) Cta.notebook cta_ops.
Proof. apply cta_flows. Qed.

Lemma detect_ops_flows :
  flows (@nil val) (main_line Detect.notebook) detect_ops.
Proof. apply detect_flows. Qed.

(** What a program does when it raises: the last operation issued raised
    this exception in this world, all earlier ones returned, and the
    operations issued are the first ones of its listing. *)
Lemma raises_at_last {R} (p : prog val R) ls h w x w' :
  flows [] p ls ->
  run h p w = Raises x w' ->
  exists pre e we,
    trace h p w = pre ++ [(e, we)] /\
    h e we = Raises x w' /\
    Forall (returned h) pre /\
    label <$> (fst <$> trace h p w) = take (S (length pre)) (label <$> ls).
Proof.
  intros Hf Hrun.
  destruct (proj1 (run_raises_iff h p w x w') Hrun) as (pre & e & we & Ht & He).
  exists pre, e, we. repeat split; try done.
  - eapply trace_returned, Ht.
  - rewrite (flows_trace_labels _ _ _ h w Hf), Ht, length_app. cbn.
    by rewrite Nat.add_1_r.
Qed.

(** In a notebook without timed cells every exception an operation
    raises is the outcome of the run. *)
Lemma straight_line_propagates {R} (p : prog val R) h w :
  propagates h (trace h p w) (run h p w).
Proof.
  revert w. induction p as [r|e0 k IH]; intros w e we x w' Hin He.
  - by apply elem_of_nil in Hin.
  - cbn in *. apply elem_of_cons in Hin as [[= -> ->]|Hin].
    + by rewrite He.
    + destruct (h e0 w) eqn:E; [by eapply IH|by apply elem_of_nil in Hin..].
Qed.

Lemma detect_marked_labels : detect_marked.*1 = label <$> detect_ops.
Proof. by vm_compute. Qed.

(** C2, as amended.  In cta_sensitivity an exception raised by an
    operation is the outcome of the notebook, with the world as the
    operation left it: the operation is the last one issued, every earlier
    one had returned, and the operations issued are an initial segment of
    the listing.  In detect the same holds of every operation outside the
    bodies of cells 3 and 5, which stand under [%%time] (operations 26 to
    32, 38 and 39 of the listing): an exception raised there is caught by
    the magic and does not end the run, which goes on with the next
    operation in the world the exception left.  So when detect ends with
    an exception, the last operation issued raised it outside those
    bodies, and every earlier operation returned or raised inside one.  No
    run issues an operation again or adds one: the operations issued are
    entries of the listing in the listing's order, each used at most once,
    timed for timed.  The functions, classes and methods called are the
    ones listed, each the libraries' own or the builtin [len]: no cell
    calls a validation or recovery step. *)
Theorem library_errors_propagate h w x w' :
  (run h Cta.notebook w = Raises x w' ->
   exists pre e we,
     trace h Cta.notebook w = pre ++ [(e, we)] /\
     h e we = Raises x w' /\
     Forall (returned h) pre /\
     label <$> (fst <$> trace h Cta.notebook w)
     = take (S (length pre)) (label <$> cta_ops)) /\
  (forall pre e we,
     trace h Cta.notebook w = pre ++ [(e, we)] -> h e we = Raises x w' ->
     run h Cta.notebook w = Raises x w') /\
  propagates h (trace h Cta.notebook w) (run h Cta.notebook w) /\
  positions id detect_timed = [26; 27; 28; 29; 30; 31; 32; 38; 39] /\
  (run_script h Detect.notebook w = Raises x w' ->
   exists pre e we,
     trace_script h Detect.notebook w = pre ++ [(e, we)] /\
     h e we = Raises x w' /\
     timed_script h Detect.notebook w !! length pre = Some false /\
     (forall i ev, pre !! i = Some ev ->
        returned h ev \/
        (exists y w2, h ev.1 ev.2 = Raises y w2) /\
        timed_script h Detect.notebook w !! i = Some true) /\
     (Forall (returned h) pre ->
      label <$> (fst <$> trace_script h Detect.notebook w)
      = take (S (length pre)) (label <$> detect_ops))) /\
  (forall i e we,
     trace_script h Detect.notebook w !! i = Some (e, we) ->
     h e we = Raises x w' ->
     (timed_script h Detect.notebook w !! i = Some false ->
      run_script h Detect.notebook w = Raises x w' /\
      length (trace_script h Detect.notebook w) = S i) /\
     (timed_script h Detect.notebook w !! i = Some true ->
      exists e2, trace_script h Detect.notebook w !! S i = Some (e2, w'))) /\
  zip (label <$> (fst <$> trace_script h Detect.notebook w))
      (timed_script h Detect.notebook w) `sublist_of` detect_marked /\
  omap callee cta_ops
  = [ "SkyCoord"; "CircleSkyRegion"; "MapAxis.from_energy_bounds";
      "MapAxis.from_energy_bounds"; "SpectrumDataset.create";
      "load_cta_irfs"; "SkyCoord"; "Observation.create";
      "SpectrumDatasetMaker"; "run"; "containment_radius"; "np.cos";
      "np.cos"; "reshape"; "SpectrumDatasetOnOff.from_spectrum_dataset";
      "SensitivityEstimator"; "run"; "plt.plot"; "plt.plot"; "plt.loglog";
      "plt.xlabel"; "plt.ylabel"; "plt.legend"; "plt.subplots"; "plot";
      "loglog"; "set_xlabel"; "set_ylabel"; "twinx"; "set_ylabel";
      "semilogy"; "tick_params"; "set_ylim" ] /\
  omap callee detect_ops
  = [ "Map.read"; "Map.read"; "BackgroundModel"; "Map.read";
      "np.ones_like"; "astype"; "copy"; "EnergyDependentTablePSF.read";
      "PSFMap.from_energy_dependent_table_psf"; "MapDataset"; "to_image";
      "np.arange"; "u.Quantity"; "ASmoothMapEstimator"; "run";
      "plt.figure"; "plot"; "PointSpatialModel"; "PowerLawSpectralModel";
      "SkyModel"; "TSMapEstimator"; "run"; "plt.figure"; "plot";
      "plt.figure"; "plot"; "plt.figure"; "plot"; "find_peaks"; "len";
      "plt.figure"; "plot"; "plt.gca"; "get_transform"; "scatter" ].
Proof.
  split; [apply raises_at_last, cta_ops_flows|].
  split; [intros pre e we Ht He; apply run_raises_iff; eauto|].
  split; [apply straight_line_propagates|].
  split; [by vm_compute|].
  split; [|split; [|split; [|split; by vm_compute]]].
  - intros Hrun.
    destruct (script_raises h _ w x w' Hrun) as (pre & e & we & Ht & He & Hm).
    exists pre, e, we. split; [done|]. split; [done|]. split; [done|]. split.
    + intros i [e0 w0] Hi. apply (script_caught h _ w i e0 w0).
      * rewrite Ht. by apply lookup_app_l_Some.
      * rewrite Ht, length_app. cbn. apply lookup_lt_Some in Hi. lia.
    + intros Hall.
      pose proof (lead_labels h Detect.notebook detect_ops w (length pre)
                    detect_ops_flows) as Hl.
      rewrite Ht in Hl. rewrite take_app_length in Hl.
      rewrite (take_ge (pre ++ [(e, we)])) in Hl
        by (rewrite length_app; cbn; lia).
      rewrite Ht, (Hl Hall), length_app. cbn. by rewrite Nat.add_1_r.
  - intros i e we Hi He. split.
    + intros Hm. destruct (script_ends h _ w i e we Hi) as [_ H].
      by destruct (H x w' He Hm).
    + intros Hm.
      destruct (resumes_next _ h w i e we x w' detect_resumes Hi He Hm)
        as [[e2 w2] Hn].
      exists e2. rewrite Hn. do 2 f_equal.
      exact (sequenced_next h w _ i e we x w' (e2, w2)
               (trace_script_sequenced _ _ _) Hi He Hn).
  - apply covers_sublist, detect_covers.
Qed.

(** C2 as stated fails on detect: an exception that [ASmoothMapEstimator]
    raises in the body of cell 3 is caught by [%%time]; the run goes on
    with cell 4 and does not end with that exception. *)
Lemma timed_cell_catches :
  ~ propagates (Example.raising "ASmoothMapEstimator" "ValueError")
      (trace_script (Example.raising "ASmoothMapEstimator" "ValueError")
         Detect.notebook Example.start)
      (run_script (Example.raising "ASmoothMapEstimator" "ValueError")
         Detect.notebook Example.start).
Proof.
  intros H.
  specialize (H (Call "ASmoothMapEstimator" []
                   [("threshold", AInt 3); ("scales", AVal tt)])
                (28, []) "ValueError" (28, [])).
  discriminate H.
  - apply list_elem_of_lookup. exists 28. vm_compute. reflexivity.
  - reflexivity.
Qed.

(** When nothing raises, detect returns the table of candidates. *)
Lemma detect_returns_sources h w r w' :
  run h (main_line Detect.notebook) w = Returns r w' ->
  exists sources, r = Detect.Sources sources.
Proof.
  intros H.
  cbv [Detect.notebook Detect.cell_smooth Detect.cell_ts Detect.cells_after
       main_line] in H.
  repeat (cbv beta in H; rewrite run_bind in H;
          match type of H with
          | context [match run h ?p ?w0 with _ => _ end] =>
              destruct (run h p w0); try discriminate H
          end).
  cbn in H. injection H as <- _. by eexists.
Qed.

Lemma chained_take h w tr n : chained h w tr -> chained h w (take n tr).
Proof.
  revert w n. induction tr as [|[e we] tr IH]; intros w n H; [by destruct n|].
  destruct n as [|n]; [done|]. destruct H as [-> H]. cbn. split; [done|].
  destruct (h e w); [by apply IH|subst tr; by destruct n..].
Qed.

(** C6.  Each notebook is one fixed sequence of operations, the same
    whatever values come back: the 96 operations of the listing of
    cta_sensitivity, and the 64 of detect when nothing raises.  A run of
    cta_sensitivity issues them in order and stops early only where an
    operation raises or hangs.  So does a run of detect up to its first
    exception; an exception in a cell under [%%time] makes it leave out
    the rest of that cell's body, and what it issues afterwards are later
    entries of the listing, still in order.  So a run in which no
    operation issued hangs does not hang, a run in which every operation
    issued returns, returns (detect: the table of candidates) after the
    whole listing, and a run of cta_sensitivity that returns has issued
    the whole listing. *)
Theorem notebooks_are_straight_line_and_total h w :
  (flows (@nil val) Cta.notebook cta_ops /\
   flows (@nil val) (main_line Detect.notebook) detect_ops) /\
  (length cta_ops = 96 /\ length detect_ops = 64) /\
  (label <$> (fst <$> trace h Cta.notebook w)
   = take (length (trace h Cta.notebook w)) (label <$> cta_ops) /\
   (forall n,
      Forall (returned h) (take n (trace_script h Detect.notebook w)) ->
      label <$> (fst <$> take (S n) (trace_script h Detect.notebook w))
      = take (length (take (S n) (trace_script h Detect.notebook w)))
          (label <$> detect_ops)) /\
   label <$> (fst <$> trace_script h Detect.notebook w)
   `sublist_of` label <$> detect_ops) /\
  (length (trace h Cta.notebook w) <= 96 /\
   length (trace_script h Detect.notebook w) <= 64) /\
  ((forall e we, (e, we) ∈ trace h Cta.notebook w -> h e we <> Hangs) ->
   run h Cta.notebook w <> Hangs) /\
  ((forall e we, (e, we) ∈ trace_script h Detect.notebook w ->
                 h e we <> Hangs) ->
   run_script h Detect.notebook w <> Hangs) /\
  (Forall (returned h) (trace h Cta.notebook w) ->
   exists r w', run h Cta.notebook w = Returns r w') /\
  (Forall (returned h) (trace_script h Detect.notebook w) ->
   exists sources w',
     run_script h Detect.notebook w = Returns (Detect.Sources sources) w' /\
     length (trace_script h Detect.notebook w) = 64) /\
  (forall r w', run h Cta.notebook w = Returns r w' ->
                length (trace h Cta.notebook w) = 96) /\
  (forall r w',
     run_script h Detect.notebook w = Returns r w' ->
     forall i e we,
       trace_script h Detect.notebook w !! i = Some (e, we) ->
       returned h (e, we) \/
       (exists x w2, h e we = Raises x w2) /\
       timed_script h Detect.notebook w !! i = Some true).
Proof.
  pose proof cta_ops_flows as Hc. pose proof detect_ops_flows as Hd.
  assert (Hsub : label <$> (fst <$> trace_script h Detect.notebook w)
                 `sublist_of` label <$> detect_ops).
  { rewrite <- detect_marked_labels.
    exact (covers_labels Detect.notebook detect_marked h w detect_covers). }
  assert (Hlen : length (trace_script h Detect.notebook w) <= 64).
  { apply sublist_length in Hsub. by rewrite !length_fmap in Hsub. }
  split; [done|]. split; [done|].
  split; [split; [by apply flows_trace_labels with (env := [])|split]|].
  { intros n. by apply lead_labels. }
  { done. }
  split; [split; [apply (flows_trace_length _ _ _ h w Hc)|done]|].
  split; [apply run_total|]. split; [apply run_script_total|].
  split; [apply run_returns|]. split; [|split].
  - intros Hall. destruct (all_returned_lead h _ w Hall) as [Ht Hr].
    rewrite Ht in Hall. destruct (run_returns _ _ _ Hall) as (r & w' & Hrun).
    destruct (detect_returns_sources h w r w' Hrun) as [sources ->].
    exists sources, w'. rewrite Hr, Ht. split; [done|].
    exact (flows_returns_length _ _ _ h w _ w' Hd Hrun).
  - intros r w' Hr. exact (flows_returns_length _ _ _ h w r w' Hc Hr).
  - intros r w' Hrun i e we Hi.
    destruct (h e we) as [v w2|x w2|] eqn:E.
    + left. by exists v, w2.
    + right. split; [by eauto|].
      destruct (timed_script h Detect.notebook w !! i) as [[|]|] eqn:Em.
      * done.
      * destruct (script_ends h _ w i e we Hi) as [_ H].
        destruct (H x w2 E Em) as [_ H2]. congruence.
      * apply lookup_ge_None in Em. rewrite timed_script_length in Em.
        apply lookup_lt_Some in Hi. lia.
    + destruct (script_ends h _ w i e we Hi) as [H _].
      destruct (H E) as [_ H2]. congruence.
Qed.

(** C7.  Against libraries whose every operation is a function of its
    arguments and of the files - two calls with the same arguments in
    worlds with the same files have the same result and leave the same
    files - two runs of a notebook from worlds with the same files agree:
    both return the same table (cta_sensitivity) or come to the same end
    (detect: the same candidate list, or the same unbound name), or both
    raise the same exception, or both hang. *)
Theorem reruns_agree {F} (files : world -> F)
    (L : runtime_rel val world exn) w1 w2 :
  deterministic_in files L ->
  files w1 = files w2 ->
  (forall o1 o2,
     exec L Cta.notebook w1 o1 -> exec L Cta.notebook w2 o2 ->
     agree files o1 o2) /\
  (forall o1 o2,
     exec_script L Detect.notebook w1 o1 ->
     exec_script L Detect.notebook w2 o2 ->
     agree files o1 o2).
Proof.
  intros HL Hw. split; intros o1 o2.
  - by apply exec_agree.
  - by apply exec_script_agree.
Qed.

(** C10.  In every run of either notebook the operations come one at a
    time.  In cta_sensitivity each is issued in the world that the one
    before it returned, and none is issued after one that raised or hung.
    In detect each is issued in the world that the one before it left,
    none is issued after one that hung or that raised outside the cells
    under [%%time], and up to the first operation that did not return the
    run is chained as that of cta_sensitivity is.  Neither notebook
    imports a module that starts threads, processes or tasks, every
    function or class called is reached through an imported name or is a
    builtin, and no call passes an [n_jobs] keyword. *)
Theorem notebooks_are_sequential h w :
  chained h w (trace h Cta.notebook w) /\
  (sequenced h w (trace_script h Detect.notebook w) /\
   (forall i e we,
      trace_script h Detect.notebook w !! i = Some (e, we) ->
      h e we = Hangs \/
      (exists x w', h e we = Raises x w') /\
      timed_script h Detect.notebook w !! i = Some false ->
      length (trace_script h Detect.notebook w) = S i) /\
   (forall n,
      Forall (returned h) (take n (trace_script h Detect.notebook w)) ->
      chained h w (take (S n) (trace_script h Detect.notebook w)))) /\
  Forall (fun m => mem (root m) concurrency_modules = false)
         (imports cta_ops ++ imports detect_ops) /\
  names_bound cta_ops = true /\
  names_bound detect_ops = true /\
  Forall (fun e => mem "n_jobs" (keyword_names e) = false)
         (cta_ops ++ detect_ops).
Proof.
  split; [apply trace_chained|]. split.
  { split; [apply trace_script_sequenced|]. split.
    - intros i e we Hi [Hh|[(x & w' & Hr) Hm]].
      + destruct (script_ends h _ w i e we Hi) as [H _]. by destruct (H Hh).
      + destruct (script_ends h _ w i e we Hi) as [_ H].
        by destruct (H x w' Hr Hm).
    - intros n Hall.
      destruct (decide (n < length (trace_script h Detect.notebook w)))
        as [Hn|Hn].
      + rewrite (lead_take h _ w n Hall Hn). apply chained_take, trace_chained.
      + rewrite take_ge in Hall by lia. rewrite take_ge by lia.
        destruct (all_returned_lead h _ w Hall) as [-> _].
        apply trace_chained. }
  split; [by vm_compute; repeat constructor|].
  split; [by vm_compute|]. split; [by vm_compute|].
  apply Forall_forall. intros e He. revert e He. apply Forall_forall.
  vm_compute. repeat constructor.
Qed.

Lemma count_labels (P : forall A, event A -> bool) {A}
    (l : list (event A)) :
  (forall A B (f : A -> B) e, P B (emap f e) = P A e) ->
  length (filter (fun e => P A e = true) l)
  = length (filter (fun e => P unit e = true) (label <$> l)).
Proof.
  intros Hinv. induction l as [|e l IH]; [done|].
  rewrite fmap_cons.
  pose proof (Hinv A unit (fun _ => tt) e) as He. fold (label e) in He.
  destruct (P A e) eqn:E.
  - rewrite (filter_cons_True _ e) by done.
    rewrite (filter_cons_True _ (label e)) by (by rewrite He).
    cbn [length]. by rewrite IH.
  - rewrite (filter_cons_False _ e) by (by rewrite E).
    rewrite (filter_cons_False _ (label e)) by (by rewrite He).
    done.
Qed.

(** However far a run gets, it has issued no more operations of a kind
    than the listing holds. *)
Lemma count_in_trace (P : forall A, event A -> bool) {R} (p : prog val R)
    ls h w :
  (forall A B (f : A -> B) e, P B (emap f e) = P A e) ->
  flows [] p ls ->
  length (filter (fun e => P val e = true) (fst <$> trace h p w))
  <= length (filter (fun e => P nat e = true) ls).
Proof.
  intros Hinv Hf.
  rewrite (count_labels P _ Hinv), (flows_trace_labels _ _ _ h w Hf).
  etransitivity; [apply (filter_take_length (P unit))|].
  clear Hf. induction ls as [|e ls IH]; [done|].
  rewrite fmap_cons.
  pose proof (Hinv nat unit (fun _ => tt) e) as He. fold (label e) in He.
  destruct (P nat e) eqn:E.
  - rewrite (filter_cons_True _ e) by done.
    rewrite (filter_cons_True _ (label e)) by (by rewrite He).
    cbn [length]. apply le_n_S, IH.
  - rewrite (filter_cons_False _ e) by (by rewrite E).
    rewrite (filter_cons_False _ (label e)) by (by rewrite He).
    done.
Qed.

(** However a run goes, it has issued no more operations of a kind than
    the listing holds. *)
Lemma count_in_script (P : forall A, event A -> bool) {R}
    (s : script val R) ls lm h w :
  (forall A B (f : A -> B) e, P B (emap f e) = P A e) ->
  covers s lm -> lm.*1 = label <$> ls ->
  length (filter (fun e => P val e = true) (fst <$> trace_script h s w))
  <= length (filter (fun e => P nat e = true) ls).
Proof.
  intros Hinv Hc Hlm.
  rewrite (count_labels P _ Hinv), (count_labels P ls Hinv).
  apply sublist_length, sublist_filter_mono.
  rewrite <- Hlm. exact (covers_labels s lm h w Hc).
Qed.

(** C1, as amended.  The four named computations are calls into the
    library: the containment radius is [containment_radius] on the [psf]
    of the object [Observation.create] returned, and significance, TS map
    and adaptive smoothing are [run] on objects that [SensitivityEstimator],
    [TSMapEstimator] and [ASmoothMapEstimator] returned.  The cells of
    detect spell out no arithmetic.  Those of cta_sensitivity spell out
    seven operations: the products [0.1 * u.deg] (cell 3) and
    [0.5 * u.deg], and, in cell 6 (operations 24 to 46), the two in-place
    products, the two differences from 1 and their quotient.  This holds of
    every run: an arithmetic operation issued carries one of these seven
    labels. *)
Theorem arithmetic_is_the_containment_correction h w e we :
  (existsb (is_method_of_attr cta_ops "Observation.create" "psf"
              "containment_radius") cta_ops = true /\
   existsb (is_method_of cta_ops (String.eqb "SensitivityEstimator") "run")
           cta_ops = true /\
   existsb (is_method_of detect_ops (String.eqb "TSMapEstimator") "run")
           detect_ops = true /\
   existsb (is_method_of detect_ops (String.eqb "ASmoothMapEstimator") "run")
           detect_ops = true) /\
  filter (fun e => is_arith e = true) detect_ops = [] /\
  filter (fun e => is_arith e = true) cta_ops
  = [ BinOp Mult (AFloat 0.1) (AVal 13);
      AugOp Mult 26 (AFloat 0.68);
      BinOp Mult (AFloat 0.5) (AVal 31);
      BinOp Sub (AInt 1) (AVal 35);
      BinOp Sub (AInt 1) (AVal 38);
      BinOp Div (AVal 36) (AVal 39);
      AugOp Mult 42 (AVal 44) ] /\
  positions is_arith cta_ops = [14; 27; 32; 36; 39; 40; 45] /\
  listing (Cta.cell_containment 23 21 16 15) 24 = take 23 (drop 24 cta_ops) /\
  ((e, we) ∈ trace_script h Detect.notebook w -> is_arith e = false) /\
  ((e, we) ∈ trace h Cta.notebook w -> is_arith e = true ->
   label e ∈ label <$> filter (fun e => is_arith e = true) cta_ops).
Proof.
  split; [by vm_compute|]. split; [by vm_compute|]. split; [by vm_compute|].
  split; [by vm_compute|]. split; [by vm_compute|]. split.
  - apply (listing_to_script (@is_arith) false _ detect_ops detect_marked).
    + intros. apply is_arith_emap.
    + apply detect_covers.
    + apply detect_marked_labels.
    + apply Forall_forall. intros e' He'. revert e' He'. apply Forall_forall.
      vm_compute. repeat constructor.
  - intros Hin Ha.
    destruct (flows_trace_elem _ _ _ _ _ _ _ cta_ops_flows Hin)
      as (e' & Hin' & Hl).
    rewrite Hl. apply list_elem_of_fmap_2, list_elem_of_filter.
    split; [|exact Hin'].
    rewrite <- (is_arith_emap (fun _ => tt) e'). fold (label e').
    rewrite <- Hl. unfold label. by rewrite is_arith_emap.
Qed.

(** C1 as stated fails: cell 6 of cta_sensitivity multiplies, subtracts and
    divides. *)
Lemma cells_do_arithmetic : ~ no_arithmetic cta_ops.
Proof.
  unfold no_arithmetic. rewrite Forall_forall. intros H.
  specialize (H (AugOp Mult 26 (AFloat 0.68))).
  discriminate H. apply list_elem_of_lookup. by exists 27.
Qed.

(** C4.  No operation of any run of either notebook is a call that writes
    a file, and one that touches the file system at all is a read call
    whose only string argument is a path ending in [.fits] or [.fits.gz]:
    one such call in cta_sensitivity, four in detect.  The one write the
    source spells out, [sensitivity_table.write(...)], stands in a comment:
    the cell that holds it issues nothing, and the call is in no listing.
    So when the library's operations other than writes leave the files as
    they are when they return, a run that returns leaves them as they
    were: every such run of cta_sensitivity, and every such run of detect
    in which no operation raised; when those operations leave the files
    as they are also when they raise, every run of detect that returns,
    whatever was caught under [%%time] on the way. *)
Theorem notebooks_write_no_file {F} (files : world -> F) h w e we :
  ((e, we) ∈ trace h Cta.notebook w \/
   (e, we) ∈ trace_script h Detect.notebook w ->
   is_writer e = false /\
   (touches_files e = true ->
    is_reader e = true /\ forallb is_fits_path (string_args e) = true)) /\
  (filter (fun e => touches_files e = true) cta_ops
   = [ Call "load_cta_irfs"
         [AStr "$GAMMAPY_DATA/cta-1dc/caldb/data/cta/1dc/bcf/South_z20_50h/irf_file.fits"]
         [] ] /\
   filter (fun e => touches_files e = true) detect_ops
   = [ Call "Map.read"
         [AStr "$GAMMAPY_DATA/fermi-3fhl-gc/fermi-3fhl-gc-counts-cube.fits.gz"] [];
       Call "Map.read"
         [AStr "$GAMMAPY_DATA/fermi-3fhl-gc/fermi-3fhl-gc-background-cube.fits.gz"] [];
       Call "Map.read"
         [AStr "$GAMMAPY_DATA/fermi-3fhl-gc/fermi-3fhl-gc-exposure-cube.fits.gz"] [];
       Call "EnergyDependentTablePSF.read"
         [AStr "$GAMMAPY_DATA/fermi-3fhl-gc/fermi-3fhl-gc-psf-cube.fits.gz"] [] ]) /\
  (forall t : val,
     Cta.cell_save t = Ret tt /\
     is_writer (Cta.commented_write t) = true /\
     label (Cta.commented_write t) ∉ label <$> (cta_ops ++ detect_ops)) /\
  ((forall e we v w2,
      is_writer e = false -> h e we = Returns v w2 -> files w2 = files we) ->
   (forall r w', run h Cta.notebook w = Returns r w' -> files w' = files w) /\
   (forall r w',
      Forall (returned h) (trace_script h Detect.notebook w) ->
      run_script h Detect.notebook w = Returns r w' -> files w' = files w) /\
   ((forall e we y w2,
       is_writer e = false -> h e we = Raises y w2 -> files w2 = files we) ->
    forall r w',
      run_script h Detect.notebook w = Returns r w' -> files w' = files w)).
Proof.
  set (ok := fun A (e : event A) =>
               negb (is_writer e) &&
               implb (touches_files e)
                     (is_reader e && forallb is_fits_path (string_args e))).
  assert (Hinv : forall A B (f : A -> B) e, ok B (emap f e) = ok A e).
  { intros. unfold ok.
    by rewrite is_writer_emap, touches_files_emap, is_reader_emap,
      string_args_emap. }
  assert (Hcta : Forall (fun e' => ok nat e' = true) cta_ops).
  { apply Forall_forall. intros e' He'. revert e' He'. apply Forall_forall.
    vm_compute. repeat constructor. }
  assert (Hdet : Forall (fun e' => ok nat e' = true) detect_ops).
  { apply Forall_forall. intros e' He'. revert e' He'. apply Forall_forall.
    vm_compute. repeat constructor. }
  assert (Hok : forall e, ok val e = true ->
            is_writer e = false /\
            (touches_files e = true ->
             is_reader e = true /\
             forallb is_fits_path (string_args e) = true)).
  { intros e0. unfold ok. destruct (is_writer e0); [done|].
    destruct (touches_files e0); [|done]. cbn.
    intros H. split; [done|]. intros _. by apply andb_prop in H. }
  assert (Hnw_cta : forall e we, (e, we) ∈ trace h Cta.notebook w ->
            ok val e = true).
  { intros e0 we0 Hin.
    exact (listing_to_trace ok true [] _ cta_ops h w e0 we0
             Hinv cta_ops_flows Hcta Hin). }
  assert (Hnw_det : forall e we,
            (e, we) ∈ trace_script h Detect.notebook w -> ok val e = true).
  { intros e0 we0 Hin.
    exact (listing_to_script ok true _ detect_ops detect_marked h w e0 we0
             Hinv detect_covers detect_marked_labels Hdet Hin). }
  split; [|split; [|split]].
  - intros [Hin|Hin]; apply Hok; eauto.
  - by vm_compute.
  - intros t. split; [done|]. split; [done|].
    intros Hin. apply list_elem_of_fmap in Hin as (e' & Hl & Hin').
    assert (Hw : is_writer e' = true).
    { rewrite <- (is_writer_emap (fun _ => tt) e'). fold (label e').
      rewrite <- Hl. unfold label. by rewrite is_writer_emap. }
    apply elem_of_app in Hin' as [Hin'|Hin'].
    + rewrite Forall_forall in Hcta. specialize (Hcta e' Hin').
      unfold ok in Hcta. by rewrite Hw in Hcta.
    + rewrite Forall_forall in Hdet. specialize (Hdet e' Hin').
      unfold ok in Hdet. by rewrite Hw in Hdet.
  - intros Hlib. split; [|split].
    + intros r w'. apply run_preserves.
      intros e0 we0 v w2 Hin. apply Hlib.
      by destruct (Hok e0 (Hnw_cta e0 we0 Hin)).
    + intros r w' Hall.
      destruct (all_returned_lead h _ w Hall) as [Ht ->].
      apply run_preserves. rewrite <- Ht.
      intros e0 we0 v w2 Hin. apply Hlib.
      by destruct (Hok e0 (Hnw_det e0 we0 Hin)).
    + intros Hlib' r w'. apply run_script_preserves.
      * intros e0 we0 v w2 Hin. apply Hlib.
        by destruct (Hok e0 (Hnw_det e0 we0 Hin)).
      * intros e0 we0 y w2 Hin. apply Hlib'.
        by destruct (Hok e0 (Hnw_det e0 we0 Hin)).
Qed.

(** C5, as amended.  Each notebook reads its FITS inputs through read
    calls of the library (one in cta_sensitivity, four in detect), obtains
    dataset objects from dataset classes and makers (three operations, two
    operations), and only then creates its estimator objects - one in
    cta_sensitivity, two in detect - and runs each once; whatever is
    displayed or plotted comes after the first estimator has run.  A stage
    is thus not a single call, and cta_sensitivity creates its empty
    dataset (operation 18) before it reads the instrument responses
    (operation 19).  In every run at most two estimator objects are
    created. *)
Theorem stages_of_the_notebooks h w :
  (positions is_reader cta_ops = [19] /\
   positions is_reader detect_ops = [12; 13; 15; 21]) /\
  (positions (is_dataset_step cta_ops) cta_ops = [18; 23; 47] /\
   positions (is_dataset_step detect_ops) detect_ops = [23; 24]) /\
  (positions is_estimator cta_ops = [48] /\
   positions is_estimator detect_ops = [28; 38]) /\
  (positions (is_estimator_run cta_ops) cta_ops = [49] /\
   positions (is_estimator_run detect_ops) detect_ops = [29; 39]) /\
  (Forall (fun i => 49 < i) (positions is_inspect cta_ops) /\
   Forall (fun i => 29 < i) (positions is_inspect detect_ops)) /\
  (length (filter (fun e => is_estimator e = true)
                  (fst <$> trace h Cta.notebook w)) <= 1 /\
   length (filter (fun e => is_estimator e = true)
                  (fst <$> trace_script h Detect.notebook w)) <= 2).
Proof.
  split; [by vm_compute|]. split; [by vm_compute|]. split; [by vm_compute|].
  split; [by vm_compute|]. split.
  - split; vm_compute; repeat constructor.
  - split.
    + apply (count_in_trace (@is_estimator) _ cta_ops);
        [intros; apply is_estimator_emap|apply cta_ops_flows].
    + apply (count_in_script (@is_estimator) _ detect_ops detect_marked);
        [intros; apply is_estimator_emap|apply detect_covers
        |apply detect_marked_labels].
Qed.

(** C5 as stated fails on detect: its read stage is four calls. *)
Lemma detect_reads_four_files : ~ single_call_stages detect_ops.
Proof. intros [H _]. vm_compute in H. discriminate H. Qed.

End NotebookFacts.

(** * The theorems at work on small inputs *)

Section Witnesses.
Import Nb Audit Example.

Lemma fine_returns e w : fine e w = Returns tt (tick e w).
Proof. reflexivity. Defined.

(** The IRF file of cta_sensitivity is missing; the counts cube of detect
    is missing; [ASmoothMapEstimator] rejects its arguments. *)
Lemma library_errors_propagate_witness :
  (exists pre e we,
     trace (failing "load_cta_irfs") Cta.notebook start = pre ++ [(e, we)] /\
     failing "load_cta_irfs" e we = Raises "FileNotFoundError" (19, []) /\
     Forall (returned (failing "load_cta_irfs")) pre /\
     label <$> (fst <$> trace (failing "load_cta_irfs") Cta.notebook start)
     = take (S (length pre)) (label <$> cta_ops)) /\
  (exists pre e we,
     trace_script (failing "Map.read") Detect.notebook start
     = pre ++ [(e, we)] /\
     failing "Map.read" e we = Raises "FileNotFoundError" (12, []) /\
     timed_script (failing "Map.read") Detect.notebook start !! length pre
     = Some false) /\
  (exists e2,
     trace_script (raising "ASmoothMapEstimator" "ValueError")
       Detect.notebook start !! 29
     = Some (e2, (28, []))).
Proof.
  split; [|split].
  - apply (library_errors_propagate (failing "load_cta_irfs") start
             "FileNotFoundError" (19, [])).
    vm_compute. reflexivity.
  - destruct (library_errors_propagate (failing "Map.read") start
                "FileNotFoundError" (12, []))
      as (_ & _ & _ & _ & H & _).
    destruct H as (pre & e & we & H1 & H2 & H3 & _);
      [vm_compute; reflexivity|].
    exists pre, e, we. split; [exact H1|]. split; [exact H2|exact H3].
  - destruct (library_errors_propagate
                (raising "ASmoothMapEstimator" "ValueError") start
                "ValueError" (28, []))
      as (_ & _ & _ & _ & _ & H & _).
    destruct (H 28 (Call "ASmoothMapEstimator" []
                      [("threshold", AInt 3); ("scales", AVal tt)])
                (28, [])) as [_ H2];
      [vm_compute; reflexivity|reflexivity|].
    apply H2. vm_compute. reflexivity.
Defined.

Lemma notebooks_are_straight_line_and_total_witness :
  run fine Cta.notebook start <> Hangs /\
  run_script fine Detect.notebook start <> Hangs /\
  (exists r w', run fine Cta.notebook start = Returns r w') /\
  (exists sources w',
     run_script fine Detect.notebook start
     = Returns (Detect.Sources sources) w' /\
     length (trace_script fine Detect.notebook start) = 64).
Proof.
  destruct (notebooks_are_straight_line_and_total fine start)
    as (_ & _ & _ & _ & H1 & H2 & H3 & H4 & _).
  split; [|split; [|split]].
  - apply H1. intros e we _. rewrite fine_returns. discriminate.
  - apply H2. intros e we _. rewrite fine_returns. discriminate.
  - apply H3. vm_compute. repeat constructor; eexists _, _; reflexivity.
  - apply H4. vm_compute. repeat constructor; eexists _, _; reflexivity.
Defined.

Lemma reruns_agree_witness :
  agree snd (run fine Cta.notebook start) (run fine Cta.notebook (7, [])) /\
  agree snd (run_script fine Detect.notebook start)
    (run_script fine Detect.notebook (7, [])).
Proof.
  assert (Hdet : deterministic_in snd (graph fine)).
  { intros e [n1 f1] [n2 f2] o1 o2 Hf H1 H2. unfold graph in *.
    rewrite fine_returns in H1, H2. subst o1 o2. simpl in *. subst f2.
    split; reflexivity. }
  destruct (reruns_agree snd (graph fine) start (7, []) Hdet eq_refl)
    as [Hc Hd].
  split; [apply Hc; apply exec_run|apply Hd; apply exec_script_run].
Defined.

Lemma arithmetic_is_the_containment_correction_witness :
  label (AugOp Mult tt (AFloat 0.68) : event unit)
  ∈ label <$> filter (fun e => is_arith e = true) cta_ops.
Proof.
  destruct (arithmetic_is_the_containment_correction fine start
              (AugOp Mult tt (AFloat 0.68)) (27, []))
    as (_ & _ & _ & _ & _ & _ & H).
  apply H.
  - apply list_elem_of_lookup. exists 27. vm_compute. reflexivity.
  - reflexivity.
Defined.

Lemma notebooks_write_no_file_witness :
  (forall r w', run fine Cta.notebook start = Returns r w' -> w'.2 = []) /\
  (forall r w',
     run_script fine Detect.notebook start = Returns r w' -> w'.2 = []) /\
  is_reader (Call "load_cta_irfs"
    [AStr "$GAMMAPY_DATA/cta-1dc/caldb/data/cta/1dc/bcf/South_z20_50h/irf_file.fits"]
    [] : event unit) = true.
Proof.
  destruct (notebooks_write_no_file snd fine start
              (Call "load_cta_irfs"
                 [AStr "$GAMMAPY_DATA/cta-1dc/caldb/data/cta/1dc/bcf/South_z20_50h/irf_file.fits"]
                 []) (19, []))
    as (H1 & _ & _ & H4).
  destruct H4 as (Hc & _ & Hd).
  { intros e we v w2 Hw. rewrite fine_returns. intros [= _ <-].
    unfold tick. simpl. rewrite Hw. reflexivity. }
  split; [exact Hc|]. split.
  { apply Hd. intros e we y w2 _. rewrite fine_returns. discriminate. }
  apply H1; [|reflexivity].
  left. apply list_elem_of_lookup. exists 19. vm_compute. reflexivity.
Defined.

(** Two reconstructed-energy bins with radii 0.2 deg and 0.1 deg. *)
Lemma containment_correction_scales_witness :
  exists st' B',
    run_cell a_state = (inr tt, st') /\
    Nb.run python (CtaData.cell6 a_namespace) a_store
    = Nb.Returns
        (CtaData.VQuantity
           (CtaData.Quantity (Np.NdArray [2] [0.2; 0.1]%Q) "deg"))
        (CtaData.heap st') /\
    CtaData.heap st' !! 1%positive
    = Some (Np.NdArray [3] [100 * 0.68; 200 * 0.68; 300 * 0.68]%Q) /\
    CtaData.heap st' !! 2%positive = Some B' /\
    Np.shape B' = [2; 1; 1] /\
    Np.flat B' !! 0
    = Some (10 * ((1 - cos_deg 0.2) / (1 - cos_deg 0.1)))%Q /\
    Np.flat B' !! 1
    = Some (20 * ((1 - cos_deg 0.1) / (1 - cos_deg 0.1)))%Q.
Proof.
  destruct (containment_correction_scales Qmult Qminus Qdiv Q_of_Z id cos_in
              axis_center (fun _ : unit => tt) containment_radius
              a_state
              (Np.NdArray [3] [100; 200; 300]%Q)
              (Np.NdArray [2; 1; 1] [10; 20]%Q)
              2 1 1
              (CtaData.Quantity (Np.NdArray [1; 2] [0.2; 0.1]%Q) "deg")
              (Np.NdArray [2] [0.2; 0.1]%Q)
              cos_deg cos_deg)
    as (st' & B' & Hrun & Hpy & Ha & Hb & Hs & Hk);
    try reflexivity.
  { discriminate. }
  exists st', B'. split; [exact Hrun|]. split; [exact Hpy|].
  split; [exact Ha|].
  split; [exact Hb|]. split; [exact Hs|]. split.
  - apply (Hk 0 0 10%Q 0.2%Q); [lia|lia|reflexivity|reflexivity].
  - apply (Hk 1 0 20%Q 0.1%Q); [lia|lia|reflexivity|reflexivity].
Defined.

Lemma containment_correction_frame_witness :
  CtaData.same_bindings a_namespace (CtaData.names (run_cell a_state).2) /\
  CtaData.heap (run_cell a_state).2 !! 3%positive = a_store !! 3%positive.
Proof.
  destruct (containment_correction_frame Qmult Qminus Qdiv Q_of_Z id cos_in
              axis_center (fun _ : unit => tt) containment_radius
              a_state (run_cell a_state).2 (inr tt))
    as (_ & Hn & _ & He & _).
  - vm_compute. reflexivity.
  - discriminate.
  - discriminate.
  - split; [exact Hn|exact He].
Defined.


End Witnesses.

(** * Further facts *)

(** ** Values flow as the listing says *)

Section FlowFacts.
Import Nb.
Context {val world exn : Type}.
Implicit Types (h : runtime val world exn) (w : world).

Lemma amap_Some_default (f g : nat -> option val) (d : val) :
  extends f g ->
  forall (a' : arg nat) (a : arg val),
    amap Some a = amap f a' ->
    a = amap (fun j => default d (g j)) a'.
Proof.
  intros Hfg.
  fix IH 1. intros [s|z|q|b|v|l|l] [s0|z0|q0|b0|v0|l0|l0]; cbn;
    intros Heq; try discriminate Heq; try (injection Heq as ->; reflexivity).
  - injection Heq as Heq. symmetry in Heq. by rewrite (Hfg _ _ Heq).
  - injection Heq as Heq. f_equal. revert l0 Heq.
    induction l as [|a l IHl]; intros [|a0 l0] Heq; try discriminate Heq;
      [reflexivity|].
    cbn in Heq. injection Heq as Ha Hl. cbn. f_equal; [by apply IH|by apply IHl].
  - injection Heq as Heq. f_equal. revert l0 Heq.
    induction l as [|a l IHl]; intros [|a0 l0] Heq; try discriminate Heq;
      [reflexivity|].
    cbn in Heq. injection Heq as Ha Hl. cbn. f_equal; [by apply IH|by apply IHl].
Qed.

Lemma args_Some_default (f g : nat -> option val) (d : val) :
  extends f g ->
  forall (l' : list (arg nat)) (l : list (arg val)),
    map (amap Some) l = map (amap f) l' ->
    l = map (amap (fun j => default d (g j))) l'.
Proof.
  intros Hfg.
  induction l' as [|a' l' IH]; intros [|a l] Heq; try discriminate Heq;
    [reflexivity|].
  cbn in Heq. injection Heq as Ha Hl. cbn.
  f_equal; [by apply (amap_Some_default f g)|by apply IH].
Qed.

Lemma kwargs_Some_default (f g : nat -> option val) (d : val) :
  extends f g ->
  forall (l' : list (string * arg nat)) (l : list (string * arg val)),
    map (kwmap Some) l = map (kwmap f) l' ->
    l = map (kwmap (fun j => default d (g j))) l'.
Proof.
  intros Hfg.
  induction l' as [|[n' a'] l' IH]; intros [|[n a] l] Heq;
    try discriminate Heq; [reflexivity|].
  cbn in Heq. unfold kwmap at 1 3 in Heq. cbn in Heq.
  injection Heq as Hn Ha Hl. cbn. unfold kwmap at 1. cbn.
  f_equal; [|by apply IH].
  f_equal; [done|by apply (amap_Some_default f g)].
Qed.

Lemma fparts_Some_default (f g : nat -> option val) (d : val) :
  extends f g ->
  forall (l' : list (fpart nat)) (l : list (fpart val)),
    map (fmap_part Some) l = map (fmap_part f) l' ->
    l = map (fmap_part (fun j => default d (g j))) l'.
Proof.
  intros Hfg.
  induction l' as [|[s'|v'] l' IH]; intros [|[s|v] l] Heq;
    try discriminate Heq; try reflexivity;
    cbn in Heq; injection Heq as Hh Hl; cbn; f_equal; try (by apply IH).
  - by rewrite Hh.
  - symmetry in Hh. by rewrite (Hfg _ _ Hh).
Qed.

(** An operation that agrees with a listed one once values are looked up
    is the listed one with every number replaced by the value found. *)
Lemma emap_Some_default (f g : nat -> option val) (d : val)
    (e : event val) (e' : event nat) :
  extends f g ->
  emap Some e = emap f e' ->
  e = emap (fun j => default d (g j)) e'.
Proof.
  intros Hfg.
  destruct e', e; cbn; intros Heq; try discriminate Heq;
    injection Heq; intros; subst; cbn;
    repeat match goal with
      | H : Some _ = f _ |- _ =>
          symmetry in H; rewrite (Hfg _ _ H); clear H
      | H : map (amap Some) _ = map (amap f) _ |- _ =>
          apply (args_Some_default f g d Hfg) in H; rewrite <- H; clear H
      | H : map (kwmap Some) _ = map (kwmap f) _ |- _ =>
          apply (kwargs_Some_default f g d Hfg) in H; rewrite <- H; clear H
      | H : map (fmap_part Some) _ = map (fmap_part f) _ |- _ =>
          apply (fparts_Some_default f g d Hfg) in H; rewrite <- H; clear H
      | H : amap Some _ = amap f _ |- _ =>
          apply (amap_Some_default f g d Hfg) in H; rewrite <- H; clear H
      end; reflexivity.
Qed.

(** Every operation before the last one issued has handed back a value. *)
Lemma results_length {R} h (p : prog val R) w i ev :
  trace h p w !! i = Some ev -> i <= length (results h p w).
Proof.
  revert w i. induction p as [r|e k IH]; intros w i; cbn; [done|].
  destruct i as [|i]; [lia|]. cbn.
  destruct (h e w) as [v w1|x w1|]; cbn; [|done..].
  intros H. apply IH in H. lia.
Qed.

Lemma trace_lookup_returned {R} h (p : prog val R) w i j ev :
  trace h p w !! i = Some ev -> j < i ->
  exists ev', trace h p w !! j = Some ev' /\ returned h ev'.
Proof.
  revert w i j. induction p as [r|e k IH]; intros w i j; cbn; [done|].
  destruct i as [|i]; [lia|]. cbn.
  destruct (h e w) as [v w1|x w1|] eqn:He; cbn; [|done..].
  intros H Hj. destruct j as [|j].
  - exists (e, w). split; [done|]. by exists v, w1.
  - cbn. eapply IH; [exact H|lia].
Qed.

(** In every run, operation number [i] is entry [i] of the listing with
    each number [j] replaced by the result of operation [j]. *)
Lemma flows_trace_at {R} env (p : prog val R) ls h w i e we e' d :
  flows env p ls ->
  trace h p w !! i = Some (e, we) ->
  ls !! i = Some e' ->
  e = emap (fun j => default d ((env ++ results h p w) !! j)) e'.
Proof.
  intros Hf. revert w i. induction Hf as [env r|env e0 e0' k ls He Hk IH];
    intros w i; cbn; [done|].
  destruct i as [|i]; cbn.
  - intros [= <- <-] [= <-].
    apply (emap_Some_default (fun j => env !! j)); [|exact He].
    intros j v Hj. by apply lookup_app_l_Some.
  - destruct (h e0 w) as [v w1|x w1|]; cbn; [|done..].
    intros Ht Hl. rewrite (IH v w1 i Ht Hl).
    by rewrite <- app_assoc.
Qed.

(** The operation a run issues at number [i] is the listing's, applied to
    the values handed back before it. *)
Lemma flows_trace_env {R} env (p : prog val R) ls h w i e we e' :
  flows env p ls ->
  trace h p w !! i = Some (e, we) ->
  ls !! i = Some e' ->
  emap Some e
  = emap (fun j => (env ++ take i (results h p w)) !! j) e'.
Proof.
  intros Hf. revert w i. induction Hf as [env r|env e0 e0' k ls He Hk IH];
    intros w i Hi Hl; [done|].
  destruct i as [|i]; cbn in Hi, Hl.
  - injection Hi as -> ->. injection Hl as ->.
    by rewrite take_0, app_nil_r.
  - cbn [results]. destruct (h e0 w) as [v w1| |] eqn:E; [|done..].
    rewrite (IH v w1 i Hi Hl). cbn [take]. by rewrite <- app_assoc.
Qed.

End FlowFacts.

(** ** Which object each call is handed

    Operations are numbered from 0 in the order a notebook performs
    them; [op_at] is the operation a run performs at a number and
    [results] the objects the operations handed back. *)

Section DataFlowFacts.
Import Nb Audit.
Context {val world exn : Type}.
Implicit Types (h : runtime val world exn) (w : world).

(** Operation [i] of a run that reached operation [n], read off the
    listing. *)
Lemma op_at_listing {R} (p : prog val R) ls h w n i d e' :
  flows [] p ls ->
  is_Some (op_at h p w n) -> i <= n ->
  ls !! i = Some e' ->
  op_at h p w i = Some (emap (fun j => default d (results h p w !! j)) e').
Proof.
  intros Hf Hn Hi He'. unfold op_at in *.
  apply fmap_is_Some in Hn as [ev Hn].
  assert (exists ev', trace h p w !! i = Some ev') as [[e we] Hev].
  { destruct (decide (i = n)) as [->|]; [eauto|].
    destruct (trace_lookup_returned h p w n i ev Hn) as (ev' & ? & _);
      [lia|eauto]. }
  rewrite Hev. cbn. f_equal.
  exact (flows_trace_at [] p ls h w i e we e' d Hf Hev He').
Qed.

(** Every operation before [n] of a run that reached operation [n] has a
    result. *)
Lemma result_at {R} (p : prog val R) h w n j :
  is_Some (op_at h p w n) -> j < n ->
  is_Some (results h p w !! j).
Proof.
  unfold op_at. intros Hn Hj. apply fmap_is_Some in Hn as [ev Hn].
  apply lookup_lt_is_Some_2.
  apply results_length in Hn. lia.
Qed.

Ltac ev_simpl :=
  cbv beta iota delta [emap amap kwmap fmap_part map fst snd from_option id].

Ltac by_listing Hop ls :=
  match goal with
  | |- op_at _ _ _ ?i = Some _ =>
      let o := eval vm_compute in (ls !! i) in
      match o with
      | Some ?e' => rewrite (Hop i e' ltac:(lia) eq_refl)
      end;
      ev_simpl;
      repeat match goal with
             | H : results _ _ _ !! _ = Some _ |- _ => rewrite H
             end;
      reflexivity
  end.

(** X1.  In every run of cta_sensitivity that reaches cell 7, the on/off
    dataset is built from the very object the containment correction wrote
    to, after both in-place products: [dataset] is the result of
    [spectrum_maker.run] (operation 23), the arrays multiplied in place
    (operations 27 and 45) are reached from it through [.aeff.data.data]
    and [.background.data], and [from_spectrum_dataset] (operation 47) is
    handed that same object. *)
Theorem on_off_dataset_is_the_corrected_one h w :
  is_Some (op_at h Cta.notebook w 47) ->
  exists empty_dataset obs maker dataset aeff aeff_data arr background bdata
    fcol,
    results h Cta.notebook w !! 18 = Some empty_dataset /\
    results h Cta.notebook w !! 21 = Some obs /\
    results h Cta.notebook w !! 22 = Some maker /\
    op_at h Cta.notebook w 23
    = Some (Method maker "run" [AVal empty_dataset; AVal obs] []) /\
    results h Cta.notebook w !! 23 = Some dataset /\
    op_at h Cta.notebook w 24 = Some (GetAttr dataset "aeff") /\
    results h Cta.notebook w !! 24 = Some aeff /\
    op_at h Cta.notebook w 25 = Some (GetAttr aeff "data") /\
    results h Cta.notebook w !! 25 = Some aeff_data /\
    op_at h Cta.notebook w 26 = Some (GetAttr aeff_data "data") /\
    results h Cta.notebook w !! 26 = Some arr /\
    op_at h Cta.notebook w 27 = Some (AugOp Mult arr (AFloat 0.68)) /\
    op_at h Cta.notebook w 41 = Some (GetAttr dataset "background") /\
    results h Cta.notebook w !! 41 = Some background /\
    op_at h Cta.notebook w 42 = Some (GetAttr background "data") /\
    results h Cta.notebook w !! 42 = Some bdata /\
    results h Cta.notebook w !! 44 = Some fcol /\
    op_at h Cta.notebook w 45 = Some (AugOp Mult bdata (AVal fcol)) /\
    op_at h Cta.notebook w 47
    = Some (Call "SpectrumDatasetOnOff.from_spectrum_dataset" []
              [("dataset", AVal dataset); ("acceptance", AInt 1);
               ("acceptance_off", AInt 5)]).
Proof.
  intros Hn.
  pose proof (fun j => result_at Cta.notebook h w 47 j Hn) as Hres.
  destruct (Hres 18 ltac:(lia)) as [empty_dataset H18].
  destruct (Hres 21 ltac:(lia)) as [obs H21].
  destruct (Hres 22 ltac:(lia)) as [maker H22].
  destruct (Hres 23 ltac:(lia)) as [dataset H23].
  destruct (Hres 24 ltac:(lia)) as [aeff H24].
  destruct (Hres 25 ltac:(lia)) as [aeff_data H25].
  destruct (Hres 26 ltac:(lia)) as [arr H26].
  destruct (Hres 41 ltac:(lia)) as [background H41].
  destruct (Hres 42 ltac:(lia)) as [bdata H42].
  destruct (Hres 44 ltac:(lia)) as [fcol H44].
  pose proof (fun i e' =>
    op_at_listing Cta.notebook cta_ops h w 47 i empty_dataset e'
      cta_ops_flows Hn) as Hop.
  exists empty_dataset, obs, maker, dataset, aeff, aeff_data, arr, background,
    bdata, fcol.
  repeat split; try assumption; by_listing Hop cta_ops.
Qed.

(** X2.  In every run of cta_sensitivity that gets as far as the factor of
    cell 6, the correction is computed for the dataset it is applied to:
    the radii are asked of the PSF of the observation that
    [spectrum_maker.run] was handed, at the bin centres of the axis the
    empty dataset was created with as [e_reco], and the factor is
    normalised by the radius of the region that dataset was created
    with. *)
Theorem correction_matches_the_dataset h w :
  is_Some (op_at h Cta.notebook w 37) ->
  exists region e_reco e_true empty_dataset obs maker psf energy theta,
    results h Cta.notebook w !! 15 = Some region /\
    results h Cta.notebook w !! 16 = Some e_reco /\
    results h Cta.notebook w !! 17 = Some e_true /\
    op_at h Cta.notebook w 18
    = Some (Call "SpectrumDataset.create" []
              [("e_reco", AVal e_reco); ("e_true", AVal e_true);
               ("region", AVal region)]) /\
    results h Cta.notebook w !! 18 = Some empty_dataset /\
    results h Cta.notebook w !! 21 = Some obs /\
    op_at h Cta.notebook w 22
    = Some (Call "SpectrumDatasetMaker" []
              [("selection",
                AList [AStr "aeff"; AStr "edisp"; AStr "background"])]) /\
    results h Cta.notebook w !! 22 = Some maker /\
    op_at h Cta.notebook w 23
    = Some (Method maker "run" [AVal empty_dataset; AVal obs] []) /\
    op_at h Cta.notebook w 29 = Some (GetAttr obs "psf") /\
    results h Cta.notebook w !! 29 = Some psf /\
    op_at h Cta.notebook w 30 = Some (GetAttr e_reco "center") /\
    results h Cta.notebook w !! 30 = Some energy /\
    results h Cta.notebook w !! 32 = Some theta /\
    op_at h Cta.notebook w 33
    = Some (Method psf "containment_radius" []
              [("energy", AVal energy); ("theta", AVal theta);
               ("fraction", AFloat 0.68)]) /\
    op_at h Cta.notebook w 37 = Some (GetAttr region "radius").
Proof.
  intros Hn.
  pose proof (fun j => result_at Cta.notebook h w 37 j Hn) as Hres.
  destruct (Hres 15 ltac:(lia)) as [region H15].
  destruct (Hres 16 ltac:(lia)) as [e_reco H16].
  destruct (Hres 17 ltac:(lia)) as [e_true H17].
  destruct (Hres 18 ltac:(lia)) as [empty_dataset H18].
  destruct (Hres 21 ltac:(lia)) as [obs H21].
  destruct (Hres 22 ltac:(lia)) as [maker H22].
  destruct (Hres 29 ltac:(lia)) as [psf H29].
  destruct (Hres 30 ltac:(lia)) as [energy H30].
  destruct (Hres 32 ltac:(lia)) as [theta H32].
  pose proof (fun i e' =>
    op_at_listing Cta.notebook cta_ops h w 37 i region e'
      cta_ops_flows Hn) as Hop.
  exists region, e_reco, e_true, empty_dataset, obs, maker, psf, energy, theta.
  repeat split; try assumption; by_listing Hop cta_ops.
Qed.

(** X3.  In every run of cta_sensitivity that reaches the control plot,
    what is shown is what was computed: the table displayed and plotted
    is the result of the [run] of the [SensitivityEstimator] on the on/off
    dataset made of [dataset], and the radii drawn by [semilogy] are the
    [on_radii], item 0 of what [containment_radius] returned, whose cosine
    entered the background factor. *)
Theorem plots_show_what_was_computed h w :
  is_Some (op_at h Cta.notebook w 92) ->
  exists dataset psf energy theta radii on_radii on_off estimator table ax2 en,
    results h Cta.notebook w !! 23 = Some dataset /\
    results h Cta.notebook w !! 29 = Some psf /\
    results h Cta.notebook w !! 30 = Some energy /\
    results h Cta.notebook w !! 32 = Some theta /\
    op_at h Cta.notebook w 33
    = Some (Method psf "containment_radius" []
              [("energy", AVal energy); ("theta", AVal theta);
               ("fraction", AFloat 0.68)]) /\
    results h Cta.notebook w !! 33 = Some radii /\
    op_at h Cta.notebook w 34 = Some (GetItem radii (AInt 0)) /\
    results h Cta.notebook w !! 34 = Some on_radii /\
    op_at h Cta.notebook w 35 = Some (Call "np.cos" [AVal on_radii] []) /\
    op_at h Cta.notebook w 47
    = Some (Call "SpectrumDatasetOnOff.from_spectrum_dataset" []
              [("dataset", AVal dataset); ("acceptance", AInt 1);
               ("acceptance_off", AInt 5)]) /\
    results h Cta.notebook w !! 47 = Some on_off /\
    op_at h Cta.notebook w 48
    = Some (Call "SensitivityEstimator" []
              [("gamma_min", AInt 5); ("sigma", AInt 3)]) /\
    results h Cta.notebook w !! 48 = Some estimator /\
    op_at h Cta.notebook w 49 = Some (Method estimator "run" [AVal on_off] []) /\
    results h Cta.notebook w !! 49 = Some table /\
    op_at h Cta.notebook w 50 = Some (Display table) /\
    results h Cta.notebook w !! 87 = Some ax2 /\
    op_at h Cta.notebook w 88 = Some (GetAttr on_radii "unit") /\
    op_at h Cta.notebook w 91 = Some (GetItem table (AStr "energy")) /\
    results h Cta.notebook w !! 91 = Some en /\
    op_at h Cta.notebook w 92
    = Some (Method ax2 "semilogy" [AVal en; AVal on_radii]
              [("color", AStr "red"); ("label", AStr "PSF68")]).
Proof.
  intros Hn.
  pose proof (fun j => result_at Cta.notebook h w 92 j Hn) as Hres.
  destruct (Hres 23 ltac:(lia)) as [dataset H23].
  destruct (Hres 29 ltac:(lia)) as [psf H29].
  destruct (Hres 30 ltac:(lia)) as [energy H30].
  destruct (Hres 32 ltac:(lia)) as [theta H32].
  destruct (Hres 33 ltac:(lia)) as [radii H33].
  destruct (Hres 34 ltac:(lia)) as [on_radii H34].
  destruct (Hres 47 ltac:(lia)) as [on_off H47].
  destruct (Hres 48 ltac:(lia)) as [estimator H48].
  destruct (Hres 49 ltac:(lia)) as [table H49].
  destruct (Hres 87 ltac:(lia)) as [ax2 H87].
  destruct (Hres 91 ltac:(lia)) as [en H91].
  pose proof (fun i e' =>
    op_at_listing Cta.notebook cta_ops h w 92 i dataset e'
      cta_ops_flows Hn) as Hop.
  exists dataset, psf, energy, theta, radii, on_radii, on_off, estimator,
    table, ax2, en.
  repeat split; try assumption; by_listing Hop cta_ops.
Qed.

(** X4.  In the sensitivity plot of cta_sensitivity each curve pairs
    energies and sensitivities of the same rows: the [energy] and
    [e2dnde] columns of the one table are indexed with the same mask,
    which is the [criterion] column of that table compared with the
    curve's label. *)
Theorem curves_pair_matching_rows h w :
  is_Some (op_at h Cta.notebook w 64) ->
  exists table crit_s is_s en_s x_s fl_s y_s crit_g is_g en_g x_g fl_g y_g,
    results h Cta.notebook w !! 49 = Some table /\
    op_at h Cta.notebook w 51 = Some (GetItem table (AStr "criterion")) /\
    results h Cta.notebook w !! 51 = Some crit_s /\
    op_at h Cta.notebook w 52
    = Some (Compare Eq (AVal crit_s) (AStr "significance")) /\
    results h Cta.notebook w !! 52 = Some is_s /\
    op_at h Cta.notebook w 53 = Some (GetItem table (AStr "energy")) /\
    results h Cta.notebook w !! 53 = Some en_s /\
    op_at h Cta.notebook w 54 = Some (GetItem en_s (AVal is_s)) /\
    results h Cta.notebook w !! 54 = Some x_s /\
    op_at h Cta.notebook w 55 = Some (GetItem table (AStr "e2dnde")) /\
    results h Cta.notebook w !! 55 = Some fl_s /\
    op_at h Cta.notebook w 56 = Some (GetItem fl_s (AVal is_s)) /\
    results h Cta.notebook w !! 56 = Some y_s /\
    op_at h Cta.notebook w 57
    = Some (Call "plt.plot" [AVal x_s; AVal y_s; AStr "s-"]
              [("color", AStr "red"); ("label", AStr "significance")]) /\
    op_at h Cta.notebook w 58 = Some (GetItem table (AStr "criterion")) /\
    results h Cta.notebook w !! 58 = Some crit_g /\
    op_at h Cta.notebook w 59 = Some (Compare Eq (AVal crit_g) (AStr "gamma")) /\
    results h Cta.notebook w !! 59 = Some is_g /\
    op_at h Cta.notebook w 60 = Some (GetItem table (AStr "energy")) /\
    results h Cta.notebook w !! 60 = Some en_g /\
    op_at h Cta.notebook w 61 = Some (GetItem en_g (AVal is_g)) /\
    results h Cta.notebook w !! 61 = Some x_g /\
    op_at h Cta.notebook w 62 = Some (GetItem table (AStr "e2dnde")) /\
    results h Cta.notebook w !! 62 = Some fl_g /\
    op_at h Cta.notebook w 63 = Some (GetItem fl_g (AVal is_g)) /\
    results h Cta.notebook w !! 63 = Some y_g /\
    op_at h Cta.notebook w 64
    = Some (Call "plt.plot" [AVal x_g; AVal y_g; AStr "*-"]
              [("color", AStr "blue"); ("label", AStr "gamma")]).
Proof.
  intros Hn.
  pose proof (fun j => result_at Cta.notebook h w 64 j Hn) as Hres.
  destruct (Hres 49 ltac:(lia)) as [table H49].
  destruct (Hres 51 ltac:(lia)) as [crit_s H51].
  destruct (Hres 52 ltac:(lia)) as [is_s H52].
  destruct (Hres 53 ltac:(lia)) as [en_s H53].
  destruct (Hres 54 ltac:(lia)) as [x_s H54].
  destruct (Hres 55 ltac:(lia)) as [fl_s H55].
  destruct (Hres 56 ltac:(lia)) as [y_s H56].
  destruct (Hres 58 ltac:(lia)) as [crit_g H58].
  destruct (Hres 59 ltac:(lia)) as [is_g H59].
  destruct (Hres 60 ltac:(lia)) as [en_g H60].
  destruct (Hres 61 ltac:(lia)) as [x_g H61].
  destruct (Hres 62 ltac:(lia)) as [fl_g H62].
  destruct (Hres 63 ltac:(lia)) as [y_g H63].
  pose proof (fun i e' =>
    op_at_listing Cta.notebook cta_ops h w 64 i table e'
      cta_ops_flows Hn) as Hop.
  exists table, crit_s, is_s, en_s, x_s, fl_s, y_s, crit_g, is_g, en_g, x_g,
    fl_g, y_g.
  repeat split; try assumption; by_listing Hop cta_ops.
Qed.

(** Every operation before [n] of a run of a script has handed back a
    value, when all of them returned and the run got to operation [n]. *)
Lemma script_result_at {R} (s : script val R) h w n j :
  Forall (returned h) (take n (trace_script h s w)) ->
  is_Some (op_in (trace_script h s w) n) -> j < n ->
  is_Some (value_in h (trace_script h s w) j).
Proof.
  unfold op_in, value_in. intros Hall Hn Hj.
  apply fmap_is_Some in Hn. apply lookup_lt_is_Some_1 in Hn.
  destruct (lookup_lt_is_Some_2 (trace_script h s w) j ltac:(lia))
    as [ev Hev].
  rewrite Hev. cbn.
  rewrite Forall_forall in Hall.
  destruct (Hall ev) as (v & w' & E).
  { apply list_elem_of_lookup. exists j. by rewrite lookup_take_lt. }
  rewrite E. by eexists.
Qed.

(** Operation [i] of such a run, read off the listing of the main line. *)
Lemma script_op_at_listing {R} (s : script val R) ls h w n i d e' :
  flows [] (main_line s) ls ->
  Forall (returned h) (take n (trace_script h s w)) ->
  is_Some (op_in (trace_script h s w) n) -> i <= n ->
  ls !! i = Some e' ->
  op_in (trace_script h s w) i
  = Some (emap (fun j => default d (value_in h (trace_script h s w) j)) e').
Proof.
  unfold op_in. intros Hf Hall Hn Hi He'.
  apply fmap_is_Some in Hn. apply lookup_lt_is_Some_1 in Hn.
  pose proof (fun j => lead_lookup h s w n j Hall Hn) as Hlead.
  destruct (lookup_lt_is_Some_2 (trace_script h s w) i ltac:(lia))
    as [[e we] Hev].
  rewrite Hev. cbn. f_equal.
  rewrite Hlead in Hev by done.
  apply (emap_Some_default
           (fun j => take i (results h (main_line s) w) !! j)).
  - intros j v Hj. apply lookup_take_Some in Hj as [Hj Hlt].
    unfold value_in. rewrite Hlead by lia.
    rewrite <- value_in_results in Hj. exact Hj.
  - exact (flows_trace_env [] _ ls h w i e we e' Hf Hev He').
Qed.

(** The operations of detect before cell 3 are under no [%%time]: each
    one that is followed by another has returned. *)
Lemma detect_plain_returned h w n :
  n <= 26 ->
  is_Some (op_in (trace_script h Detect.notebook w) n) ->
  Forall (returned h) (take n (trace_script h Detect.notebook w)).
Proof.
  intros Hle Hn. unfold op_in in Hn.
  apply fmap_is_Some in Hn. apply lookup_lt_is_Some_1 in Hn.
  apply (plain_returned Detect.notebook detect_marked).
  - apply detect_shaped.
  - intros i Hi. assert (Hi' : i < 26) by lia. clear -Hi'.
    do 26 (destruct i as [|i]; [reflexivity|]). lia.
  - exact Hn.
Qed.

Ltac by_script_listing Hop ls :=
  match goal with
  | |- op_in _ ?i = Some _ =>
      let o := eval vm_compute in (ls !! i) in
      match o with
      | Some ?e' => rewrite (Hop i e' ltac:(lia) eq_refl)
      end;
      ev_simpl;
      repeat match goal with
             | H : value_in _ _ _ = Some _ |- _ => rewrite H
             end;
      reflexivity
  end.

(** X5.  In detect the name [dataset] is rebound by [to_image] before
    either estimator exists.  So in every run in which the operations
    before the [run] of the [TSMapEstimator] all returned, and which
    issues that [run], both estimators, the [ASmoothMapEstimator] and the
    [TSMapEstimator], run on the same object, the result of [to_image];
    the TS estimator is built for the sky model of the point source with
    the power law. *)
Theorem estimators_run_on_the_image_dataset h w :
  Forall (returned h) (take 39 (trace_script h Detect.notebook w)) ->
  is_Some (op_in (trace_script h Detect.notebook w) 39) ->
  exists cube image scales smooth spatial spectral model estimator,
    value_in h (trace_script h Detect.notebook w) 23 = Some cube /\
    op_in (trace_script h Detect.notebook w) 24
    = Some (Method cube "to_image" [] []) /\
    value_in h (trace_script h Detect.notebook w) 24 = Some image /\
    value_in h (trace_script h Detect.notebook w) 27 = Some scales /\
    op_in (trace_script h Detect.notebook w) 28
    = Some (Call "ASmoothMapEstimator" []
              [("threshold", AInt 3); ("scales", AVal scales)]) /\
    value_in h (trace_script h Detect.notebook w) 28 = Some smooth /\
    op_in (trace_script h Detect.notebook w) 29
    = Some (Method smooth "run" [AVal image] []) /\
    op_in (trace_script h Detect.notebook w) 34
    = Some (Call "PointSpatialModel" [] []) /\
    value_in h (trace_script h Detect.notebook w) 34 = Some spatial /\
    op_in (trace_script h Detect.notebook w) 35
    = Some (Call "PowerLawSpectralModel" [] [("index", AInt 2)]) /\
    value_in h (trace_script h Detect.notebook w) 35 = Some spectral /\
    op_in (trace_script h Detect.notebook w) 36
    = Some (Call "SkyModel" []
              [("spatial_model", AVal spatial);
               ("spectral_model", AVal spectral)]) /\
    value_in h (trace_script h Detect.notebook w) 36 = Some model /\
    op_in (trace_script h Detect.notebook w) 38
    = Some (Call "TSMapEstimator" [AVal model]
              [("kernel_width", AStr "0.4 deg")]) /\
    value_in h (trace_script h Detect.notebook w) 38 = Some estimator /\
    op_in (trace_script h Detect.notebook w) 39
    = Some (Method estimator "run" [AVal image] []).
Proof.
  intros Hall Hn.
  pose proof (fun j =>
    script_result_at Detect.notebook h w 39 j Hall Hn) as Hres.
  destruct (Hres 23 ltac:(lia)) as [cube H23].
  destruct (Hres 24 ltac:(lia)) as [image H24].
  destruct (Hres 27 ltac:(lia)) as [scales H27].
  destruct (Hres 28 ltac:(lia)) as [smooth H28].
  destruct (Hres 34 ltac:(lia)) as [spatial H34].
  destruct (Hres 35 ltac:(lia)) as [spectral H35].
  destruct (Hres 36 ltac:(lia)) as [model H36].
  destruct (Hres 38 ltac:(lia)) as [estimator H38].
  pose proof (fun i e' =>
    script_op_at_listing Detect.notebook detect_ops h w 39 i cube e'
      detect_ops_flows Hall Hn) as Hop.
  exists cube, image, scales, smooth, spatial, spectral, model, estimator.
  repeat split; try assumption; by_script_listing Hop detect_ops.
Qed.

(** X6.  In detect the name [images] is rebound by the TS estimator.  So
    in every run that gets to the last operation with every earlier
    operation returned, the peaks are searched in the [sqrt_ts] map of the
    result of the [TSMapEstimator], not in the result of the
    [ASmoothMapEstimator] (whose [counts] item cell 3 reads), and the
    positions drawn in the last cell are the [ra] and [dec] columns of the
    table [find_peaks] returned, drawn on the axes of the plot of that
    same result's [sqrt_ts] map. *)
Theorem peaks_come_from_the_ts_map h w :
  Forall (returned h) (take 63 (trace_script h Detect.notebook w)) ->
  is_Some (op_in (trace_script h Detect.notebook w) 63) ->
  exists image scales smooth smoothed model estimator maps sqrt_ts sources
    shown fig ax ra dec gca tr,
    value_in h (trace_script h Detect.notebook w) 24 = Some image /\
    value_in h (trace_script h Detect.notebook w) 27 = Some scales /\
    op_in (trace_script h Detect.notebook w) 28
    = Some (Call "ASmoothMapEstimator" []
              [("threshold", AInt 3); ("scales", AVal scales)]) /\
    value_in h (trace_script h Detect.notebook w) 28 = Some smooth /\
    op_in (trace_script h Detect.notebook w) 29
    = Some (Method smooth "run" [AVal image] []) /\
    value_in h (trace_script h Detect.notebook w) 29 = Some smoothed /\
    op_in (trace_script h Detect.notebook w) 31
    = Some (GetItem smoothed (AStr "counts")) /\
    value_in h (trace_script h Detect.notebook w) 36 = Some model /\
    op_in (trace_script h Detect.notebook w) 38
    = Some (Call "TSMapEstimator" [AVal model]
              [("kernel_width", AStr "0.4 deg")]) /\
    value_in h (trace_script h Detect.notebook w) 38 = Some estimator /\
    op_in (trace_script h Detect.notebook w) 39
    = Some (Method estimator "run" [AVal image] []) /\
    value_in h (trace_script h Detect.notebook w) 39 = Some maps /\
    op_in (trace_script h Detect.notebook w) 49
    = Some (GetItem maps (AStr "sqrt_ts")) /\
    value_in h (trace_script h Detect.notebook w) 49 = Some sqrt_ts /\
    op_in (trace_script h Detect.notebook w) 50
    = Some (Call "find_peaks" [AVal sqrt_ts]
              [("threshold", AInt 8); ("min_distance", AInt 1)]) /\
    value_in h (trace_script h Detect.notebook w) 50 = Some sources /\
    op_in (trace_script h Detect.notebook w) 52 = Some (Display sources) /\
    op_in (trace_script h Detect.notebook w) 54
    = Some (GetItem maps (AStr "sqrt_ts")) /\
    value_in h (trace_script h Detect.notebook w) 54 = Some shown /\
    op_in (trace_script h Detect.notebook w) 55
    = Some (Method shown "plot" [] [("add_cbar", ABool true)]) /\
    value_in h (trace_script h Detect.notebook w) 55 = Some fig /\
    op_in (trace_script h Detect.notebook w) 57 = Some (UnpackItem fig 3 1) /\
    value_in h (trace_script h Detect.notebook w) 57 = Some ax /\
    op_in (trace_script h Detect.notebook w) 59
    = Some (GetItem sources (AStr "ra")) /\
    value_in h (trace_script h Detect.notebook w) 59 = Some ra /\
    op_in (trace_script h Detect.notebook w) 60
    = Some (GetItem sources (AStr "dec")) /\
    value_in h (trace_script h Detect.notebook w) 60 = Some dec /\
    value_in h (trace_script h Detect.notebook w) 61 = Some gca /\
    op_in (trace_script h Detect.notebook w) 62
    = Some (Method gca "get_transform" [AStr "icrs"] []) /\
    value_in h (trace_script h Detect.notebook w) 62 = Some tr /\
    op_in (trace_script h Detect.notebook w) 63
    = Some (Method ax "scatter" [AVal ra; AVal dec]
              [("transform", AVal tr); ("color", AStr "none");
               ("edgecolor", AStr "w"); ("marker", AStr "o");
               ("s", AInt 600); ("lw", AFloat 1.5)]).
Proof.
  intros Hall Hn.
  pose proof (fun j =>
    script_result_at Detect.notebook h w 63 j Hall Hn) as Hres.
  destruct (Hres 24 ltac:(lia)) as [image H24].
  destruct (Hres 27 ltac:(lia)) as [scales H27].
  destruct (Hres 28 ltac:(lia)) as [smooth H28].
  destruct (Hres 29 ltac:(lia)) as [smoothed H29].
  destruct (Hres 36 ltac:(lia)) as [model H36].
  destruct (Hres 38 ltac:(lia)) as [estimator H38].
  destruct (Hres 39 ltac:(lia)) as [maps H39].
  destruct (Hres 49 ltac:(lia)) as [sqrt_ts H49].
  destruct (Hres 50 ltac:(lia)) as [sources H50].
  destruct (Hres 54 ltac:(lia)) as [shown H54].
  destruct (Hres 55 ltac:(lia)) as [fig H55].
  destruct (Hres 57 ltac:(lia)) as [ax H57].
  destruct (Hres 59 ltac:(lia)) as [ra H59].
  destruct (Hres 60 ltac:(lia)) as [dec H60].
  destruct (Hres 61 ltac:(lia)) as [gca H61].
  destruct (Hres 62 ltac:(lia)) as [tr H62].
  pose proof (fun i e' =>
    script_op_at_listing Detect.notebook detect_ops h w 63 i image e'
      detect_ops_flows Hall Hn) as Hop.
  exists image, scales, smooth, smoothed, model, estimator, maps, sqrt_ts,
    sources, shown, fig, ax, ra, dec, gca, tr.
  repeat split; try assumption; by_script_listing Hop detect_ops.
Qed.

(** X7.  In detect the name [background] is rebound from the map read to
    the model built of it, and the unit of the exposure is set on the
    object itself: in every run [MapDataset] is handed the counts map
    read, the background model built of the background map read, for the
    dataset name that [MapDataset] is given, the exposure map read, whose
    [unit] was set to [cm2s] before the call, and the PSF map made of the
    table PSF read. *)
Theorem dataset_is_built_from_what_was_prepared h w :
  is_Some (op_in (trace_script h Detect.notebook w) 23) ->
  exists counts bmap model exposure mask table psfmap,
    op_in (trace_script h Detect.notebook w) 12
    = Some (Call "Map.read"
              [AStr
                 "$GAMMAPY_DATA/fermi-3fhl-gc/fermi-3fhl-gc-counts-cube.fits.gz"]
              []) /\
    value_in h (trace_script h Detect.notebook w) 12 = Some counts /\
    op_in (trace_script h Detect.notebook w) 13
    = Some (Call "Map.read"
              [AStr
                 "$GAMMAPY_DATA/fermi-3fhl-gc/fermi-3fhl-gc-background-cube.fits.gz"]
              []) /\
    value_in h (trace_script h Detect.notebook w) 13 = Some bmap /\
    op_in (trace_script h Detect.notebook w) 14
    = Some (Call "BackgroundModel" [AVal bmap]
              [("datasets_names", AList [AStr "fermi-3fhl-gc"])]) /\
    value_in h (trace_script h Detect.notebook w) 14 = Some model /\
    op_in (trace_script h Detect.notebook w) 15
    = Some (Call "Map.read"
              [AStr
                 "$GAMMAPY_DATA/fermi-3fhl-gc/fermi-3fhl-gc-exposure-cube.fits.gz"]
              []) /\
    value_in h (trace_script h Detect.notebook w) 15 = Some exposure /\
    op_in (trace_script h Detect.notebook w) 16
    = Some (SetAttr exposure "unit" (AStr "cm2s")) /\
    value_in h (trace_script h Detect.notebook w) 20 = Some mask /\
    op_in (trace_script h Detect.notebook w) 21
    = Some (Call "EnergyDependentTablePSF.read"
              [AStr "$GAMMAPY_DATA/fermi-3fhl-gc/fermi-3fhl-gc-psf-cube.fits.gz"]
              []) /\
    value_in h (trace_script h Detect.notebook w) 21 = Some table /\
    op_in (trace_script h Detect.notebook w) 22
    = Some (Call "PSFMap.from_energy_dependent_table_psf" [AVal table] []) /\
    value_in h (trace_script h Detect.notebook w) 22 = Some psfmap /\
    op_in (trace_script h Detect.notebook w) 23
    = Some (Call "MapDataset" []
              [("counts", AVal counts); ("models", AList [AVal model]);
               ("exposure", AVal exposure); ("psf", AVal psfmap);
               ("mask_safe", AVal mask); ("name", AStr "fermi-3fhl-gc")]).
Proof.
  intros Hn.
  pose proof (detect_plain_returned h w 23 ltac:(lia) Hn) as Hall.
  pose proof (fun j =>
    script_result_at Detect.notebook h w 23 j Hall Hn) as Hres.
  destruct (Hres 12 ltac:(lia)) as [counts H12].
  destruct (Hres 13 ltac:(lia)) as [bmap H13].
  destruct (Hres 14 ltac:(lia)) as [model H14].
  destruct (Hres 15 ltac:(lia)) as [exposure H15].
  destruct (Hres 20 ltac:(lia)) as [mask H20].
  destruct (Hres 21 ltac:(lia)) as [table H21].
  destruct (Hres 22 ltac:(lia)) as [psfmap H22].
  pose proof (fun i e' =>
    script_op_at_listing Detect.notebook detect_ops h w 23 i counts e'
      detect_ops_flows Hall Hn) as Hop.
  exists counts, bmap, model, exposure, mask, table, psfmap.
  repeat split; try assumption; by_script_listing Hop detect_ops.
Qed.

(** X8.  In every run of detect that gets to the plot of [niter] with
    every earlier operation returned, the three maps plotted after the
    [TSMapEstimator] has run ([sqrt_ts], [flux], [niter]) are items of
    the result of its [run]. *)
Theorem ts_plots_read_the_ts_result h w :
  Forall (returned h) (take 48 (trace_script h Detect.notebook w)) ->
  is_Some (op_in (trace_script h Detect.notebook w) 48) ->
  exists image model estimator maps sqrt_ts flux niter,
    value_in h (trace_script h Detect.notebook w) 24 = Some image /\
    value_in h (trace_script h Detect.notebook w) 36 = Some model /\
    op_in (trace_script h Detect.notebook w) 38
    = Some (Call "TSMapEstimator" [AVal model]
              [("kernel_width", AStr "0.4 deg")]) /\
    value_in h (trace_script h Detect.notebook w) 38 = Some estimator /\
    op_in (trace_script h Detect.notebook w) 39
    = Some (Method estimator "run" [AVal image] []) /\
    value_in h (trace_script h Detect.notebook w) 39 = Some maps /\
    op_in (trace_script h Detect.notebook w) 41
    = Some (GetItem maps (AStr "sqrt_ts")) /\
    value_in h (trace_script h Detect.notebook w) 41 = Some sqrt_ts /\
    op_in (trace_script h Detect.notebook w) 42
    = Some (Method sqrt_ts "plot" [] [("add_cbar", ABool true)]) /\
    op_in (trace_script h Detect.notebook w) 44
    = Some (GetItem maps (AStr "flux")) /\
    value_in h (trace_script h Detect.notebook w) 44 = Some flux /\
    op_in (trace_script h Detect.notebook w) 45
    = Some (Method flux "plot" []
              [("add_cbar", ABool true); ("stretch", AStr "sqrt");
               ("vmin", AInt 0)]) /\
    op_in (trace_script h Detect.notebook w) 47
    = Some (GetItem maps (AStr "niter")) /\
    value_in h (trace_script h Detect.notebook w) 47 = Some niter /\
    op_in (trace_script h Detect.notebook w) 48
    = Some (Method niter "plot" [] [("add_cbar", ABool true)]).
Proof.
  intros Hall Hn.
  pose proof (fun j =>
    script_result_at Detect.notebook h w 48 j Hall Hn) as Hres.
  destruct (Hres 24 ltac:(lia)) as [image H24].
  destruct (Hres 36 ltac:(lia)) as [model H36].
  destruct (Hres 38 ltac:(lia)) as [estimator H38].
  destruct (Hres 39 ltac:(lia)) as [maps H39].
  destruct (Hres 41 ltac:(lia)) as [sqrt_ts H41].
  destruct (Hres 44 ltac:(lia)) as [flux H44].
  destruct (Hres 47 ltac:(lia)) as [niter H47].
  pose proof (fun i e' =>
    script_op_at_listing Detect.notebook detect_ops h w 48 i image e'
      detect_ops_flows Hall Hn) as Hop.
  exists image, model, estimator, maps, sqrt_ts, flux, niter.
  repeat split; try assumption; by_script_listing Hop detect_ops.
Qed.

End DataFlowFacts.

(** ** Names are imported before they are used *)

Section ImportFacts.
Import Nb Audit.
Context {val world exn : Type}.
Implicit Types (h : runtime val world exn) (w : world).

Lemma binds_emap {A B} (f : A -> B) e : binds (emap f e) = binds e.
Proof. by destruct e. Qed.

Lemma name_used_emap {A B} (f : A -> B) e :
  name_used (emap f e) = name_used e.
Proof. by destruct e. Qed.

Lemma imported_first_lookup l i e f :
  imported_first l = true -> l !! i = Some e -> name_used e = Some f ->
  mem f builtins = false ->
  exists j e0, j < i /\ l !! j = Some e0 /\ mem (root f) (binds e0) = true.
Proof.
  unfold imported_first. rewrite forallb_forall.
  intros Hall Hi Hf Hb.
  assert (Hin : In (i, e) (imap pair l)).
  { apply list_elem_of_In, list_elem_of_lookup. exists i.
    by rewrite list_lookup_imap, Hi. }
  apply Hall in Hin. cbn [fst snd] in Hin. rewrite Hf, Hb in Hin.
  cbn [orb] in Hin.
  apply existsb_exists in Hin as (e0 & Hin & He0).
  apply list_elem_of_In, list_elem_of_lookup in Hin as [j Hj].
  apply lookup_take_Some in Hj as [Hj Hlt].
  exists j, e0. done.
Qed.

(** A program that follows a listing whose names are imported first looks
    up no name before the import that binds it has been performed. *)
Lemma imported_first_run {R} (p : prog val R) ls h w i e f :
  flows [] p ls -> imported_first ls = true ->
  op_at h p w i = Some e -> name_used e = Some f ->
  mem f builtins = false ->
  exists j e0, j < i /\ op_at h p w j = Some e0 /\
               mem (root f) (binds e0) = true.
Proof.
  intros Hf Hall Hi Hu Hb.
  assert (Hsome : is_Some (op_at h p w i)) by eauto.
  assert (exists e', ls !! i = Some e') as [e' He'].
  { apply lookup_lt_is_Some_2. unfold op_at in Hi.
    apply fmap_Some in Hi as (ev & Hev & _).
    apply lookup_lt_Some in Hev.
    pose proof (flows_trace_length [] p ls h w Hf). lia. }
  assert (Hlab : label e = label e').
  { unfold op_at in Hi. apply fmap_Some in Hi as ([e1 we] & Hev & ->).
    pose proof (flows_trace_labels [] p ls h w Hf) as Hl.
    apply (f_equal (fun l => l !! i)) in Hl.
    rewrite !list_lookup_fmap, Hev in Hl. cbn in Hl.
    rewrite lookup_take_lt in Hl by (by eapply lookup_lt_Some).
    rewrite list_lookup_fmap, He' in Hl. cbn in Hl. by injection Hl. }
  assert (Hu' : name_used e' = Some f).
  { rewrite <- (name_used_emap (fun _ => tt) e'). fold (label e').
    rewrite <- Hlab. unfold label. by rewrite name_used_emap. }
  destruct (imported_first_lookup ls i e' f Hall He' Hu' Hb)
    as (j & e0 & Hj & He0 & Hm).
  destruct (result_at p h w i j Hsome Hj) as [d _].
  exists j, (emap (fun k => default d (results h p w !! k)) e0).
  split; [done|]. split.
  - apply (op_at_listing p ls h w i j d e0 Hf Hsome); [lia|done].
  - by rewrite binds_emap.
Qed.

(** The imports of detect are among its first twelve operations. *)
Lemma detect_imports_lead j e0 x :
  detect_ops !! j = Some e0 -> mem x (binds e0) = true -> j < 12.
Proof.
  intros Hj Hm.
  assert (H : forallb (fun p : nat * event nat =>
                         Nat.ltb p.1 12
                         || match binds p.2 with [] => true | _ => false end)
                (imap pair detect_ops) = true) by (by vm_compute).
  rewrite forallb_forall in H. specialize (H (j, e0)). cbn [fst snd] in H.
  destruct (binds e0) eqn:Eb; [done|].
  rewrite orb_false_r in H. apply Nat.ltb_lt, H.
  apply list_elem_of_In, list_elem_of_lookup. exists j.
  by rewrite list_lookup_imap, Hj.
Qed.

(** No run of detect looks up a name before the import that binds it
    has been performed, whatever was caught under [%%time]. *)
Lemma imported_first_detect h w i e f :
  op_in (trace_script h Detect.notebook w) i = Some e ->
  name_used e = Some f ->
  mem f builtins = false ->
  exists j e0, j < i /\
               op_in (trace_script h Detect.notebook w) j = Some e0 /\
               mem (root f) (binds e0) = true.
Proof.
  intros Hi Hu Hb.
  assert (Hsome : is_Some (op_in (trace_script h Detect.notebook w) i))
    by eauto.
  assert (Hlen : i < length (trace_script h Detect.notebook w)).
  { unfold op_in in Hsome. apply fmap_is_Some in Hsome.
    by apply lookup_lt_is_Some_1. }
  destruct (decide (i <= 26)) as [Hle|Hgt].
  - pose proof (detect_plain_returned h w i Hle Hsome) as Hall.
    pose proof (fun j => lead_lookup h Detect.notebook w i j Hall Hlen)
      as Hlead.
    assert (Hi' : op_at h (main_line Detect.notebook) w i = Some e).
    { unfold op_at. rewrite <- Hlead by done. exact Hi. }
    destruct (imported_first_run (main_line Detect.notebook) detect_ops
                h w i e f detect_ops_flows ltac:(by vm_compute) Hi' Hu Hb)
      as (j & e0 & Hj & He0 & Hm).
    exists j, e0. split; [done|]. split; [|done].
    unfold op_in. rewrite Hlead by lia. exact He0.
  - assert (H26 : is_Some (op_in (trace_script h Detect.notebook w) 26)).
    { unfold op_in. apply fmap_is_Some, lookup_lt_is_Some_2. lia. }
    pose proof (detect_plain_returned h w 26 ltac:(lia) H26) as Hall.
    pose proof (fun j => lead_lookup h Detect.notebook w 26 j Hall
                           ltac:(lia)) as Hlead.
    unfold op_in in Hi. apply fmap_Some in Hi as ([e1 we] & Hev & ->).
    destruct (covers_elem Detect.notebook detect_ops detect_marked h w e1 we
                detect_covers detect_marked_labels)
      as (e' & Hin & Hlab).
    { apply list_elem_of_lookup. by exists i. }
    apply list_elem_of_lookup in Hin as [i' Hi'].
    assert (Hu' : name_used e' = Some f).
    { rewrite <- (name_used_emap (fun _ => tt) e'). fold (label e').
      rewrite <- Hlab. unfold label. by rewrite name_used_emap. }
    destruct (imported_first_lookup detect_ops i' e' f ltac:(by vm_compute)
                Hi' Hu' Hb) as (j & e0 & Hj & He0 & Hm).
    pose proof (detect_imports_lead j e0 (root f) He0 Hm) as Hj12.
    assert (Hsome' : is_Some (op_at h (main_line Detect.notebook) w 26)).
    { unfold op_at. rewrite <- Hlead by done. exact H26. }
    destruct (result_at (main_line Detect.notebook) h w 26 j Hsome'
                ltac:(lia)) as [d _].
    exists j,
      (emap (fun k => default d
                        (results h (main_line Detect.notebook) w !! k)) e0).
    split; [lia|]. split.
    + unfold op_in. rewrite Hlead by lia.
      apply (op_at_listing (main_line Detect.notebook) detect_ops h w 26 j d
               e0 detect_ops_flows Hsome'); [lia|done].
    + by rewrite binds_emap.
Qed.

(** X9.  In no run of either notebook is a name looked up before the
    import that binds it has been performed: when an operation calls or
    loads [f], and [f] is not a builtin, an earlier operation of the same
    run is the import that binds the name [f] starts with. *)
Theorem names_are_imported_before_use h w i e f :
  name_used e = Some f ->
  mem f builtins = false ->
  (op_at h Cta.notebook w i = Some e ->
   exists j e0, j < i /\ op_at h Cta.notebook w j = Some e0 /\
                mem (root f) (binds e0) = true) /\
  (op_in (trace_script h Detect.notebook w) i = Some e ->
   exists j e0, j < i /\
                op_in (trace_script h Detect.notebook w) j = Some e0 /\
                mem (root f) (binds e0) = true).
Proof.
  intros Hu Hb. split; intros Hi.
  - apply (imported_first_run Cta.notebook cta_ops h w i e f);
      [apply cta_ops_flows|by vm_compute|done..].
  - by apply (imported_first_detect h w i e f).
Qed.

End ImportFacts.

(** ** What detect does after [%%time] has caught an exception *)

Section CaughtFacts.
Import Nb Audit.
Context {val world exn : Type}.
Implicit Types (h : runtime val world exn) (w : world).

(** A straight-line run stops at the first operation that does not
    return. *)
Lemma trace_stops {R} h (p : prog val R) w i e we :
  trace h p w !! i = Some (e, we) ->
  (forall v w1, h e we <> Returns v w1) ->
  length (trace h p w) = S i.
Proof.
  intros Hi Hn.
  destruct (decide (S i < length (trace h p w))) as [Hlt|Hge].
  - destruct (lookup_lt_is_Some_2 _ _ Hlt) as [ev Hev].
    destruct (trace_lookup_returned h p w (S i) i ev Hev ltac:(lia))
      as (ev' & Hev' & v & w1 & E).
    rewrite Hi in Hev'. injection Hev' as <-. by destruct (Hn v w1).
  - apply lookup_lt_Some in Hi. lia.
Qed.

(** The first exception of a run, when a timed segment catches it: the
    run goes on with the rescue, in the world the exception left. *)
Lemma caught_resume {R} h (s : script val R) w i e we x w' :
  Forall (returned h) (take i (trace_script h s w)) ->
  trace_script h s w !! i = Some (e, we) ->
  h e we = Raises x w' ->
  trace h (main_line s) w !! i = Some (e, we) /\
  length (trace h (main_line s) w) = S i /\
  drop (S i) (trace_script h s w)
  = match resume h s w with
    | Some (r, _) => trace_script h r w'
    | None => []
    end /\
  run_script h s w
  = match resume h s w with
    | Some (r, _) => run_script h r w'
    | None => Raises x w'
    end.
Proof.
  intros Hall Hi He.
  assert (Hlt : i < length (trace_script h s w)) by by eapply lookup_lt_Some.
  assert (Hl : trace h (main_line s) w !! i = Some (e, we)).
  { by rewrite <- (lead_lookup h s w i i Hall Hlt). }
  assert (Hlen : length (trace h (main_line s) w) = S i).
  { apply (trace_stops h _ w i e we Hl). intros v w1. by rewrite He. }
  assert (Hrun : run h (main_line s) w = Raises x w').
  { apply run_raises_iff. exists (take i (trace h (main_line s) w)), e, we.
    split; [|done].
    rewrite <- (take_ge (trace h (main_line s) w) (S i)) at 1 by lia.
    by apply take_S_r. }
  split; [done|]. split; [done|].
  rewrite (trace_script_lead h s w) at 1. rewrite (run_script_lead h s w).
  rewrite drop_app_length' by done.
  destruct (resume h s w) as [[r w2]|] eqn:Er; [|done].
  destruct (resume_raised h s w r w2 Er) as [x2 Hx2].
  rewrite Hrun in Hx2. by injection Hx2 as _ <-.
Qed.

(** One segment of the main line whose operations all returned. *)
Lemma bind_head_returns {A B} h (p : prog val A) (f : A -> prog val B) w
    ll i :
  labelled p ll -> length ll <= i ->
  Forall (returned h) (take i (trace h (bind p f) w)) ->
  exists v w1,
    run h p w = Returns v w1 /\
    length (trace h p w) = length ll /\
    trace h (bind p f) w = trace h p w ++ trace h (f v) w1 /\
    Forall (returned h) (take (i - length ll) (trace h (f v) w1)).
Proof.
  intros Hl Hle Hall. rewrite trace_bind in Hall.
  pose proof (labelled_length p ll h w Hl) as Hlen.
  assert (Hp : Forall (returned h) (trace h p w)).
  { rewrite take_app_ge in Hall by lia. by apply Forall_app in Hall as [? _]. }
  destruct (run_returns h p w Hp) as (v & w1 & Hrun).
  pose proof (labelled_returns p ll h w v w1 Hl Hrun) as Hlen'.
  exists v, w1. rewrite trace_bind, Hrun. split; [done|]. split; [done|].
  split; [done|].
  rewrite Hrun, take_app_ge in Hall by lia.
  apply Forall_app in Hall as [_ Hall]. by rewrite <- Hlen'.
Qed.

(** The segment of the main line in which an operation raises. *)
Lemma bind_head_raises {A B} h (p : prog val A) (f : A -> prog val B) w
    ll i e we x w' :
  labelled p ll -> i < length ll ->
  trace h (bind p f) w !! i = Some (e, we) ->
  h e we = Raises x w' ->
  run h p w = Raises x w'.
Proof.
  intros Hl Hlt Hi He. rewrite trace_bind in Hi.
  destruct (run h p w) as [v w1|y w2|] eqn:Hrun.
  - pose proof (labelled_returns p ll h w v w1 Hl Hrun) as Hlen.
    rewrite lookup_app_l in Hi by lia.
    pose proof (run_returns_all h p w v w1 Hrun) as Hall.
    rewrite Forall_forall in Hall.
    destruct (Hall (e, we)) as (v' & w'' & E).
    { apply list_elem_of_lookup. by exists i. }
    cbn in E. congruence.
  - rewrite app_nil_r in Hi.
    destruct (run_raises_last h p w y w2 Hrun)
      as (pre & e' & we' & Ht & He' & Hpre).
    rewrite Ht in Hi.
    destruct (decide (i < length pre)) as [Hip|Hip].
    + rewrite lookup_app_l in Hi by done.
      rewrite Forall_forall in Hpre.
      destruct (Hpre (e, we)) as (v' & w'' & E).
      { apply list_elem_of_lookup. by exists i. }
      cbn in E. congruence.
    + rewrite lookup_app_r in Hi by lia.
      destruct (i - length pre) as [|n] eqn:En; [|by destruct n].
      injection Hi as <- <-. congruence.
  - rewrite app_nil_r in Hi.
    destruct (run_hangs_last h p w Hrun)
      as (pre & e' & we' & Ht & He' & Hpre).
    rewrite Ht in Hi.
    destruct (decide (i < length pre)) as [Hip|Hip].
    + rewrite lookup_app_l in Hi by done.
      rewrite Forall_forall in Hpre.
      destruct (Hpre (e, we)) as (v' & w'' & E).
      { apply list_elem_of_lookup. by exists i. }
      cbn in E. congruence.
    + rewrite lookup_app_r in Hi by lia.
      destruct (i - length pre) as [|n] eqn:En; [|by destruct n].
      injection Hi as <- <-. congruence.
Qed.

Lemma value_in_app_l h (l1 l2 : list (event val * world)) j :
  j < length l1 -> value_in h (l1 ++ l2) j = value_in h l1 j.
Proof. intros Hj. unfold value_in. by rewrite lookup_app_l. Qed.

Lemma value_in_app_r h (l1 l2 : list (event val * world)) n j j' :
  length l1 = n -> j = n + j' ->
  value_in h (l1 ++ l2) j = value_in h l2 j'.
Proof.
  intros <- ->. unfold value_in. rewrite lookup_app_r by lia.
  by replace (length l1 + j' - length l1) with j' by lia.
Qed.

Lemma bind_step {A B} h (p : prog val A) (f : A -> prog val B) w ll n i i'
    ev :
  labelled p ll -> length ll = n -> i = n + i' ->
  Forall (returned h) (take i (trace h (bind p f) w)) ->
  trace h (bind p f) w !! i = Some ev ->
  exists v w1,
    run h p w = Returns v w1 /\
    length (trace h p w) = n /\
    trace h (bind p f) w = trace h p w ++ trace h (f v) w1 /\
    Forall (returned h) (take i' (trace h (f v) w1)) /\
    trace h (f v) w1 !! i' = Some ev.
Proof.
  intros Hl <- -> Hall Hi.
  destruct (bind_head_returns h p f w ll (length ll + i') Hl ltac:(lia) Hall)
    as (v & w1 & Hrun & Hlen & Htr & Hall').
  exists v, w1. split; [done|]. split; [done|]. split; [done|].
  replace (length ll + i' - length ll) with i' in Hall' by lia.
  split; [done|].
  rewrite Htr, lookup_app_r in Hi by lia.
  by replace (length ll + i' - length (trace h p w)) with i' in Hi by lia.
Qed.

(** The value of the body of cell 3 up to the binding of [images] is
    what its last operation handed back. *)
Lemma smooth_run_value h (dataset : val) w images w1 :
  run h (Detect.smooth_run dataset) w = Returns images w1 ->
  value_in h (trace h (Detect.smooth_run dataset) w) 3 = Some images.
Proof.
  unfold Detect.smooth_run, value_in. cbn.
  destruct (h _ w) as [v0 w0| |] eqn:E0; [cbn|done..].
  destruct (h _ w0) as [v2 w2| |] eqn:E2; [cbn|done..].
  destruct (h _ w2) as [v3 w3| |] eqn:E3; [cbn|done..].
  destruct (h _ w3) as [v4 w4| |]; [|done..].
  by intros [= -> _].
Qed.

Ltac labelled_step :=
  first [ apply labelled_ret | apply labelled_vis; intros ? ].

(** Step over the segment at the head of the main line: its [n]
    operations all returned. *)
Ltac segment h off n Hall Hl v w1 Hrun Hlen Htr :=
  let L := eval vm_compute in (take n (drop off (label <$> detect_ops))) in
  match type of Hall with
  | Forall _ (take ?i (trace h (bind ?p ?f) ?w)) =>
      let i' := eval vm_compute in (i - n) in
      let HL := fresh "HL" in
      assert (HL : labelled p L) by (cbv -[label]; repeat labelled_step);
      let Hall' := fresh "Hall" in
      let Hl' := fresh "Hl" in
      destruct (bind_step h p f w L n i i' _ HL eq_refl eq_refl Hall Hl)
        as (v & w1 & Hrun & Hlen & Htr & Hall' & Hl');
      clear Hall Hl HL; rename Hall' into Hall; rename Hl' into Hl;
      cbv beta in Hall, Hl
  end.

(** The segment at the head of the main line raised. *)
Ltac segment_raised h off n Hl He :=
  let L := eval vm_compute in (take n (drop off (label <$> detect_ops))) in
  match type of Hl with
  | trace h (bind ?p ?f) ?w !! ?i = Some (?e, ?we) =>
      let HL := fresh "HL" in
      assert (HL : labelled p L) by (cbv -[label]; repeat labelled_step);
      exact (bind_head_raises h p f w L i e we _ _ HL ltac:(cbn; lia) Hl He)
  end.

(** When the body of cell 5 is the first to raise, the run goes on with
    cells 6 to 10 and [images] the result of the ASmooth run. *)
Lemma ts_rescue h w i e we x w' :
  i = 38 \/ i = 39 ->
  Forall (returned h) (take i (trace h (main_line Detect.notebook) w)) ->
  trace h (main_line Detect.notebook) w !! i = Some (e, we) ->
  h e we = Raises x w' ->
  exists images,
    resume h Detect.notebook w = Some (Detect.cells_after (Some images), w') /\
    value_in h (trace h (main_line Detect.notebook) w) 29 = Some images.
Proof.
  intros Hi Hall Hl He.
  unfold Detect.notebook, Detect.cell_smooth, Detect.cell_ts in *.
  cbn [main_line resume] in *.
  destruct Hi as [-> | ->].
  all: segment h 0 25 Hall Hl dataset w1 Hrun0 Hlen0 Htr0.
  all: segment h 25 1 Hall Hl m1 w2 Hrun1 Hlen1 Htr1.
  all: segment h 26 4 Hall Hl images w3 Hrun2 Hlen2 Htr2.
  all: segment h 30 3 Hall Hl shown w4 Hrun3 Hlen3 Htr3.
  all: segment h 33 1 Hall Hl d1 w5 Hrun4 Hlen4 Htr4.
  all: segment h 34 3 Hall Hl model w6 Hrun5 Hlen5 Htr5.
  all: segment h 37 1 Hall Hl m2 w7 Hrun6 Hlen6 Htr6.
  all: assert (Hrunf : run h (Detect.ts_run model dataset) w7 = Raises x w')
         by segment_raised h 38 2 Hl He.
  all: exists images.
  all: rewrite Hrun0, Hrun1, Hrun2, Hrun3, Hrun4, Hrun5, Hrun6, Hrunf.
  all: split; [done|].
  all: rewrite Htr0, (value_in_app_r h _ _ 25 29 4 Hlen0 eq_refl).
  all: rewrite Htr1, (value_in_app_r h _ _ 1 4 3 Hlen1 eq_refl).
  all: rewrite Htr2, value_in_app_l by lia.
  all: exact (smooth_run_value h dataset w2 images w3 Hrun2).
Qed.

(** When the body of cell 3 is the first to raise, before line 141 has
    bound [images], the run goes on with cell 4 and [images] unbound. *)
Lemma smooth_rescue h w i e we x w' :
  26 <= i <= 29 ->
  Forall (returned h) (take i (trace h (main_line Detect.notebook) w)) ->
  trace h (main_line Detect.notebook) w !! i = Some (e, we) ->
  h e we = Raises x w' ->
  exists dataset,
    resume h Detect.notebook w
    = Some (Plain Detect.cell_model (fun model =>
              Detect.cell_ts model dataset None Detect.cells_after), w').
Proof.
  intros Hi Hall Hl He.
  unfold Detect.notebook, Detect.cell_smooth, Detect.cell_ts in *.
  cbn [main_line resume] in *.
  assert (i = 26 \/ i = 27 \/ i = 28 \/ i = 29) as [->|[->|[->| ->]]] by lia.
  all: segment h 0 25 Hall Hl dataset w1 Hrun0 Hlen0 Htr0.
  all: segment h 25 1 Hall Hl m1 w2 Hrun1 Hlen1 Htr1.
  all: assert (Hrunf : run h (Detect.smooth_run dataset) w2 = Raises x w')
         by segment_raised h 26 4 Hl He.
  all: exists dataset.
  all: by rewrite Hrun0, Hrun1, Hrunf.
Qed.

(** When the body of cell 5 raises in a run in which cell 3 has not
    bound [images], what is left of the notebook is cell 6 with [images]
    unbound. *)
Lemma ts_rescue_unbound h (dataset : val) w i e we x w' :
  i = 4 \/ i = 5 ->
  Forall (returned h)
    (take i (trace h (main_line (Plain Detect.cell_model (fun model =>
               Detect.cell_ts model dataset None Detect.cells_after))) w)) ->
  trace h (main_line (Plain Detect.cell_model (fun model =>
             Detect.cell_ts model dataset None Detect.cells_after))) w !! i
  = Some (e, we) ->
  h e we = Raises x w' ->
  resume h (Plain Detect.cell_model (fun model =>
              Detect.cell_ts model dataset None Detect.cells_after)) w
  = Some (Detect.cells_after None, w').
Proof.
  intros Hi Hall Hl He.
  unfold Detect.cell_ts in *. cbn [main_line resume] in *.
  destruct Hi as [-> | ->].
  all: segment h 34 3 Hall Hl model w6 Hrun5 Hlen5 Htr5.
  all: segment h 37 1 Hall Hl m2 w7 Hrun6 Hlen6 Htr6.
  all: assert (Hrunf : run h (Detect.ts_run model dataset) w7 = Raises x w')
         by segment_raised h 38 2 Hl He.
  all: by rewrite Hrun5, Hrun6, Hrunf.
Qed.

Ltac flows_step :=
  first [ apply flows_ret
        | eapply flows_vis; [ reflexivity | intros ?; cbn ] ].

(** Cells 6 to 10 with [images] the object number 0 and their own
    operations numbered from 1. *)
Lemma cells_inspect_flows (images : val) :
  flows [images] (Detect.cells_inspect images)
    (listing (Detect.cells_inspect 0) 1).
Proof.
  vm_compute listing. cbv -[app lookup]. cbn.
  repeat flows_step.
Qed.

(** What a run goes on with after its first exception was caught. *)
Lemma caught_lead {R} h (s : script val R) w i e we x w' :
  Forall (returned h) (take i (trace_script h s w)) ->
  trace_script h s w !! i = Some (e, we) ->
  h e we = Raises x w' ->
  Forall (returned h) (take i (trace h (main_line s) w)).
Proof.
  intros Hall Hi He.
  assert (Hlt : i < length (trace_script h s w)) by by eapply lookup_lt_Some.
  pose proof (lead_take h s w i Hall Hlt) as Ht.
  apply (f_equal (take i)) in Ht. rewrite !take_take in Ht.
  replace (i `min` S i) with i in Ht by lia. by rewrite <- Ht.
Qed.

(** X15.  When the body of cell 5 of detect raises - in
    [TSMapEstimator(...)] (operation 38) or in its [run] (operation 39) -
    after every earlier operation returned, [%%time] catches the
    exception and [images] stays bound to the result of the [run] of the
    [ASmoothMapEstimator] (operation 29).  What the run issues from there
    on are cells 6 to 10 on that object, in the world the exception left,
    and the notebook ends as they end: the peaks are searched in the
    [sqrt_ts] item of the ASmooth result. *)
Theorem failed_ts_cell_leaves_the_smoothed_images h w i e we x w' :
  i = 38 \/ i = 39 ->
  Forall (returned h) (take i (trace_script h Detect.notebook w)) ->
  trace_script h Detect.notebook w !! i = Some (e, we) ->
  h e we = Raises x w' ->
  exists images,
    value_in h (trace_script h Detect.notebook w) 29 = Some images /\
    drop (S i) (trace_script h Detect.notebook w)
    = trace h (Detect.cells_inspect images) w' /\
    run_script h Detect.notebook w
    = match run h (Detect.cells_inspect images) w' with
      | Returns sources w2 => Returns (Detect.Sources sources) w2
      | Raises y w2 => Raises y w2
      | Hangs => Hangs
      end /\
    forall item,
      value_in h (trace_script h Detect.notebook w) (S i + 9) = Some item ->
      is_Some (op_in (trace_script h Detect.notebook w) (S i + 10)) ->
      op_in (trace_script h Detect.notebook w) (S i + 9)
      = Some (GetItem images (AStr "sqrt_ts")) /\
      op_in (trace_script h Detect.notebook w) (S i + 10)
      = Some (Call "find_peaks" [AVal item]
                [("threshold", AInt 8); ("min_distance", AInt 1)]).
Proof.
  intros Hi Hall Hev He.
  destruct (caught_resume h _ w i e we x w' Hall Hev He)
    as (Hl & Hlen & Hdrop & Hrun).
  pose proof (caught_lead h _ w i e we x w' Hall Hev He) as Hall'.
  destruct (ts_rescue h w i e we x w' Hi Hall' Hl He) as (images & Hres & Hv).
  rewrite Hres in Hdrop, Hrun.
  assert (Hdrop' : drop (S i) (trace_script h Detect.notebook w)
                   = trace h (Detect.cells_inspect images) w').
  { rewrite Hdrop. cbn [Detect.cells_after trace_script].
    destruct (run h (Detect.cells_inspect images) w');
      cbn [trace_script]; by rewrite app_nil_r. }
  exists images. split; [|split; [done|split]].
  - unfold value_in in *.
    rewrite (lead_lookup h _ w i 29 Hall) by (by eapply lookup_lt_Some || lia).
    exact Hv.
  - rewrite Hrun. cbn [Detect.cells_after run_script].
    by destruct (run h (Detect.cells_inspect images) w').
  - intros item Hitem Hn.
    assert (Hlook : forall j, trace_script h Detect.notebook w !! (S i + j)
                              = trace h (Detect.cells_inspect images) w' !! j).
    { intros j. by rewrite <- Hdrop', lookup_drop. }
    unfold op_in, value_in in *. rewrite !Hlook in *.
    fold (value_in h (trace h (Detect.cells_inspect images) w') 9) in Hitem.
    rewrite value_in_results in Hitem.
    fold (op_at h (Detect.cells_inspect images) w' 10) in Hn.
    fold (op_at h (Detect.cells_inspect images) w' 9).
    fold (op_at h (Detect.cells_inspect images) w' 10).
    apply fmap_is_Some in Hn as [[e10 w10] H10].
    destruct (trace_lookup_returned h _ w' 10 9 _ H10 ltac:(lia))
      as ([e9 w9] & H9 & _).
    unfold op_at. rewrite H9, H10. cbn. split; f_equal.
    + rewrite (flows_trace_at [images] _ _ h w' 9 e9 w9
                 (GetItem 0 (AStr "sqrt_ts")) images
                 (cells_inspect_flows images) H9 eq_refl).
      reflexivity.
    + rewrite (flows_trace_at [images] _ _ h w' 10 e10 w10
                 (Call "find_peaks" [AVal 10]
                    [("threshold", AInt 8); ("min_distance", AInt 1)])
                 images (cells_inspect_flows images) H10 eq_refl).
      set (rs := results h (Detect.cells_inspect images) w') in *.
      clearbody rs.
      cbv beta iota delta [emap amap kwmap fmap_part map fst snd].
      change (([images] ++ rs) !! 10) with (rs !! 9).
      by rewrite Hitem.
Qed.

(** X16.  When the body of cell 3 of detect raises before line 141 has
    bound [images] (operations 26 to 29), and the body of cell 5 raises
    too, [%%time] catches both exceptions and no cell has bound [images]:
    the run issues the [plt.figure] of cell 6 and nothing after it, and
    where that call returns the notebook ends on the unbound name. *)
Theorem failed_estimators_leave_images_unbound h w i j e we x w'
    e2 we2 x2 w2 :
  26 <= i <= 29 ->
  j = i + 5 \/ j = i + 6 ->
  Forall (returned h) (take i (trace_script h Detect.notebook w)) ->
  trace_script h Detect.notebook w !! i = Some (e, we) ->
  h e we = Raises x w' ->
  Forall (returned h)
    (take (j - S i) (drop (S i) (trace_script h Detect.notebook w))) ->
  trace_script h Detect.notebook w !! j = Some (e2, we2) ->
  h e2 we2 = Raises x2 w2 ->
  drop (S j) (trace_script h Detect.notebook w)
  = [(Call "plt.figure" [] [("figsize", ATuple [AInt 15; AInt 5])], w2)] /\
  run_script h Detect.notebook w
  = match h (Call "plt.figure" [] [("figsize", ATuple [AInt 15; AInt 5])])
            w2 with
    | Returns _ w3 => Returns (Detect.NameError "images") w3
    | Raises y w3 => Raises y w3
    | Hangs => Hangs
    end.
Proof.
  intros Hi Hj Hall Hev He Hall2 Hev2 He2.
  destruct (caught_resume h _ w i e we x w' Hall Hev He)
    as (Hl & Hlen & Hdrop & Hrun).
  pose proof (caught_lead h _ w i e we x w' Hall Hev He) as Hall'.
  destruct (smooth_rescue h w i e we x w' Hi Hall' Hl He) as (dataset & Hres).
  rewrite Hres in Hdrop, Hrun.
  set (r := Plain Detect.cell_model (fun model =>
              Detect.cell_ts model dataset None Detect.cells_after)) in *.
  rewrite Hdrop in Hall2.
  assert (Hev2' : trace_script h r w' !! (j - S i) = Some (e2, we2)).
  { rewrite <- Hdrop, lookup_drop.
    by replace (S i + (j - S i)) with j by lia. }
  destruct (caught_resume h r w' (j - S i) e2 we2 x2 w2 Hall2 Hev2' He2)
    as (Hl2 & Hlen2 & Hdrop2 & Hrun2).
  pose proof (caught_lead h r w' (j - S i) e2 we2 x2 w2 Hall2 Hev2' He2)
    as Hall2'.
  assert (Hres2 : resume h r w' = Some (Detect.cells_after None, w2)).
  { apply (ts_rescue_unbound h dataset w' (j - S i) e2 we2 x2 w2);
      [lia|done..]. }
  rewrite Hres2 in Hdrop2, Hrun2.
  split.
  - replace (S j) with (S i + S (j - S i)) by lia.
    rewrite <- drop_drop, Hdrop, Hdrop2.
    cbn [Detect.cells_after trace_script trace run op].
    by destruct (h _ w2).
  - rewrite Hrun, Hrun2. cbn [Detect.cells_after run_script run op].
    by destruct (h _ w2).
Qed.

End CaughtFacts.

(** ** numpy arrays: columns that do not match *)

Section NpMoreFacts.
Import Np.

Lemma broadcast2_well_formed {A B C} (f : A -> B -> C) a b r :
  broadcast2 f a b = Some r -> well_formed r.
Proof.
  unfold broadcast2. destruct (broadcast_shapes _ _) as [sh|]; [|done].
  cbn. destruct (mapM _ _) as [l|] eqn:E; [|done].
  intros [= <-]. unfold well_formed. cbn [shape flat].
  apply length_mapM in E. by rewrite length_seq in E.
Qed.

Lemma inplace2_well_formed {A B} (f : A -> B -> A) a b r :
  inplace2 f a b = Some r -> well_formed r /\ shape r = shape a.
Proof.
  unfold inplace2. destruct (broadcast2 f a b) as [r'|] eqn:E; [|done].
  cbn. case_decide; [|done]. intros [= <-].
  split; [by eapply broadcast2_well_formed|done].
Qed.

(** A column of the wrong length does not fit a cube: [b *= col] for [b]
    of shape [(n, p, q)] and [col] of shape [(m, 1, 1)] with [m] neither
    [n] nor 1. *)
Lemma inplace2_mismatch {A B} (f : A -> B -> A) b c n p q m :
  shape b = [n; p; q] -> shape c = [m; 1; 1] -> m <> n -> m <> 1 ->
  inplace2 f b c = None.
Proof.
  intros Hb Hc Hn H1. unfold inplace2, broadcast2. rewrite Hb, Hc.
  unfold broadcast_shapes. cbn. unfold broadcast_dim.
  repeat case_decide; subst; try done; cbn;
    destruct (mapM _ _); cbn; try done;
    rewrite decide_False; congruence.
Qed.

Lemma bcast_index_single n p q i : bcast_index [n; p; q] [1; 1; 1] i = 0.
Proof. reflexivity. Qed.

Lemma broadcast_shapes_single n p q :
  broadcast_shapes [n; p; q] [1; 1; 1] = Some [n; p; q].
Proof.
  unfold broadcast_shapes. cbn. unfold broadcast_dim.
  repeat case_decide; try done; subst; done.
Qed.

(** [b *= col] for a cube [b] and a column [col] of one element: every
    element of the cube is multiplied by that element. *)
Lemma inplace2_single {A B} (f : A -> B -> A) n p q lb y :
  length lb = n * (p * q) ->
  inplace2 f (NdArray [n; p; q] lb) (NdArray [1; 1; 1] [y])
  = Some (NdArray [n; p; q] ((fun x => f x y) <$> lb)).
Proof.
  intros Hlb. unfold inplace2.
  rewrite (broadcast2_Some f _ _ [n; p; q] ((fun x => f x y) <$> lb)).
  - cbn. by rewrite decide_True.
  - apply broadcast_shapes_single.
  - rewrite length_fmap. cbn. lia.
  - cbn [shape flat size foldr]. intros i Hi. rewrite Nat.mul_1_r in Hi.
    rewrite bcast_index_self by (cbn; lia).
    rewrite bcast_index_single.
    destruct (lookup_lt_is_Some_2 lb i) as [x Hx]; [lia|].
    exists x, y. rewrite list_lookup_fmap, Hx. done.
Qed.

End NpMoreFacts.

(** ** cta_sensitivity, cell 6: failures, odd shapes and second runs *)

Section CtaMoreFacts.
Import Np CtaData.

Context {num : Type}.
Context (fmul fsub fdiv : num -> num -> num) (of_Z : Z -> num) (of_Q : Q -> num).
Context (cos_in : string -> option (num -> num)).
Context {SkyCoord MapAxis Observation PSF IRFs Maker : Type}.
Context (axis_center : MapAxis -> @quantity num)
        (obs_psf : Observation -> PSF)
        (containment_radius :
           store num -> PSF -> @quantity num -> @quantity num -> num ->
           exn + @quantity num).

Local Abbreviation state :=
  (@CtaData.state num SkyCoord MapAxis Observation IRFs Maker).
Local Abbreviation M :=
  (@CtaData.M num SkyCoord MapAxis Observation IRFs Maker).
Local Abbreviation namespace :=
  (@CtaData.namespace num SkyCoord MapAxis Observation IRFs Maker).
Local Abbreviation py :=
  (python fmul fsub fdiv of_Z of_Q cos_in axis_center obs_psf
     containment_radius).
Local Abbreviation cell :=
  (@cell_containment num fmul fsub fdiv of_Z of_Q cos_in
     SkyCoord MapAxis Observation PSF IRFs Maker
     axis_center obs_psf containment_radius).

(** The factors of the background: [(1 - cos r_k) / (1 - cos 0.1 deg)]
    for the radii [lr]. *)
Local Abbreviation factors c c0 lr :=
  ((fun x => fdiv x (fsub (of_Z 1) (c0 (of_Q 0.1))))
     <$> ((fun x => fsub (of_Z 1) x) <$> (c <$> lr))).

(** The cell up to its last statement, when the library hands back [m]
    radii in an angular unit: what is left is the in-place product of the
    background with the column of factors. *)
Lemma cell_containment_prefix (st : state) A radii (lr : list num) m c c0 :
  let g := names st in
  let d := v_dataset g in
  let scaled := map_array (fun x => fmul x (of_Q 0.68)) A in
  heap st !! aeff d = Some A ->
  radius (v_region g) = deg of_Q 0.1 ->
  containment_radius (<[aeff d := scaled]> (heap st)) (obs_psf (v_obs g))
    (axis_center (v_e_reco g)) (deg of_Q 0.5) (of_Q 0.68) = inr radii ->
  getitem0 (value radii) = Some (NdArray [m] lr) ->
  length lr = m ->
  cos_in (unit_ radii) = Some c ->
  cos_in "deg" = Some c0 ->
  cell st
  = update_buffer (background d)
      (fun b => inplace2 fmul b (NdArray [m; 1; 1] (factors c c0 lr)))
      (State
         (bind_factor (NdArray [m] (factors c c0 lr))
            (bind_on_radii (Quantity (NdArray [m] lr) (unit_ radii))
               (bind_containment (of_Q 0.68) g)))
         (<[aeff d := scaled]> (heap st))).
Proof.
  intros g d scaled HA Hrad Hcr Hget Hlr Hc Hc0.
  unfold cell_containment.
  erewrite bind_inr by reflexivity.
  erewrite bind_inr by reflexivity.
  erewrite bind_inr by (eapply update_buffer_inr; [exact HA|reflexivity]).
  erewrite bind_inr by reflexivity.
  cbn [heap names].
  erewrite bind_inr
    by (unfold CtaData.containment; fold g d scaled; rewrite Hcr; reflexivity).
  erewrite bind_inr
    by (unfold quantity_getitem0; erewrite bind_inr
          by (rewrite Hget; reflexivity); reflexivity).
  erewrite bind_inr by reflexivity.
  erewrite bind_inr by (apply np_cos_inr; exact Hc).
  fold g. rewrite Hrad.
  erewrite bind_inr by (apply np_cos_inr; exact Hc0).
  unfold deg, map_array. cbn [value shape flat scalar fmap list_fmap].
  change (NdArray [] [fsub (of_Z 1) (c0 (of_Q 0.1))])
    with (scalar (fsub (of_Z 1) (c0 (of_Q 0.1)))).
  rewrite broadcast2_vector_scalar by (rewrite !length_fmap; lia).
  erewrite bind_inr by reflexivity.
  erewrite bind_inr by reflexivity.
  unfold reshape_m1_1_1. cbn [flat names heap].
  rewrite !length_fmap. rewrite Hlr. reflexivity.
Qed.

(** X10.  Cell 6 of cta_sensitivity does not undo its first statement
    when a later one fails: whenever the cell raises on a dataset whose
    effective area is in the store, the effective area holds 0.68 times
    its former values and nothing else in the store has changed, the
    background included.  The notebook's cell 6 run on [python] raises the
    same exception over the same store. *)
Theorem failed_correction_keeps_the_scaled_area (st st' : state) x A :
  let d := v_dataset (names st) in
  cell st = (inl x, st') ->
  heap st !! aeff d = Some A ->
  heap st' = <[aeff d := map_array (fun y => fmul y (of_Q 0.68)) A]> (heap st) /\
  Nb.run py (cell6 (names st)) (heap st) = Nb.Raises x (heap st').
Proof.
  intros d Hrun HA. split; [|by rewrite cell6_refines, Hrun].
  revert Hrun.
  unfold cell_containment.
  unfold CtaData.bind, get_names, set_names, get_heap, update_buffer,
    quantity_getitem0, np_cos, of_result, of_option, CtaData.bind,
    CtaData.ret, CtaData.raise.
  cbn -[broadcast2 inplace2 getitem0 lookup insert map_array].
  fold d. rewrite HA.
  cbn -[broadcast2 inplace2 getitem0 lookup insert map_array].
  destruct (containment_radius _ _ _ _ _) as [x0|radii];
    [by intros [= <- <-]|].
  cbn -[broadcast2 inplace2 getitem0 lookup insert map_array].
  destruct (getitem0 (value radii)) as [r|]; [|by intros [= <- <-]].
  cbn -[broadcast2 inplace2 getitem0 lookup insert map_array].
  destruct (cos_in (unit_ radii)) as [c|]; [|by intros [= <- <-]].
  cbn -[broadcast2 inplace2 getitem0 lookup insert map_array].
  destruct (cos_in (unit_ (radius (v_region (names st))))) as [c0|];
    [|by intros [= <- <-]].
  cbn -[broadcast2 inplace2 getitem0 lookup insert map_array].
  destruct (broadcast2 _ _ _) as [factor|]; [|by intros [= <- <-]].
  cbn -[broadcast2 inplace2 getitem0 lookup insert map_array].
  destruct (_ !! background d) as [B|]; [|by intros [= <- <-]].
  destruct (inplace2 _ _ _) as [B'|]; [|by intros [= <- <-]].
  discriminate.
Qed.

(** X11.  When the library hands back a number of radii that is neither
    the number of reconstructed-energy bins of the background cube nor 1,
    cell 6 of cta_sensitivity raises numpy's [ValueError] at its last
    statement: the effective area has been scaled by then, the background
    has not been touched. *)
Theorem wrong_number_of_radii_is_a_value_error
    (st : state) A B n p q radii r m c c0 :
  let g := names st in
  let d := v_dataset g in
  let scaled := map_array (fun x => fmul x (of_Q 0.68)) A in
  heap st !! aeff d = Some A ->
  heap st !! background d = Some B ->
  aeff d <> background d ->
  shape B = [n; p; q] ->
  radius (v_region g) = deg of_Q 0.1 ->
  containment_radius (<[aeff d := scaled]> (heap st)) (obs_psf (v_obs g))
    (axis_center (v_e_reco g)) (deg of_Q 0.5) (of_Q 0.68) = inr radii ->
  getitem0 (value radii) = Some r ->
  shape r = [m] ->
  well_formed r ->
  cos_in (unit_ radii) = Some c ->
  cos_in "deg" = Some c0 ->
  m <> n -> m <> 1 ->
  exists st',
    cell st = (inl ValueError, st') /\
    Nb.run py (cell6 g) (heap st) = Nb.Raises ValueError (heap st') /\
    heap st' = <[aeff d := scaled]> (heap st) /\
    heap st' !! background d = Some B.
Proof.
  intros g d scaled HA HB Hne HshB Hrad Hcr Hget Hshr Hwfr Hc Hc0 Hmn Hm1.
  destruct r as [shr lr]. unfold well_formed in Hwfr.
  cbn [shape flat] in *. subst shr. cbn [size foldr] in Hwfr.
  eexists. split; [|split; [|split]].
  - rewrite (cell_containment_prefix st A radii lr m c c0
               HA Hrad Hcr Hget ltac:(lia) Hc Hc0).
    unfold update_buffer. cbn [heap names].
    fold g d. rewrite lookup_insert_ne by done. rewrite HB.
    rewrite (inplace2_mismatch fmul B _ n p q m); [reflexivity|done..].
  - unfold g. rewrite cell6_refines.
    rewrite (cell_containment_prefix st A radii lr m c c0
               HA Hrad Hcr Hget ltac:(lia) Hc Hc0).
    unfold update_buffer. cbn [heap names].
    fold g d. rewrite lookup_insert_ne by done. rewrite HB.
    rewrite (inplace2_mismatch fmul B _ n p q m); [reflexivity|done..].
  - reflexivity.
  - cbn [heap]. rewrite lookup_insert_ne by done. exact HB.
Qed.

(** X12.  When the library hands back a single radius, cell 6 of
    cta_sensitivity does not fail: numpy broadcasts the one factor, and
    every element of the background, in every reconstructed-energy bin,
    is multiplied by [(1 - cos r_0) / (1 - cos (0.1 deg))]. *)
Theorem single_radius_scales_every_bin
    (st : state) A B n p q radii r0 c c0 :
  let g := names st in
  let d := v_dataset g in
  let scaled := map_array (fun x => fmul x (of_Q 0.68)) A in
  let f0 := fdiv (fsub (of_Z 1) (c r0)) (fsub (of_Z 1) (c0 (of_Q 0.1))) in
  heap st !! aeff d = Some A ->
  heap st !! background d = Some B ->
  aeff d <> background d ->
  shape B = [n; p; q] ->
  well_formed B ->
  radius (v_region g) = deg of_Q 0.1 ->
  containment_radius (<[aeff d := scaled]> (heap st)) (obs_psf (v_obs g))
    (axis_center (v_e_reco g)) (deg of_Q 0.5) (of_Q 0.68) = inr radii ->
  getitem0 (value radii) = Some (NdArray [1] [r0]) ->
  cos_in (unit_ radii) = Some c ->
  cos_in "deg" = Some c0 ->
  exists st',
    cell st = (inr tt, st') /\
    heap st' !! aeff d = Some scaled /\
    heap st' !! background d = Some (map_array (fun x => fmul x f0) B).
Proof.
  intros g d scaled f0 HA HB Hne HshB HwfB Hrad Hcr Hget Hc Hc0.
  destruct B as [shB lB]. unfold well_formed in HwfB.
  cbn [shape flat] in *. subst shB. cbn [size foldr] in HwfB.
  eexists. split; [|split].
  - rewrite (cell_containment_prefix st A radii [r0] 1 c c0
               HA Hrad Hcr Hget eq_refl Hc Hc0).
    eapply update_buffer_inr.
    + cbn [heap]. fold g d. rewrite lookup_insert_ne by done. exact HB.
    + cbn [fmap list_fmap]. apply inplace2_single. lia.
  - cbn [heap]. rewrite lookup_insert_ne by done. apply lookup_insert_eq.
  - cbn [heap]. rewrite lookup_insert_eq. reflexivity.
Qed.

(** X13.  Running cell 6 of cta_sensitivity a second time corrects the
    dataset a second time: with a library that answers the same radii
    whatever the buffers hold, after two runs the effective area holds
    its former values times 0.68 twice, and every element of
    reconstructed-energy bin [k] of the background its former value times
    [(1 - cos r_k) / (1 - cos (0.1 deg))] twice. *)
Theorem rerunning_compounds_the_correction
    (st : state) A B n p q radii r c c0 :
  let g := names st in
  let d := v_dataset g in
  heap st !! aeff d = Some A ->
  heap st !! background d = Some B ->
  aeff d <> background d ->
  shape B = [n; p; q] ->
  well_formed B ->
  radius (v_region g) = deg of_Q 0.1 ->
  (forall h, containment_radius h (obs_psf (v_obs g))
     (axis_center (v_e_reco g)) (deg of_Q 0.5) (of_Q 0.68) = inr radii) ->
  getitem0 (value radii) = Some r ->
  shape r = [n] ->
  well_formed r ->
  cos_in (unit_ radii) = Some c ->
  cos_in "deg" = Some c0 ->
  exists st1 st2 B2,
    cell st = (inr tt, st1) /\
    cell st1 = (inr tt, st2) /\
    heap st2 !! aeff d
    = Some (map_array (fun x => fmul (fmul x (of_Q 0.68)) (of_Q 0.68)) A) /\
    heap st2 !! background d = Some B2 /\
    shape B2 = shape B /\
    forall k j x rk,
      k < n -> j < p * q ->
      flat B !! (k * (p * q) + j) = Some x ->
      flat r !! k = Some rk ->
      let fk := fdiv (fsub (of_Z 1) (c rk)) (fsub (of_Z 1) (c0 (of_Q 0.1))) in
      flat B2 !! (k * (p * q) + j) = Some (fmul (fmul x fk) fk).
Proof.
  intros g d HA HB Hne HshB HwfB Hrad Hcr Hget Hshr Hwfr Hc Hc0.
  destruct B as [shB lB]. destruct r as [shr lr].
  unfold well_formed in *. cbn [shape flat] in *. subst shB shr.
  cbn [size foldr] in *.
  destruct (inplace2_column fmul n p q lB (factors c c0 lr))
    as (l1 & Hin1 & Hl1); [lia|rewrite !length_fmap; lia|].
  destruct (inplace2_well_formed _ _ _ _ Hin1) as [Hwf1 _].
  unfold well_formed in Hwf1. cbn [shape flat size foldr] in Hwf1.
  destruct (inplace2_column fmul n p q l1 (factors c c0 lr))
    as (l2 & Hin2 & Hl2); [lia|rewrite !length_fmap; lia|].
  set (scaled := map_array (fun x => fmul x (of_Q 0.68)) A).
  set (st1 := State
         (bind_factor (NdArray [n] (factors c c0 lr))
            (bind_on_radii (Quantity (NdArray [n] lr) (unit_ radii))
               (bind_containment (of_Q 0.68) g)))
         (<[background d := NdArray [n; p; q] l1]>
            (<[aeff d := scaled]> (heap st))) : state).
  assert (Hrun1 : cell st = (inr tt, st1)).
  { rewrite (cell_containment_prefix st A radii lr n c c0
               HA Hrad (Hcr _) Hget ltac:(lia) Hc Hc0).
    eapply update_buffer_inr; [|exact Hin1].
    cbn [heap]. fold g d. rewrite lookup_insert_ne by done. exact HB. }
  assert (HA1 : heap st1 !! aeff (v_dataset (names st1)) = Some scaled).
  { change (<[background d := NdArray [n; p; q] l1]>
              (<[aeff d := scaled]> (heap st)) !! aeff d = Some scaled).
    rewrite lookup_insert_ne by done. apply lookup_insert_eq. }
  pose proof (cell_containment_prefix st1 scaled radii lr n c c0
                HA1 Hrad (Hcr _) Hget ltac:(lia) Hc Hc0) as Hp2.
  change (v_dataset (names st1)) with d in Hp2.
  set (scaled2 := map_array (fun x => fmul x (of_Q 0.68)) scaled) in Hp2.
  eassert (Hrun2 : cell st1 = (inr tt, _)).
  { rewrite Hp2. eapply update_buffer_inr; [|exact Hin2].
    cbn [heap st1]. rewrite lookup_insert_ne by done. apply lookup_insert_eq. }
  eexists st1, _, (NdArray [n; p; q] l2).
  split; [exact Hrun1|]. split; [exact Hrun2|]. split; [|split; [|split]].
  - cbn [heap]. rewrite lookup_insert_ne by done. rewrite lookup_insert_eq.
    unfold scaled2, scaled, map_array. cbn [shape flat].
    by rewrite <- list_fmap_compose.
  - cbn [heap]. apply lookup_insert_eq.
  - reflexivity.
  - intros k j x rk Hk Hj Hx Hrk. cbn [flat].
    set (fk := fdiv (fsub (of_Z 1) (c rk)) (fsub (of_Z 1) (c0 (of_Q 0.1)))).
    assert (Hf : factors c c0 lr !! k = Some fk).
    { rewrite !list_lookup_fmap, Hrk. reflexivity. }
    apply Hl2; [done..| |exact Hf].
    apply Hl1; [done..|exact Hf].
Qed.

(** Overwriting a buffer with an array of its shape keeps every buffer of
    the store in place and in shape. *)
Lemma insert_keeps_shapes (h : store num) l0 a0 a0' :
  h !! l0 = Some a0 -> shape a0' = shape a0 ->
  (well_formed a0 -> well_formed a0') ->
  forall l a, h !! l = Some a ->
    exists a', <[l0 := a0']> h !! l = Some a' /\ shape a' = shape a /\
               (well_formed a -> well_formed a').
Proof.
  intros H0 Hsh Hwf l a Hl. destruct (decide (l = l0)) as [->|Hne].
  - exists a0'. rewrite lookup_insert_eq. rewrite H0 in Hl.
    injection Hl as <-. done.
  - exists a. by rewrite lookup_insert_ne.
Qed.

(** X14.  However cell 6 of cta_sensitivity ends, every array buffer of
    the store is still there and has the shape it had; a buffer whose
    number of elements matched its shape still does.  In particular neither
    in-place product reshapes the effective area or the background,
    whatever the library hands back and even when both names reach the
    same buffer. *)
Theorem correction_keeps_every_shape (st st' : state) o l a :
  cell st = (o, st') ->
  heap st !! l = Some a ->
  exists a',
    heap st' !! l = Some a' /\ shape a' = shape a /\
    (well_formed a -> well_formed a').
Proof.
  intros Hrun Hl. revert Hrun.
  unfold cell_containment.
  unfold CtaData.bind, get_names, set_names, get_heap, update_buffer,
    quantity_getitem0, np_cos, of_result, of_option, CtaData.bind,
    CtaData.ret, CtaData.raise.
  cbn -[broadcast2 inplace2 getitem0 lookup insert map_array].
  destruct (heap st !! aeff (v_dataset (names st))) as [A|] eqn:HA;
    [|intros [= <- <-]; eauto].
  set (scaled := map_array (fun x => fmul x (of_Q containment)) A).
  assert (H1 : forall l a, heap st !! l = Some a ->
            exists a', <[aeff (v_dataset (names st)) := scaled]> (heap st) !! l
                       = Some a' /\ shape a' = shape a /\
                       (well_formed a -> well_formed a')).
  { apply (insert_keeps_shapes _ _ A); [done|done|].
    unfold well_formed, scaled, map_array. cbn [shape flat].
    by rewrite length_fmap. }
  cbn -[broadcast2 inplace2 getitem0 lookup insert map_array].
  destruct (containment_radius _ _ _ _ _) as [x0|radii];
    [intros [= <- <-]; by apply H1|].
  cbn -[broadcast2 inplace2 getitem0 lookup insert map_array].
  destruct (getitem0 (value radii)) as [r|]; [|intros [= <- <-]; by apply H1].
  cbn -[broadcast2 inplace2 getitem0 lookup insert map_array].
  destruct (cos_in (unit_ radii)) as [c|]; [|intros [= <- <-]; by apply H1].
  cbn -[broadcast2 inplace2 getitem0 lookup insert map_array].
  destruct (cos_in (unit_ (radius (v_region (names st))))) as [c0|];
    [|intros [= <- <-]; by apply H1].
  cbn -[broadcast2 inplace2 getitem0 lookup insert map_array].
  destruct (broadcast2 _ _ _) as [factor|]; [|intros [= <- <-]; by apply H1].
  cbn -[broadcast2 inplace2 getitem0 lookup insert map_array].
  destruct (_ !! background (v_dataset (names st))) as [B|] eqn:HB;
    [|intros [= <- <-]; by apply H1].
  destruct (inplace2 _ _ _) as [B'|] eqn:Hin; [|intros [= <- <-]; by apply H1].
  intros [= <- <-]. cbn [heap].
  destruct (H1 l a Hl) as (a1 & Ha1 & Hsh1 & Hwf1).
  destruct (inplace2_well_formed _ _ _ _ Hin) as [HwfB' HshB'].
  destruct (insert_keeps_shapes _ _ B B' HB HshB' (fun _ => HwfB') l a1 Ha1)
    as (a2 & Ha2 & Hsh2 & Hwf2).
  exists a2. split; [exact Ha2|]. split; [congruence|auto].
Qed.

End CtaMoreFacts.

(** ** The further facts at work on small inputs *)

Section MoreWitnesses.
Import Nb Audit Example.

(** On [counting] every object is the number of the operation that made
    it. *)
Ltac numbered :=
  repeat match goal with
         | H : _ /\ _ |- _ => destruct H
         | H : results _ _ _ !! _ = Some ?x |- _ =>
             is_var x; vm_compute in H; injection H as <-
         end.

Ltac numbered_script :=
  repeat match goal with
         | H : _ /\ _ |- _ => destruct H
         | H : value_in _ _ _ = Some ?x |- _ =>
             is_var x; vm_compute in H; injection H as <-
         end.

Lemma on_off_dataset_is_the_corrected_one_witness :
  op_at counting Cta.notebook 0 23
  = Some (Method 22 "run" [AVal 18; AVal 21] []) /\
  op_at counting Cta.notebook 0 27 = Some (AugOp Mult 26 (AFloat 0.68)) /\
  op_at counting Cta.notebook 0 45 = Some (AugOp Mult 42 (AVal 44)) /\
  op_at counting Cta.notebook 0 47
  = Some (Call "SpectrumDatasetOnOff.from_spectrum_dataset" []
            [("dataset", AVal 23); ("acceptance", AInt 1);
             ("acceptance_off", AInt 5)]).
Proof.
  destruct (on_off_dataset_is_the_corrected_one counting 0)
    as (empty_dataset & obs & maker & dataset & aeff & aeff_data & arr &
        background & bdata & fcol & H).
  { vm_compute. eauto. }
  numbered. repeat split; assumption.
Defined.

Lemma correction_matches_the_dataset_witness :
  op_at counting Cta.notebook 0 18
  = Some (Call "SpectrumDataset.create" []
            [("e_reco", AVal 16); ("e_true", AVal 17);
             ("region", AVal 15)]) /\
  op_at counting Cta.notebook 0 23
  = Some (Method 22 "run" [AVal 18; AVal 21] []) /\
  op_at counting Cta.notebook 0 29 = Some (GetAttr 21 "psf") /\
  op_at counting Cta.notebook 0 30 = Some (GetAttr 16 "center") /\
  op_at counting Cta.notebook 0 37 = Some (GetAttr 15 "radius").
Proof.
  destruct (correction_matches_the_dataset counting 0)
    as (region & e_reco & e_true & empty_dataset & obs & maker & psf &
        energy & theta & H).
  { vm_compute. eauto. }
  numbered. repeat split; assumption.
Defined.

Lemma plots_show_what_was_computed_witness :
  op_at counting Cta.notebook 0 35 = Some (Call "np.cos" [AVal 34] []) /\
  op_at counting Cta.notebook 0 49 = Some (Method 48 "run" [AVal 47] []) /\
  op_at counting Cta.notebook 0 50 = Some (Display 49) /\
  op_at counting Cta.notebook 0 92
  = Some (Method 87 "semilogy" [AVal 91; AVal 34]
            [("color", AStr "red"); ("label", AStr "PSF68")]).
Proof.
  destruct (plots_show_what_was_computed counting 0)
    as (dataset & psf & energy & theta & radii & on_radii & on_off &
        estimator & table & ax2 & en & H).
  { vm_compute. eauto. }
  numbered. repeat split; assumption.
Defined.

Lemma curves_pair_matching_rows_witness :
  op_at counting Cta.notebook 0 54 = Some (GetItem 53 (AVal 52)) /\
  op_at counting Cta.notebook 0 56 = Some (GetItem 55 (AVal 52)) /\
  op_at counting Cta.notebook 0 61 = Some (GetItem 60 (AVal 59)) /\
  op_at counting Cta.notebook 0 63 = Some (GetItem 62 (AVal 59)).
Proof.
  destruct (curves_pair_matching_rows counting 0)
    as (table & crit_s & is_s & en_s & x_s & fl_s & y_s & crit_g & is_g &
        en_g & x_g & fl_g & y_g & H).
  { vm_compute. eauto. }
  numbered. repeat split; assumption.
Defined.

Lemma estimators_run_on_the_image_dataset_witness :
  op_in (trace_script counting Detect.notebook 0) 24
  = Some (Method 23 "to_image" [] []) /\
  op_in (trace_script counting Detect.notebook 0) 29
  = Some (Method 28 "run" [AVal 24] []) /\
  op_in (trace_script counting Detect.notebook 0) 39
  = Some (Method 38 "run" [AVal 24] []).
Proof.
  destruct (estimators_run_on_the_image_dataset counting 0)
    as (cube & image & scales & smooth & spatial & spectral & model &
        estimator & H).
  { vm_compute. repeat constructor; eexists _, _; reflexivity. }
  { vm_compute. eauto. }
  numbered_script. repeat split; assumption.
Defined.

Lemma peaks_come_from_the_ts_map_witness :
  op_in (trace_script counting Detect.notebook 0) 49
  = Some (GetItem 39 (AStr "sqrt_ts")) /\
  op_in (trace_script counting Detect.notebook 0) 50
  = Some (Call "find_peaks" [AVal 49]
            [("threshold", AInt 8); ("min_distance", AInt 1)]) /\
  op_in (trace_script counting Detect.notebook 0) 59
  = Some (GetItem 50 (AStr "ra")) /\
  op_in (trace_script counting Detect.notebook 0) 60
  = Some (GetItem 50 (AStr "dec")).
Proof.
  destruct (peaks_come_from_the_ts_map counting 0)
    as (image & scales & smooth & smoothed & model & estimator & maps &
        sqrt_ts & sources & shown & fig & ax & ra & dec & gca & tr & H).
  { vm_compute. repeat constructor; eexists _, _; reflexivity. }
  { vm_compute. eauto. }
  numbered_script. repeat split; assumption.
Defined.

Lemma dataset_is_built_from_what_was_prepared_witness :
  op_in (trace_script counting Detect.notebook 0) 16
  = Some (SetAttr 15 "unit" (AStr "cm2s")) /\
  op_in (trace_script counting Detect.notebook 0) 23
  = Some (Call "MapDataset" []
            [("counts", AVal 12); ("models", AList [AVal 14]);
             ("exposure", AVal 15); ("psf", AVal 22);
             ("mask_safe", AVal 20); ("name", AStr "fermi-3fhl-gc")]).
Proof.
  destruct (dataset_is_built_from_what_was_prepared counting 0)
    as (counts & bmap & model & exposure & mask & table & psfmap & H).
  { vm_compute. eauto. }
  numbered_script. repeat split; assumption.
Defined.

Lemma ts_plots_read_the_ts_result_witness :
  op_in (trace_script counting Detect.notebook 0) 41
  = Some (GetItem 39 (AStr "sqrt_ts")) /\
  op_in (trace_script counting Detect.notebook 0) 44
  = Some (GetItem 39 (AStr "flux")) /\
  op_in (trace_script counting Detect.notebook 0) 47
  = Some (GetItem 39 (AStr "niter")).
Proof.
  destruct (ts_plots_read_the_ts_result counting 0)
    as (image & model & estimator & maps & sqrt_ts & flux & niter & H).
  { vm_compute. repeat constructor; eexists _, _; reflexivity. }
  { vm_compute. eauto. }
  numbered_script. repeat split; assumption.
Defined.

(** [np.cos] in cta_sensitivity and [Map.read] in detect; and
    [PointSpatialModel] in the run of detect in which
    [ASmoothMapEstimator] raised. *)
Lemma names_are_imported_before_use_witness :
  (exists j e0, j < 35 /\ op_at counting Cta.notebook 0 j = Some e0 /\
                mem "np" (binds e0) = true) /\
  (exists j e0, j < 12 /\
                op_in (trace_script counting Detect.notebook 0) j = Some e0 /\
                mem "Map" (binds e0) = true) /\
  (exists j e0, j < 29 /\
                op_in (trace_script
                         (raising "ASmoothMapEstimator" "ValueError")
                         Detect.notebook start) j = Some e0 /\
                mem "PointSpatialModel" (binds e0) = true).
Proof.
  split; [|split].
  - destruct (names_are_imported_before_use counting 0 35
                (Call "np.cos" [AVal 34] []) "np.cos") as [H _];
      [reflexivity..|].
    apply H. vm_compute. reflexivity.
  - destruct (names_are_imported_before_use counting 0 12
                (Call "Map.read"
                   [AStr "$GAMMAPY_DATA/fermi-3fhl-gc/fermi-3fhl-gc-counts-cube.fits.gz"]
                   []) "Map.read") as [_ H];
      [reflexivity..|].
    apply H. vm_compute. reflexivity.
  - destruct (names_are_imported_before_use
                (raising "ASmoothMapEstimator" "ValueError") start 29
                (Call "PointSpatialModel" [] []) "PointSpatialModel")
      as [_ H]; [reflexivity..|].
    apply H. vm_compute. reflexivity.
Defined.

(** The axis has two bins, the background cube three. *)
Lemma failed_correction_keeps_the_scaled_area_witness :
  run_cell a_longer_state = (inl Np.ValueError, (run_cell a_longer_state).2) /\
  CtaData.heap (run_cell a_longer_state).2
  = <[1%positive := Np.NdArray [3] [100 * 0.68; 200 * 0.68; 300 * 0.68]%Q]>
      a_longer_store.
Proof.
  assert (Hrun : run_cell a_longer_state
                 = (inl Np.ValueError, (run_cell a_longer_state).2))
    by (vm_compute; reflexivity).
  split; [exact Hrun|].
  apply (failed_correction_keeps_the_scaled_area Qmult Qminus Qdiv Q_of_Z id
           cos_in axis_center (fun _ : unit => tt) containment_radius
           a_longer_state (run_cell a_longer_state).2 Np.ValueError
           (Np.NdArray [3] [100; 200; 300]%Q) Hrun).
  reflexivity.
Defined.

Lemma wrong_number_of_radii_is_a_value_error_witness :
  exists st',
    run_cell a_longer_state = (inl Np.ValueError, st') /\
    CtaData.heap st' !! 2%positive
    = Some (Np.NdArray [3; 1; 1] [10; 20; 30]%Q).
Proof.
  destruct (wrong_number_of_radii_is_a_value_error Qmult Qminus Qdiv Q_of_Z
              id cos_in axis_center (fun _ : unit => tt) containment_radius
              a_longer_state
              (Np.NdArray [3] [100; 200; 300]%Q)
              (Np.NdArray [3; 1; 1] [10; 20; 30]%Q)
              3 1 1
              (CtaData.Quantity (Np.NdArray [1; 2] [0.2; 0.1]%Q) "deg")
              (Np.NdArray [2] [0.2; 0.1]%Q) 2
              cos_deg cos_deg)
    as (st' & Hrun & _ & _ & Hb);
    try reflexivity; try discriminate; try lia.
  exists st'. split; [exact Hrun|exact Hb].
Defined.

(** One radius, 0.2 deg, for a background cube of two bins. *)
Lemma single_radius_scales_every_bin_witness :
  exists st',
    run_cell a_coarse_state = (inr tt, st') /\
    CtaData.heap st' !! 2%positive
    = Some (Np.NdArray [2; 1; 1]
              [10 * ((1 - cos_deg 0.2) / (1 - cos_deg 0.1));
               20 * ((1 - cos_deg 0.2) / (1 - cos_deg 0.1))]%Q).
Proof.
  destruct (single_radius_scales_every_bin Qmult Qminus Qdiv Q_of_Z
              id cos_in axis_center (fun _ : unit => tt) containment_radius
              a_coarse_state
              (Np.NdArray [3] [100; 200; 300]%Q)
              (Np.NdArray [2; 1; 1] [10; 20]%Q)
              2 1 1
              (CtaData.Quantity (Np.NdArray [1; 1] [0.2]%Q) "deg")
              0.2%Q cos_deg cos_deg)
    as (st' & Hrun & _ & Hb);
    try reflexivity; try discriminate.
  exists st'. split; [exact Hrun|exact Hb].
Defined.

(** Two runs on two bins with radii 0.2 deg and 0.1 deg. *)
Lemma rerunning_compounds_the_correction_witness :
  exists st1 st2 B2,
    run_cell a_state = (inr tt, st1) /\
    run_cell st1 = (inr tt, st2) /\
    CtaData.heap st2 !! 1%positive
    = Some (Np.NdArray [3]
              [100 * 0.68 * 0.68; 200 * 0.68 * 0.68; 300 * 0.68 * 0.68]%Q) /\
    CtaData.heap st2 !! 2%positive = Some B2 /\
    Np.flat B2 !! 0
    = Some (10 * ((1 - cos_deg 0.2) / (1 - cos_deg 0.1))
               * ((1 - cos_deg 0.2) / (1 - cos_deg 0.1)))%Q.
Proof.
  destruct (rerunning_compounds_the_correction Qmult Qminus Qdiv Q_of_Z
              id cos_in axis_center (fun _ : unit => tt) containment_radius
              a_state
              (Np.NdArray [3] [100; 200; 300]%Q)
              (Np.NdArray [2; 1; 1] [10; 20]%Q)
              2 1 1
              (CtaData.Quantity (Np.NdArray [1; 2] [0.2; 0.1]%Q) "deg")
              (Np.NdArray [2] [0.2; 0.1]%Q)
              cos_deg cos_deg)
    as (st1 & st2 & B2 & Hrun1 & Hrun2 & Ha & Hb & _ & Hk);
    try reflexivity; try discriminate.
  exists st1, st2, B2. split; [exact Hrun1|]. split; [exact Hrun2|].
  split; [exact Ha|]. split; [exact Hb|].
  apply (Hk 0 0 10%Q 0.2%Q); [lia|lia|reflexivity|reflexivity].
Defined.

(** The background cube of two bins after a run that returns, and the one
    of three bins after a run that raises. *)
Lemma correction_keeps_every_shape_witness :
  (exists a', CtaData.heap (run_cell a_state).2 !! 2%positive = Some a' /\
              Np.shape a' = [2; 1; 1] /\ Np.well_formed a') /\
  (exists a', CtaData.heap (run_cell a_longer_state).2 !! 2%positive = Some a' /\
              Np.shape a' = [3; 1; 1] /\ Np.well_formed a').
Proof.
  split.
  - destruct (correction_keeps_every_shape Qmult Qminus Qdiv Q_of_Z id
                cos_in axis_center (fun _ : unit => tt) containment_radius
                a_state (run_cell a_state).2 (inr tt) 2%positive
                (Np.NdArray [2; 1; 1] [10; 20]%Q))
      as (a' & Ha & Hs & Hw).
    + vm_compute. reflexivity.
    + reflexivity.
    + exists a'. split; [exact Ha|]. split; [exact Hs|].
      apply Hw. reflexivity.
  - destruct (correction_keeps_every_shape Qmult Qminus Qdiv Q_of_Z id
                cos_in axis_center (fun _ : unit => tt) containment_radius
                a_longer_state (run_cell a_longer_state).2
                (inl Np.ValueError) 2%positive
                (Np.NdArray [3; 1; 1] [10; 20; 30]%Q))
      as (a' & Ha & Hs & Hw).
    + vm_compute. reflexivity.
    + reflexivity.
    + exists a'. split; [exact Ha|]. split; [exact Hs|].
      apply Hw. reflexivity.
Defined.

(** [TSMapEstimator] rejects its arguments: the peaks are searched in the
    result of operation 29, the [run] of the [ASmoothMapEstimator]. *)
Lemma failed_ts_cell_leaves_the_smoothed_images_witness :
  value_in (counting_but "TSMapEstimator")
    (trace_script (counting_but "TSMapEstimator") Detect.notebook 0) 29
  = Some 29 /\
  op_in (trace_script (counting_but "TSMapEstimator") Detect.notebook 0) 48
  = Some (GetItem 29 (AStr "sqrt_ts")) /\
  op_in (trace_script (counting_but "TSMapEstimator") Detect.notebook 0) 49
  = Some (Call "find_peaks" [AVal 48]
            [("threshold", AInt 8); ("min_distance", AInt 1)]).
Proof.
  destruct (failed_ts_cell_leaves_the_smoothed_images
              (counting_but "TSMapEstimator") 0 38
              (Call "TSMapEstimator" [AVal 36]
                 [("kernel_width", AStr "0.4 deg")])
              38 "ValueError" 39)
    as (images & Hv & _ & _ & Hp).
  { left. reflexivity. }
  { vm_compute. repeat constructor; eexists _, _; reflexivity. }
  { vm_compute. reflexivity. }
  { reflexivity. }
  assert (images = 29) as ->.
  { vm_compute in Hv. injection Hv as <-. reflexivity. }
  destruct (Hp 48) as [H1 H2];
    [vm_compute; reflexivity|vm_compute; eauto|].
  split; [exact Hv|]. split; [exact H1|exact H2].
Defined.

(** Both [run] methods raise: after the [plt.figure] of cell 6 the
    notebook ends on the unbound name [images]. *)
Lemma failed_estimators_leave_images_unbound_witness :
  drop 36 (trace_script (raising "run" "ValueError") Detect.notebook start)
  = [(Call "plt.figure" [] [("figsize", ATuple [AInt 15; AInt 5])],
      (34, []))] /\
  run_script (raising "run" "ValueError") Detect.notebook start
  = Returns (Detect.NameError "images") (35, []).
Proof.
  destruct (failed_estimators_leave_images_unbound
              (raising "run" "ValueError") start 29 35
              (Method tt "run" [AVal tt] []) (29, []) "ValueError" (29, [])
              (Method tt "run" [AVal tt] []) (34, []) "ValueError" (34, []))
    as [H1 H2].
  { lia. }
  { right. reflexivity. }
  { vm_compute. repeat constructor; eexists _, _; reflexivity. }
  { vm_compute. reflexivity. }
  { reflexivity. }
  { vm_compute. repeat constructor; eexists _, _; reflexivity. }
  { vm_compute. reflexivity. }
  { reflexivity. }
  split; [exact H1|]. rewrite H2. reflexivity.
Defined.

End MoreWitnesses.
